(** * Content registry: a shallow embedding of the content manager

    The development follows [registry/content/manager.py],
    [registry/content/content.py] and [registry/utils/databases.py].

    - Python dictionaries ([params], [filters], rows returned by
      [row_to_dict]) are finite maps [gmap string value].
    - Python values are the tagged union [value]; an operation applied to
      a value of the wrong type raises the exception Python raises.
    - The manager runs in a state-and-exception monad [M] over [world]:
      the two tables, the file system seen by [os.path] and the number of
      [time.time()] readings made so far.
    - [logging.info] calls of the manager are not part of the registry
      state and are left out; the log line of [regexp_operator] is kept
      because the behaviour of that function is to log and carry on. *)

From Stdlib Require Import Ascii.
From stdpp Require Import gmap strings list fin_maps pretty.

Local Open Scope string_scope.
Local Open Scope Z_scope.

(** ** Python values *)

Inductive value : Type :=
  | VNone
  | VBool (b : bool)
  | VInt (n : Z)
  | VStr (s : string).

#[global] Instance value_eq_dec : EqDecision value.
Proof. solve_decision. Defined.

(** [bool(v)] *)
Definition py_bool (v : value) : bool :=
  match v with
  | VNone => false
  | VBool b => b
  | VInt n => negb (n =? 0)
  | VStr s => negb (String.eqb s "")
  end.

(** ['{}'.format(v)] *)
Definition py_str (v : value) : string :=
  match v with
  | VNone => "None"
  | VBool true => "True"
  | VBool false => "False"
  | VInt n => pretty n
  | VStr s => s
  end.

(** [sep.join(l)] *)
Fixpoint join (sep : string) (l : list string) : string :=
  match l with
  | [] => ""
  | [x] => x
  | x :: rest => x +:+ sep +:+ join sep rest
  end.

(** [s.startswith(p)] *)
Fixpoint startswith (p s : string) : bool :=
  match p, s with
  | EmptyString, _ => true
  | String a p', String b s' => if Ascii.eqb a b then startswith p' s' else false
  | String _ _, EmptyString => false
  end.

(** [min(a, b)] of Python 2, where values of different types are ordered:
    [None] is below everything, numbers (booleans count as 0 and 1) are
    compared by value and are below every string.  [min] returns its first
    argument unless the second is strictly smaller. *)
Definition py_lt (a b : value) : bool :=
  match a, b with
  | VNone, VNone => false
  | VNone, _ => true
  | _, VNone => false
  | VStr x, VStr y => bool_decide (String.compare x y = Lt)
  | VStr _, _ => false
  | _, VStr _ => true
  | VBool x, VBool y => Z.b2z x <? Z.b2z y
  | VBool x, VInt y => Z.b2z x <? y
  | VInt x, VBool y => x <? Z.b2z y
  | VInt x, VInt y => x <? y
  end.

Definition py_min (a b : value) : value := if py_lt b a then b else a.

(** ** Exceptions *)

Inductive exn : Type :=
  | ContentException (msg : string)   (* manager.ContentException *)
  | ValueError (msg : string)
  | KeyError (key : string)
  | TypeError (msg : string)
  | AttributeError (msg : string)
  | OSError (msg : string)
  | ReError (msg : string)            (* re.error *)
  | DatabaseError (msg : string).     (* raised by the database driver *)

#[global] Instance exn_eq_dec : EqDecision exn.
Proof. solve_decision. Defined.

Inductive result (A : Type) : Type :=
  | Return (a : A)
  | Raise (e : exn).
Arguments Return {A} a.
Arguments Raise {A} e.

(** [str(e)] *)
Definition exn_str (e : exn) : string :=
  match e with
  | ContentException m | ValueError m | TypeError m | AttributeError m
  | OSError m | ReError m | DatabaseError m => m
  | KeyError k => "'" +:+ k +:+ "'"
  end.

#[global] Instance result_ret : MRet result := λ A a, Return a.
#[global] Instance result_bind : MBind result := λ A B f m,
  match m with
  | Return a => f a
  | Raise e => Raise e
  end.

(** ** The world the manager runs in *)

(** A row of table [content], as [row_to_dict] returns it.  A column that
    holds SQL NULL is an absent key. *)
Abbreviation row := (gmap string value).

(** A row of table [history]. *)
Record action_record : Type := ActionRecord {
  file_id : Z;
  client_name : value;
  action : string;
  action_params : string;
  timestamp : Z;
}.

(** What [os.path.isfile] and [os.path.getsize] see at a path. *)
Record fs_entry : Type := FsEntry {
  st_isfile : bool;
  st_size : Z;
}.

Record world : Type := World {
  content : list row;             (* table content, in insertion order *)
  history : list action_record;   (* table history, in insertion order *)
  ticks : nat;                    (* time.time() readings made so far *)
  fs : gmap string fs_entry;
}.

Definition set_content (c : list row) (w : world) : world :=
  World c (history w) (ticks w) (fs w).
Definition set_history (h : list action_record) (w : world) : world :=
  World (content w) h (ticks w) (fs w).
Definition set_ticks (n : nat) (w : world) : world :=
  World (content w) (history w) n (fs w).

(** ** State and exception monad *)

Definition M (A : Type) : Type := world → result A * world.

#[global] Instance M_ret : MRet M := λ A a w, (Return a, w).
#[global] Instance M_bind : MBind M := λ A B f m w,
  match m w with
  | (Return a, w') => f a w'
  | (Raise e, w') => (Raise e, w')
  end.

Definition raise {A : Type} (e : exn) : M A := λ w, (Raise e, w).
Definition get_world : M world := λ w, (Return w, w).
Definition modify_world (f : world → world) : M () := λ w, (Return (), f w).
Definition lift {A : Type} (r : result A) : M A := λ w, (r, w).

(** [d[k]] *)
Definition getitem (d : gmap string value) (k : string) : M value :=
  match d !! k with
  | Some v => mret v
  | None => raise (KeyError k)
  end.

(** The regular expression engine behind Python's [re] module:
    [re_compile p] is [inr rx] when [re.compile(p)] returns, and [inl msg]
    when it raises [re.error(msg)]; [re_search rx s] is
    [rx.search(s) is not None]. *)
Class PyRe : Type := {
  pattern : Type;
  re_compile : string → string + pattern;
  re_search : pattern → string → bool;
}.

(** ** The database backend (SQLite) *)

(** The driver binds a Python boolean as the integer 0 or 1. *)
Definition adapt (v : value) : value :=
  match v with
  | VBool b => VInt (Z.b2z b)
  | _ => v
  end.

(** [row[c]]: an absent key is NULL. *)
Definition column (r : row) (c : string) : value := default VNone (r !! c).

(** SQL [a = b] used as a condition: a comparison with NULL is not true. *)
Definition sql_eq (a b : value) : bool :=
  match a, b with
  | VInt x, VInt y => x =? y
  | VStr x, VStr y => String.eqb x y
  | _, _ => false
  end.

(** A value used as a WHERE condition. *)
Definition sql_true (v : value) : bool :=
  match adapt v with
  | VInt n => negb (n =? 0)
  | _ => false
  end.

Definition row_id (r : row) : option Z :=
  match r !! "id" with
  | Some (VInt n) => Some n
  | _ => None
  end.

Definition max_id (rows : list row) : Z :=
  foldr (λ r m, match row_id r with Some n => Z.max n m | None => m end) 0 rows.

(** Modelled from the spec: the schema of table [content] (the migration
    scripts are not part of the sources read here).  "id
    (backend-assigned integer, immutable)": [id] is the integer primary
    key.  An insert without an id gets one larger than every id in the
    table; an insert that names an unused integer id keeps it; any other
    id is refused by the backend.  Returns [last_insert_rowid()]. *)
Definition db_insert_content (data : gmap string value) : M Z :=
  w ← get_world;
  let vals := adapt <$> data in
  let store i :=
    modify_world (set_content (content w ++ [<["id" := VInt i]> vals]));;
    mret i in
  match vals !! "id" with
  | None | Some VNone => store (1 + max_id (content w))
  | Some (VInt i) =>
      if bool_decide (Exists (λ r, row_id r = Some i) (content w))
      then raise (DatabaseError "UNIQUE constraint failed: content.id")
      else store i
  | Some _ => raise (DatabaseError "datatype mismatch")
  end.

(** [UPDATE content SET k = :k, ... WHERE id = :id] for the keys [k] of
    [data]. *)
Definition db_update_content (data : gmap string value) : M () :=
  let vals := adapt <$> data in
  match vals !! "id" with
  | None => raise (DatabaseError "You did not supply a value for binding id")
  | Some i =>
      modify_world (λ w, set_content
        ((λ r, if sql_eq (column r "id") i then vals ∪ r else r) <$> content w) w)
  end.

(** [INSERT INTO history ...] *)
Definition db_insert_history (a : action_record) : M () :=
  modify_world (λ w, set_history (history w ++ [a]) w).

Section Registry.

Context {engine : PyRe}.

(** [time.time()]: the [n]-th reading of the clock. *)
Variable clock : nat → Z.

(** [os.path.abspath(config['registry.root_path'])] *)
Variable root_path : string.

(** The WHERE conditions of the filters [path], [since], [category] and
    [aired], which neither the sources nor the spec describe. *)
Variable filter_where : string → value → row → bool.

Definition time_time : M Z := λ w,
  (Return (clock (ticks w)), set_ticks (S (ticks w)) w).

(** ** utils/databases.py *)

Definition re_compile_py (expr : value) : result pattern :=
  match expr with
  | VStr p =>
      match re_compile p with
      | inr rx => Return rx
      | inl msg => Raise (ReError msg)
      end
  | _ => Raise (TypeError "first argument must be string or compiled pattern")
  end.

Definition rx_search_py (rx : pattern) (item : value) : result bool :=
  match item with
  | VStr s => Return (re_search rx s)
  | _ => Raise (TypeError "expected string or buffer")
  end.

(** [regexp_operator(expr, item)]: the value returned to SQLite (or the
    exception raised into it) and the lines written to the log.  When the
    [except] clause runs the function falls off its end and returns
    [None]. *)
Definition regexp_operator (expr item : value) : result value * list string :=
  let body : result value :=
    rx ← re_compile_py expr;
    found ← rx_search_py rx item;
    mret (VBool found) in
  match body with
  | Return v => (Return v, [])
  | Raise e =>
      (Return VNone, ["Error while using REGEXP operator: " +:+ exn_str e])
  end.

(** SQL [item REGEXP expr] used as a WHERE condition, with the function
    that [patch_connection] registers. *)
Definition sql_regexp (expr item : value) : bool :=
  match (regexp_operator expr item).1 with
  | Return v => sql_true v
  | Raise _ => false
  end.

(** ** content/filters.py *)

Record query : Type := Query {
  q_where : list (row → bool);
  q_limit : option value;
}.

Definition add_where (p : row → bool) (q : query) : query :=
  Query (q_where q ++ [p]) (q_limit q).

(** Modelled from the spec: the filter classes of [content/filters.py]
    ([filt.apply(query, params)]), which are not part of the sources read
    here.  "the recognized filter names are exactly {id, path, since,
    count, category, alive, aired, serve_path}"; [id] and [alive] select
    the rows whose column equals the value; [serve_path] is "evaluated
    against serve_path using the backend's pattern-match predicate";
    [count] is the "optional row-limit"; the filter compiler is
    "rejecting unknown filter keys". *)
Definition filter_condition (name : string) (v : value) : option (row → bool) :=
  if String.eqb name "id" then
    Some (λ r, sql_eq (column r "id") (adapt v))
  else if String.eqb name "alive" then
    Some (λ r, sql_eq (column r "alive") (adapt v))
  else if String.eqb name "serve_path" then
    Some (λ r, sql_regexp (adapt v) (column r "serve_path"))
  else if bool_decide (name ∈ ["path"; "since"; "category"; "aired"]) then
    Some (filter_where name (adapt v))
  else None.

Definition apply_filter (name : string) (v : value) (q : query) : result query :=
  if String.eqb name "count" then Return (Query (q_where q) (Some v))
  else
    match filter_condition name v with
    | Some p => Return (add_where p q)
    | None => Raise (ContentException ("Invalid filter: " +:+ name))
    end.

Fixpoint apply_filters (fs : list (string * value)) (q : query) : result query :=
  match fs with
  | [] => Return q
  | (name, v) :: rest => q' ← apply_filter name v q; apply_filters rest q'
  end.

(** Modelled from the spec: [db.execute] of a SELECT over table [content]
    (the query builder is not part of the sources read here): the rows
    that satisfy every condition, in table order, cut to the row limit.
    SQLite takes a negative LIMIT as no limit and refuses one that is not
    an integer. *)
Definition db_select (q : query) (rows : list row) : result (list row) :=
  let hits := List.filter (λ r, forallb (λ p, p r) (q_where q)) rows in
  match q_limit q with
  | None => Return hits
  | Some v =>
      match adapt v with
      | VInt n => Return (if n <? 0 then hits else take (Z.to_nat n) hits)
      | _ => Raise (DatabaseError "datatype mismatch")
      end
  end.

(** ** content/content.py *)

Definition COLS : list string :=
  ["id"; "path"; "size"; "uploaded"; "modified"; "category"; "expiration";
   "serve_path"; "alive"].

Definition strip_extra (data : gmap string value) (valid_keys : list string)
  : gmap string value :=
  filter (λ kv, kv.1 ∈ valid_keys) data.

Definition process_content_data (data : gmap string value) : gmap string value :=
  strip_extra data COLS.

(** Modelled from the spec: the scope [to_filters] of [content/filters.py]
    gives a read that names no [alive] filter.  "Alive entry: a FileEntry
    with alive = true; the default visibility scope for reads";
    "listFiles with default filters never returns entries where alive =
    false; getFile after delete must return absent unless alive is
    explicitly filtered". *)
Definition default_scope (filters : gmap string value) : gmap string value :=
  match filters !! "alive" with
  | Some _ => filters
  | None => <["alive" := VBool true]> filters
  end.

(** [get_content(db, **filters)], decorated with [to_filters]. *)
Definition get_content (filters : gmap string value) : M (list row) :=
  q ← lift (apply_filters (map_to_list (default_scope filters)) (Query [] None));
  w ← get_world;
  lift (db_select q (content w)).

Definition add_content (data : gmap string value) : M Z :=
  db_insert_content (process_content_data data).

Definition update_content (data : gmap string value) : M () :=
  db_update_content (process_content_data data).

(** ** content/manager.py: ActionRecords *)

Definition add_action (file_id : Z) (client_name : value)
    (action action_params : string) (timestamp : Z) : M () :=
  db_insert_history
    (ActionRecord file_id client_name action action_params timestamp).

Definition get_actions (fid : Z) : M (list action_record) :=
  w ← get_world;
  mret (List.filter (λ a, file_id a =? fid) (history w)).

(** ** content/manager.py: ContentManager *)

Definition DEFAULT_LIST_COUNT : Z := 100.
Definition MAX_LIST_COUNT : Z := 1000.

Definition VALID_FILTERS : list string :=
  ["id"; "path"; "since"; "count"; "category"; "alive"; "aired"; "serve_path"].

Definition MODIFY_TRIGGERS : list string :=
  ["path"; "size"; "category"; "expiration"; "serve_path"; "alive"].

Definition _process_entry (data : row) : row :=
  <["alive" := VBool (py_bool (column data "alive"))]> data.

Fixpoint validate_keys (keys : list string) : result () :=
  match keys with
  | [] => Return ()
  | key :: rest =>
      if bool_decide (key ∈ VALID_FILTERS) then validate_keys rest
      else Raise (ContentException ("Invalid filter: " +:+ key))
  end.

(** [for key in filters.keys(): ...]; the keys come in the order of the
    map. *)
Definition validate_filters (filters : gmap string value) : result () :=
  validate_keys (map_to_list filters).*1.

Definition split_valid_filters (filters : gmap string value)
  : gmap string value * gmap string value :=
  (filter (λ kv, kv.1 ∈ VALID_FILTERS) filters,
   filter (λ kv, kv.1 ∉ VALID_FILTERS) filters).

Definition get_file (kwargs : gmap string value) : M (option row) :=
  let filters := <["count" := VInt 1]> kwargs in
  lift (validate_filters filters);;
  files ← get_content filters;
  mret (match files with
        | f :: _ => Some (_process_entry f)
        | [] => None
        end).

(** [ContentManager.exists]; [bool(content)] of a dictionary is whether it
    has a key. *)
Definition exists_ (kwargs : gmap string value) : M bool :=
  let filters := <["alive" := VBool true]> kwargs in
  content ← get_file filters;
  mret (match content with
        | Some d => bool_decide (d ≠ ∅)
        | None => false
        end).

Definition default_filters : gmap string value :=
  <["count" := VInt DEFAULT_LIST_COUNT]> ∅.

Definition validate_list_filters (filters : gmap string value)
  : result (gmap string value) :=
  let filters :=
    if bool_decide (is_Some (filters !! "serve_path") ∨ is_Some (filters !! "since"))
    then delete "count" filters else filters in
  let filters :=
    match filters !! "count" with
    | Some c => <["count" := py_min c (VInt MAX_LIST_COUNT)]> filters
    | None => filters
    end in
  match filters !! "serve_path" with
  | Some sp =>
      match re_compile_py sp with
      | Return _ => Return filters
      | Raise (ReError _) =>
          Raise (ValueError
            ("Invalid regular expression for serve_path: " +:+ py_str sp))
      | Raise e => Raise e
      end
  | None => Return filters
  end.

(** [filters.update(kwargs or {})]: the caller's entries win. *)
Definition list_files (kwargs : gmap string value) : M (list row) :=
  let filters := kwargs ∪ default_filters in
  filters ← lift (validate_list_filters filters);
  rows ← get_content filters;
  mret (_process_entry <$> rows).

Definition getsize (path : value) : M Z :=
  match path with
  | VStr p =>
      w ← get_world;
      match fs w !! p with
      | Some e => mret (st_size e)
      | None => raise (OSError ("No such file or directory: " +:+ p))
      end
  | _ => raise (TypeError "coercing to Unicode: need string or buffer")
  end.

Definition isfile (p : string) : M bool :=
  w ← get_world;
  mret (match fs w !! p with
        | Some e => st_isfile e
        | None => false
        end).

Definition _validate_path (path : value) : M () :=
  if negb (py_bool path) then
    raise (ContentException ("Invalid path " +:+ py_str path))
  else
    match path with
    | VStr p =>
        if negb (startswith root_path p) then
          raise (ContentException
            (" " +:+ p +:+ " does not fall under " +:+ root_path +:+ " hierarchy."))
        else
          there ← isfile p;
          if negb there then raise (ContentException ("No file at path " +:+ p))
          else mret ()
    | _ => raise (AttributeError "object has no attribute 'startswith'")
    end.

Definition _validate_params (params : gmap string value) : M () :=
  match params !! "path" with
  | Some path => _validate_path path
  | None => mret ()
  end.

Definition record_action (file_id : Z) (client_name : value)
    (action action_params : string) (timestamp : option Z) : M () :=
  ts ← match timestamp with
       | Some t => if t =? 0 then time_time else mret t
       | None => time_time
       end;
  add_action file_id client_name action action_params ts.

Definition _add_file (path : value) (data : gmap string value) : M Z :=
  let data := <["alive" := VBool true]> data in
  now ← time_time;
  let data := <["modified" := VInt now]> (<["uploaded" := VInt now]> data) in
  size ← getsize path;
  let data := <["size" := VInt size]> data in
  add_content data.

(** [_update_file] changes the dictionary it is given, which is the
    caller's [params]: the dictionary after the changes is returned next
    to the effect on the table. *)
Definition _update_file (id : Z) (data : gmap string value)
  : M (gmap string value) :=
  let data := <["id" := VInt id]> data in
  data ← match data !! "path" with
         | Some path => size ← getsize path; mret (<["size" := VInt size]> data)
         | None => mret data
         end;
  data ← (if existsb (λ key, bool_decide (is_Some (data !! key))) MODIFY_TRIGGERS
          then now ← time_time; mret (<["modified" := VInt now]> data)
          else mret data);
  update_content data;;
  mret data.

Definition _delete_file (id : Z) : M () :=
  let data : gmap string value := <["id" := VInt id]> ∅ in
  let data := <["alive" := VBool false]> data in
  now ← time_time;
  let data := <["modified" := VInt now]> data in
  update_content data.

Definition add_file (client : gmap string value) (path : value)
    (params : gmap string value) : M (option row) :=
  serve_path ← getitem params "serve_path";
  taken ← exists_ (<["serve_path" := serve_path]> ∅);
  if (taken : bool) then
    raise (ContentException
      ("File at serve_path " +:+ py_str serve_path +:+ " already exists."))
  else
    _validate_params params;;
    id ← _add_file path params;
    name ← getitem client "name";
    record_action id name "add" "" None;;
    get_file (<["id" := VInt id]> ∅).

(** [params.keys()] is read after [_update_file] has changed [params].
    Python lists the keys in the order of the dictionary's hash table;
    here they come in the order of the map, and what is proved of
    [action_params] holds of the names in any order. *)
Definition update_file (client : gmap string value) (id : Z)
    (params : gmap string value) : M (option row) :=
  found ← exists_ (<["id" := VInt id]> ∅);
  if negb found then
    raise (ContentException ("File with id " +:+ pretty id +:+ " does not exist."))
  else
    _validate_params params;;
    params ← _update_file id params;
    let action_params := join ", " (map_to_list params).*1 in
    name ← getitem client "name";
    record_action id name "update" action_params None;;
    get_file (<["id" := VInt id]> ∅).

Definition delete_file (client : gmap string value) (id : Z) : M () :=
  found ← exists_ (<["id" := VInt id]> ∅);
  if negb found then
    raise (ContentException ("File with id " +:+ pretty id +:+ " does not exist."))
  else
    _delete_file id;;
    name ← getitem client "name";
    record_action id name "delete" "" None.

End Registry.

(** ** A regular expression engine for running the model

    [ReFragment] implements the part of the pattern syntax of Python 2's
    [re] that is made of literal characters, [.], the postfix operators
    [*], [+], [?] (and their lazy forms), [|] and backslash-escaped
    punctuation.  Matching is by derivatives.  A pattern that uses any
    other syntax (groups, classes, anchors, counted repeats, escapes of
    letters and digits) is outside the fragment: [compile] answers [inl]
    for it, which says nothing about [re.compile].  The theorems of the
    general development hold for every engine; this one serves to run the
    manager on concrete patterns of the fragment. *)

Module ReFragment.

Inductive rx : Type :=
  | Empty                 (* matches no string *)
  | Eps                   (* matches the empty string *)
  | Chr (a : ascii)
  | Dot                   (* any character but newline *)
  | Cat (r s : rx)
  | Alt (r s : rx)
  | Star (r : rx).

Definition newline : ascii := "010"%char.

Fixpoint nullable (r : rx) : bool :=
  match r with
  | Empty | Chr _ | Dot => false
  | Eps | Star _ => true
  | Cat r s => nullable r && nullable s
  | Alt r s => nullable r || nullable s
  end.

Fixpoint deriv (a : ascii) (r : rx) : rx :=
  match r with
  | Empty | Eps => Empty
  | Chr b => if Ascii.eqb a b then Eps else Empty
  | Dot => if Ascii.eqb a newline then Empty else Eps
  | Cat r s =>
      Alt (Cat (deriv a r) s) (if nullable r then deriv a s else Empty)
  | Alt r s => Alt (deriv a r) (deriv a s)
  | Star r => Cat (deriv a r) (Star r)
  end.

(** Some prefix of [s] matches [r]. *)
Fixpoint match_prefix (r : rx) (s : string) : bool :=
  nullable r ||
  match s with
  | EmptyString => false
  | String a s' => match_prefix (deriv a r) s'
  end.

(** [rx.search(s) is not None]: a match starts somewhere in [s]. *)
Fixpoint search (r : rx) (s : string) : bool :=
  match_prefix r s ||
  match s with
  | EmptyString => false
  | String _ s' => search r s'
  end.

(** The parser reads the pattern left to right.  [cur] holds the atoms of
    the alternative being read, last first; the number next to an atom is
    0 for a plain atom, 1 once it carries a repeat operator, 2 once that
    operator carries the lazy mark [?]. *)
Record pstate : Type := PState {
  done_alts : list rx;
  cur : list (rx * nat);
  esc : bool;
}.

Inductive outcome (A : Type) : Type :=
  | Parsed (a : A)
  | Bad (msg : string)       (* re.error(msg) *)
  | Outside.                 (* syntax outside the fragment *)
Arguments Parsed {A} a.
Arguments Bad {A} msg.
Arguments Outside {A}.

Definition is_alnum (a : ascii) : bool :=
  let n := Z.of_N (Ascii.N_of_ascii a) in
  ((48 <=? n) && (n <=? 57)) || ((65 <=? n) && (n <=? 90)) ||
  ((97 <=? n) && (n <=? 122)).

Definition push (r : rx) (st : pstate) : outcome pstate :=
  Parsed (PState (done_alts st) ((r, 0%nat) :: cur st) false).

Definition repeat_last (f : rx → rx) (st : pstate) : outcome pstate :=
  match cur st with
  | [] => Bad "nothing to repeat"
  | (r, O) :: rest => Parsed (PState (done_alts st) ((f r, 1%nat) :: rest) false)
  | _ :: _ => Bad "multiple repeat"
  end.

Definition question (st : pstate) : outcome pstate :=
  match cur st with
  | [] => Bad "nothing to repeat"
  | (r, O) :: rest =>
      Parsed (PState (done_alts st) ((Alt r Eps, 1%nat) :: rest) false)
  | (r, S O) :: rest => Parsed (PState (done_alts st) ((r, 2%nat) :: rest) false)
  | _ :: _ => Bad "multiple repeat"
  end.

Definition cat_of (atoms : list (rx * nat)) : rx :=
  foldl (λ acc p, Cat p.1 acc) Eps atoms.

Definition alt_of (alts : list rx) : rx := foldr Alt Empty alts.

Definition step (c : ascii) (st : pstate) : outcome pstate :=
  if esc st then
    if is_alnum c then Outside else push (Chr c) st
  else if Ascii.eqb c "\" then Parsed (PState (done_alts st) (cur st) true)
  else if Ascii.eqb c "." then push Dot st
  else if Ascii.eqb c "*" then repeat_last Star st
  else if Ascii.eqb c "+" then repeat_last (λ r, Cat r (Star r)) st
  else if Ascii.eqb c "?" then question st
  else if Ascii.eqb c "|" then
    Parsed (PState (done_alts st ++ [cat_of (cur st)]) [] false)
  else if bool_decide (c ∈ ["("; ")"; "["; "]"; "{"; "}"; "^"; "$"]%char)
  then Outside
  else push (Chr c) st.

Fixpoint parse (p : string) (st : pstate) : outcome rx :=
  match p with
  | EmptyString =>
      if esc st then Bad "bogus escape (end of line)"
      else Parsed (alt_of (done_alts st ++ [cat_of (cur st)]))
  | String c p' =>
      match step c st with
      | Parsed st' => parse p' st'
      | Bad msg => Bad msg
      | Outside => Outside
      end
  end.

Definition compile (p : string) : string + rx :=
  match parse p (PState [] [] false) with
  | Parsed r => inr r
  | Bad msg => inl msg
  | Outside => inl "pattern outside the modelled fragment"
  end.

#[global] Instance engine : PyRe :=
  {| pattern := rx; re_compile := compile; re_search := search |}.

End ReFragment.

(** ** A small installation to run the manager on *)

Module Demo.

Definition clock (n : nat) : Z := 1000 + Z.of_nat n.

Definition root_path : string := "/srv/content".

(** Stand-ins for the conditions of [path], [since], [category], [aired]:
    equality on the column of that name, and [modified >= since]. *)
Definition filter_where (name : string) (v : value) (r : row) : bool :=
  if String.eqb name "since" then
    match column r "modified", v with
    | VInt m, VInt s => s <=? m
    | _, _ => false
    end
  else sql_eq (column r name) v.

Definition client : gmap string value := <["name" := VStr "uplink"]> ∅.

Definition disk : gmap string fs_entry :=
  <["/srv/content/a.mp4" := FsEntry true 4096]>
  (<["/srv/content/b.mp4" := FsEntry true 512]> ∅).

Definition w0 : world := World [] [] 0 disk.

Definition params (path serve_path : string) : gmap string value :=
  <["path" := VStr path]> (<["serve_path" := VStr serve_path]> ∅).

Definition add (path serve_path : string) : M (option row) :=
  add_file clock root_path filter_where client (VStr path) (params path serve_path).

Definition update (id : Z) (ps : gmap string value) : M (option row) :=
  update_file clock root_path filter_where client id ps.

Definition delete (id : Z) : M () :=
  delete_file clock filter_where client id.

Definition list (kwargs : gmap string value) : M (list row) :=
  list_files filter_where kwargs.

Definition get (kwargs : gmap string value) : M (option row) :=
  get_file filter_where kwargs.

(** The world after [m] has run from [w], and the rows it returned. *)
Definition after {A : Type} (m : M A) (w : world) : world := (m w).2.

Definition rows_of (m : M (Datatypes.list row)) (w : world) : Datatypes.list row :=
  match (m w).1 with
  | Return rows => rows
  | Raise _ => []
  end.

(** The entry [m] returns from [w], the empty dictionary if it returns
    none. *)
Definition entry_of (m : M (option row)) (w : world) : row :=
  match (m w).1 with
  | Return (Some entry) => entry
  | _ => ∅
  end.

(** One entry at serve path /videos/ab, alive in [w1], retired in [w2]. *)
Definition w1 : world := after (add "/srv/content/a.mp4" "/videos/ab") w0.

Definition w2 : world := after (delete 1) w1.

(** One alive entry whose serve path contains a pattern operator. *)
Definition w3 : world := after (add "/srv/content/a.mp4" "/videos/a+b") w0.

End Demo.

(** ** Reading the table: what a set of filters selects *)

Section Selection.

Context {engine : PyRe}.
Variable filter_where : string → value → row → bool.

(** The condition one entry of [filters] puts on a row; [count] puts
    none. *)
Definition entry_holds (kv : string * value) (r : row) : bool :=
  if String.eqb kv.1 "count" then true
  else
    match filter_condition filter_where kv.1 kv.2 with
    | Some p => p r
    | None => true
    end.

(** The rows a read with these filters sees: the filters as given, within
    the default scope. *)
Definition selected (filters : gmap string value) (r : row) : bool :=
  forallb (λ kv, entry_holds kv r) (map_to_list (default_scope filters)).

Definition passes (q : query) (r : row) : bool :=
  forallb (λ p, p r) (q_where q).

(** The row limit of a successful SELECT. *)
Definition cut (limit : option value) (hits : list row) : result (list row) :=
  match limit with
  | None => Return hits
  | Some v =>
      match adapt v with
      | VInt n => Return (if n <? 0 then hits else take (Z.to_nat n) hits)
      | _ => Raise (DatabaseError "datatype mismatch")
      end
  end.

(** An entry of table [content] that [exists] can see. *)
Definition is_alive (r : row) : bool := sql_eq (column r "alive") (VInt 1).

End Selection.

(** ** Worlds the manager can be in *)

Section Reachable.

Context {engine : PyRe}.
Variable clock : nat → Z.
Variable root_path : string.
Variable filter_where : string → value → row → bool.

(** The registry starts with empty tables; the manager's three mutating
    operations change it, whatever their outcome; the file system and the
    clock are not under the manager's control. *)
Inductive reachable : world → Prop :=
  | reach_init (n : nat) (disk : gmap string fs_entry) :
      reachable (World [] [] n disk)
  | reach_env (w : world) (n : nat) (disk : gmap string fs_entry) :
      reachable w → reachable (World (content w) (history w) n disk)
  | reach_add (w : world) client path params :
      reachable w →
      reachable (add_file clock root_path filter_where client path params w).2
  | reach_update (w : world) client id params :
      reachable w →
      reachable (update_file clock root_path filter_where client id params w).2
  | reach_delete (w : world) client id :
      reachable w →
      reachable (delete_file clock filter_where client id w).2.

(** Every audit record refers to a row of table [content]. *)
Definition history_refs (w : world) : Prop :=
  ∀ a, a ∈ history w → ∃ r, r ∈ content w ∧ row_id r = Some (file_id a).

End Reachable.

(** * Properties *)

Section SelectionFacts.

Context {engine : PyRe}.
Variable filter_where : string → value → row → bool.

Lemma valid_filter_has_condition (name : string) (v : value) :
  name ∈ VALID_FILTERS → name ≠ "count" →
  is_Some (filter_condition filter_where name v).
Proof.
  unfold VALID_FILTERS. intros Hin Hne.
  repeat (apply elem_of_cons in Hin as [-> | Hin]; [first [done | by eexists] |]).
  by apply elem_of_nil in Hin.
Qed.

Lemma apply_filters_valid (l : list (string * value)) (q : query) :
  Forall (λ kv, kv.1 ∈ VALID_FILTERS) l →
  ∃ q', apply_filters filter_where l q = Return q' ∧
        ∀ r, passes q' r = passes q r && forallb (λ kv, entry_holds filter_where kv r) l.
Proof.
  revert q. induction l as [| [k v] l IH]; intros q Hl.
  - exists q. split; [done |]. intros r. by rewrite andb_true_r.
  - apply Forall_cons in Hl as [Hk Hl]. simpl in Hk.
    cbn [apply_filters]. unfold apply_filter, entry_holds. cbn [fst snd forallb].
    destruct (String.eqb k "count") eqn:Hc.
    + destruct (IH (Query (q_where q) (Some v)) Hl) as (q' & Hq' & Hp).
      exists q'. split; [by rewrite <- Hq' |]. intros r. by rewrite Hp.
    + assert (k ≠ "count") as Hne by (by apply String.eqb_neq).
      destruct (valid_filter_has_condition k v Hk Hne) as [p Hp]. rewrite Hp.
      destruct (IH (add_where p q) Hl) as (q' & Hq' & Hpass).
      exists q'. split; [by rewrite <- Hq' |]. intros r. rewrite Hpass.
      unfold passes, add_where. cbn [q_where].
      rewrite forallb_app. cbn [forallb]. by rewrite andb_true_r, andb_assoc.
Qed.

Lemma apply_filters_limit_absent (l : list (string * value)) (q q' : query) :
  apply_filters filter_where l q = Return q' →
  "count" ∉ l.*1 → q_limit q' = q_limit q.
Proof.
  revert q. induction l as [| [k v] l IH]; intros q Hq Hnot.
  - by injection Hq as ->.
  - cbn [apply_filters] in Hq. unfold apply_filter in Hq.
    rewrite fmap_cons, not_elem_of_cons in Hnot. destruct Hnot as [Hk Hnot].
    simpl in Hk.
    assert (String.eqb k "count" = false) as Hc by (apply String.eqb_neq; congruence).
    rewrite Hc in Hq.
    destruct (filter_condition filter_where k v) as [p |]; [| done].
    by rewrite (IH _ Hq Hnot).
Qed.

Lemma apply_filters_limit_present (l : list (string * value)) (q q' : query) v :
  apply_filters filter_where l q = Return q' →
  NoDup l.*1 → ("count", v) ∈ l → q_limit q' = Some v.
Proof.
  revert q. induction l as [| [k u] l IH]; intros q Hq Hnd Hin.
  - by apply elem_of_nil in Hin.
  - cbn [apply_filters] in Hq. unfold apply_filter in Hq.
    rewrite fmap_cons in Hnd. apply NoDup_cons in Hnd as [Hk Hnd]. simpl in Hk.
    apply elem_of_cons in Hin as [Heq | Hin].
    + injection Heq as <- <-. cbn in Hq.
      by rewrite (apply_filters_limit_absent _ _ _ Hq Hk).
    + assert (k ≠ "count") as Hne.
      { intros ->. apply Hk. apply list_elem_of_fmap. by exists ("count", v). }
      apply String.eqb_neq in Hne. rewrite Hne in Hq.
      destruct (filter_condition filter_where k u) as [p |]; [| done].
      by apply (IH _ Hq Hnd Hin).
Qed.

Definition valid_keys (filters : gmap string value) : Prop :=
  ∀ k, is_Some (filters !! k) → k ∈ VALID_FILTERS.

Lemma validate_keys_ok (keys : list string) :
  Forall (λ k, k ∈ VALID_FILTERS) keys → validate_keys keys = Return ().
Proof.
  induction 1 as [| k keys Hk _ IH]; [done |].
  cbn [validate_keys]. by rewrite bool_decide_eq_true_2.
Qed.

Lemma validate_keys_bad (keys : list string) :
  ¬ Forall (λ k, k ∈ VALID_FILTERS) keys →
  ∃ k, k ∈ keys ∧ (k ∉ VALID_FILTERS) ∧
       validate_keys keys = Raise (ContentException ("Invalid filter: " +:+ k)).
Proof.
  induction keys as [| k keys IH]; intros Hnot.
  - destruct Hnot. constructor.
  - cbn [validate_keys]. case_bool_decide as Hk.
    + destruct IH as (k' & Hin & Hbad & Heq).
      { intros Hall. apply Hnot. by constructor. }
      exists k'. split_and!; [by right | done | done].
    + exists k. split_and!; [by left | done | done].
Qed.

Lemma valid_keys_Forall (filters : gmap string value) :
  valid_keys filters ↔ Forall (λ k, k ∈ VALID_FILTERS) (map_to_list filters).*1.
Proof.
  rewrite Forall_forall. split.
  - intros Hv k Hin. apply list_elem_of_fmap in Hin as ([k' v] & -> & Hin).
    apply elem_of_map_to_list in Hin. apply Hv. by exists v.
  - intros Hall k [v Hv]. apply Hall. apply list_elem_of_fmap.
    exists (k, v). split; [done |]. by apply elem_of_map_to_list.
Qed.

Lemma validate_filters_ok (filters : gmap string value) :
  valid_keys filters → validate_filters filters = Return ().
Proof. intros Hv. apply validate_keys_ok. by apply valid_keys_Forall. Qed.

Lemma valid_keys_insert (filters : gmap string value) k v :
  k ∈ VALID_FILTERS → valid_keys filters → valid_keys (<[k := v]> filters).
Proof.
  intros Hk Hv k' Hsome. destruct (decide (k = k')) as [<- | Hne]; [done |].
  apply Hv. by rewrite lookup_insert_ne in Hsome.
Qed.

Lemma valid_keys_empty : valid_keys ∅.
Proof. intros k [v Hv]. by rewrite lookup_empty in Hv. Qed.

Lemma default_scope_given (filters : gmap string value) (v : value) :
  filters !! "alive" = Some v → default_scope filters = filters.
Proof. intros Hv. unfold default_scope. by rewrite Hv. Qed.

Lemma default_scope_absent (filters : gmap string value) :
  filters !! "alive" = None →
  default_scope filters = <["alive" := VBool true]> filters.
Proof. intros Hv. unfold default_scope. by rewrite Hv. Qed.

Lemma default_scope_other (filters : gmap string value) (k : string) :
  k ≠ "alive" → default_scope filters !! k = filters !! k.
Proof.
  intros Hk. unfold default_scope.
  destruct (filters !! "alive"); [reflexivity |]. by rewrite lookup_insert_ne.
Qed.

Lemma default_scope_insert (filters : gmap string value) (k : string) (v : value) :
  k ≠ "alive" →
  default_scope (<[k := v]> filters) = <[k := v]> (default_scope filters).
Proof.
  intros Hk. unfold default_scope. rewrite lookup_insert_ne by done.
  destruct (filters !! "alive"); [reflexivity |]. by apply insert_insert_ne.
Qed.

Lemma valid_keys_default_scope (filters : gmap string value) :
  valid_keys filters ↔ valid_keys (default_scope filters).
Proof.
  split.
  - intros Hv. unfold default_scope. destruct (filters !! "alive"); [exact Hv |].
    apply valid_keys_insert; [by apply (bool_decide_unpack _) | exact Hv].
  - intros Hv k Hk. apply Hv.
    destruct (decide (k = "alive")) as [-> | Hne].
    + unfold default_scope. destruct (filters !! "alive") eqn:Ha; [by rewrite Ha |].
      rewrite lookup_insert_eq. by eexists.
    + by rewrite default_scope_other.
Qed.

Lemma selected_true (filters : gmap string value) (r : row) :
  selected filter_where filters r = true ↔
  ∀ k v, default_scope filters !! k = Some v →
         entry_holds filter_where (k, v) r = true.
Proof.
  unfold selected. rewrite forallb_forall. split.
  - intros H k v Hkv. apply (H (k, v)). apply list_elem_of_In.
    by apply elem_of_map_to_list.
  - intros H [k v] Hin. apply H. apply elem_of_map_to_list.
    by apply list_elem_of_In.
Qed.

(** A read that names no [alive] filter sees what the same read with
    [alive = True] sees. *)
Lemma selected_default_alive (filters : gmap string value) (r : row) :
  filters !! "alive" = None →
  selected filter_where filters r =
    selected filter_where (<["alive" := VBool true]> filters) r.
Proof.
  intros Hv. unfold selected. rewrite (default_scope_absent _ Hv).
  by rewrite (default_scope_given (<["alive" := VBool true]> filters) (VBool true))
    by apply lookup_insert_eq.
Qed.

Lemma selected_insert_count (filters : gmap string value) v (r : row) :
  selected filter_where (<["count" := v]> filters) r = selected filter_where filters r.
Proof.
  apply eq_true_iff_eq. rewrite !selected_true.
  rewrite default_scope_insert by done. split.
  - intros H k u Hk. destruct (decide (k = "count")) as [-> | Hne]; [done |].
    apply H. by rewrite lookup_insert_ne.
  - intros H k u Hk. destruct (decide (k = "count")) as [-> | Hne]; [done |].
    apply H. by rewrite lookup_insert_ne in Hk.
Qed.

(** [get_content] with recognised filters: the selected rows, cut to the
    value of [count]; the world is left as it is. *)
Lemma get_content_valid (filters : gmap string value) (w : world) :
  valid_keys filters →
  get_content filter_where filters w =
    (cut (filters !! "count")
         (List.filter (selected filter_where filters) (content w)), w).
Proof.
  intros Hv. unfold get_content.
  destruct (apply_filters_valid (map_to_list (default_scope filters)) (Query [] None))
    as (q & Hq & Hpass).
  { apply valid_keys_default_scope, valid_keys_Forall in Hv. by apply Forall_fmap in Hv. }
  unfold mbind, M_bind, lift, get_world. rewrite Hq. unfold db_select, cut.
  assert (List.filter (λ r, forallb (λ p, p r) (q_where q)) (content w) =
          List.filter (selected filter_where filters) (content w)) as ->.
  { apply List.filter_ext. intros r. apply (Hpass r). }
  assert (q_limit q = filters !! "count") as ->; [| done].
  rewrite <- (default_scope_other filters "count") by done.
  destruct (default_scope filters !! "count") as [v |] eqn:Hc.
  - apply (apply_filters_limit_present _ _ _ _ Hq).
    + apply NoDup_fst_map_to_list.
    + by apply elem_of_map_to_list.
  - rewrite (apply_filters_limit_absent _ _ _ Hq); [done |].
    intros Hin. apply list_elem_of_fmap in Hin as ([k v] & Hk & Hin).
    simpl in Hk. subst k. apply elem_of_map_to_list in Hin. congruence.
Qed.

(** [get_file] with recognised filters returns the first selected row. *)
Lemma get_file_valid (kwargs : gmap string value) (w : world) :
  valid_keys kwargs →
  get_file filter_where kwargs w =
    (Return (_process_entry <$>
       head (List.filter (selected filter_where kwargs) (content w))), w).
Proof.
  intros Hv. unfold get_file.
  assert (valid_keys (<["count" := VInt 1]> kwargs)) as Hv'.
  { apply valid_keys_insert; [| done]. unfold VALID_FILTERS. set_solver. }
  unfold mbind, M_bind, lift. rewrite (validate_filters_ok _ Hv').
  rewrite (get_content_valid _ _ Hv'). rewrite lookup_insert_eq. cbn [cut adapt].
  rewrite (List.filter_ext _ _ (selected_insert_count kwargs (VInt 1))).
  by destruct (List.filter _ _).
Qed.

Lemma process_entry_nonempty (r : row) : _process_entry r ≠ ∅.
Proof. unfold _process_entry. apply insert_non_empty. Qed.

(** [exists] with recognised filters: some row satisfies them and
    [alive = True]. *)
Lemma exists_valid (kwargs : gmap string value) (w : world) :
  valid_keys kwargs →
  exists_ filter_where kwargs w =
    (Return (existsb (selected filter_where (<["alive" := VBool true]> kwargs))
               (content w)), w).
Proof.
  intros Hv. unfold exists_. unfold mbind, M_bind.
  rewrite get_file_valid.
  2:{ apply valid_keys_insert; [| done]. unfold VALID_FILTERS. set_solver. }
  unfold mret, M_ret. f_equal. f_equal.
  induction (content w) as [| r rows IH]; [done |].
  cbn [List.filter existsb].
  destruct (selected _ _ r); cbn [head fmap option_fmap option_map orb].
  - apply bool_decide_eq_true_2, process_entry_nonempty.
  - apply IH.
Qed.

End SelectionFacts.

(** ** Filter validation *)

(** C8: [validate_filters] fails, and then with the [ContentException]
    'Invalid filter: <key>' naming an offending key, if and only if the
    mapping has a key outside {id, path, since, count, category, alive,
    aired, serve_path}; a mapping that only uses keys of this set passes. *)
Theorem validate_filters_closed_set (filters : gmap string value) :
  let known :=
    ["id"; "path"; "since"; "count"; "category"; "alive"; "aired"; "serve_path"] in
  ((∃ e, validate_filters filters = Raise e) ↔
   (∃ key, is_Some (filters !! key) ∧ key ∉ known)) ∧
  (validate_filters filters = Return () ↔
   (∀ key, is_Some (filters !! key) → key ∈ known)) ∧
  (∀ e, validate_filters filters = Raise e →
     ∃ key, is_Some (filters !! key) ∧ (key ∉ known) ∧
            e = ContentException ("Invalid filter: " +:+ key)).
Proof.
  intros known. change known with VALID_FILTERS. clear known.
  change (∀ key, is_Some (filters !! key) → key ∈ VALID_FILTERS)
    with (valid_keys filters).
  assert ((∃ key, is_Some (filters !! key) ∧ key ∉ VALID_FILTERS) ↔
          ¬ valid_keys filters) as Hbad.
  { split.
    - intros (key & Hsome & Hnot) Hv. by apply Hnot, Hv.
    - intros Hnv. rewrite valid_keys_Forall in Hnv.
      apply validate_keys_bad in Hnv as (k & Hin & Hnot & _).
      exists k. split; [| done].
      apply list_elem_of_fmap in Hin as ([k' v] & -> & Hin).
      apply elem_of_map_to_list in Hin. by exists v. }
  destruct (decide (Forall (λ k, k ∈ VALID_FILTERS) (map_to_list filters).*1))
    as [Hall | Hnall].
  - assert (valid_keys filters) as Hv by (by apply valid_keys_Forall).
    pose proof (validate_filters_ok _ Hv) as Hok. rewrite Hok.
    split_and!.
    + rewrite Hbad. split; [by intros [e ?] | done].
    + done.
    + by intros e ?.
  - assert (¬ valid_keys filters) as Hnv by (by rewrite valid_keys_Forall).
    destruct (validate_keys_bad _ Hnall) as (k & Hin & Hnot & Hraise).
    unfold validate_filters. rewrite Hraise.
    assert (is_Some (filters !! k)) as Hsome.
    { apply list_elem_of_fmap in Hin as ([k' v] & -> & Hin).
      apply elem_of_map_to_list in Hin. by exists v. }
    split_and!.
    + rewrite Hbad. split; [done | by eexists].
    + split; [done | by intros ?].
    + intros e [= <-]. by exists k.
Qed.

Section Claims.

Context {engine : PyRe}.
Variable clock : nat → Z.
Variable root_path : string.
Variable filter_where : string → value → row → bool.

(** ** The REGEXP function *)

(** C9: on two strings [regexp_operator] always returns a value to its
    caller.  When [expr] compiles the value is the boolean "the pattern
    matches somewhere in [item]" and nothing is logged; when it does not
    compile the value is [None], which is false as a truth value and as a
    WHERE condition, and one line is logged. *)
Theorem regexp_operator_never_raises (expr item : string) :
  (∃ v, (regexp_operator (VStr expr) (VStr item)).1 = Return v) ∧
  match re_compile expr with
  | inr rx =>
      regexp_operator (VStr expr) (VStr item) =
        (Return (VBool (re_search rx item)), []) ∧
      sql_regexp (VStr expr) (VStr item) = re_search rx item
  | inl msg =>
      regexp_operator (VStr expr) (VStr item) =
        (Return VNone, ["Error while using REGEXP operator: " +:+ msg]) ∧
      py_bool VNone = false ∧
      sql_regexp (VStr expr) (VStr item) = false
  end.
Proof.
  unfold sql_regexp, regexp_operator, re_compile_py, rx_search_py.
  destruct (re_compile expr) as [msg | rx]; cbn.
  - split; [by eexists | done].
  - split; [by eexists |]. split; [done |]. by destruct (re_search rx item).
Qed.

(** ** add_file without a serve_path *)

(** C10: when [params] has no key 'serve_path', [add_file] raises
    [KeyError('serve_path')], which is not a [ContentException], and the
    world (both tables, the clock readings) is exactly as before. *)
Theorem add_file_requires_serve_path
    (client : gmap string value) (path : value) (params : gmap string value)
    (w : world) :
  params !! "serve_path" = None →
  add_file clock root_path filter_where client path params w =
    (Raise (KeyError "serve_path"), w).
Proof.
  intros Hnone. unfold add_file, getitem. rewrite Hnone. reflexivity.
Qed.

End Claims.

Lemma add_file_requires_serve_path_witness :
  (<["path" := VStr "/srv/content/a.mp4"]> ∅ : gmap string value) !! "serve_path" = None ∧
  add_file Demo.clock Demo.root_path Demo.filter_where Demo.client
    (VStr "/srv/content/a.mp4") (<["path" := VStr "/srv/content/a.mp4"]> ∅) Demo.w0 =
    (Raise (KeyError "serve_path"), Demo.w0).
Proof.
  split; [reflexivity |].
  apply (add_file_requires_serve_path (engine := ReFragment.engine)).
  reflexivity.
Defined.

(** ** Filters of list_files *)

Section ListFilters.

Context {engine : PyRe}.
Variable filter_where : string → value → row → bool.

(** The dictionary [validate_list_filters] returns when it returns. *)
Lemma validate_list_filters_returns (filters filters' : gmap string value) :
  validate_list_filters filters = Return filters' →
  (∀ k, k ≠ "count" → filters' !! k = filters !! k) ∧
  filters' !! "count" =
    if bool_decide (is_Some (filters !! "serve_path") ∨ is_Some (filters !! "since"))
    then None
    else (λ c, py_min c (VInt MAX_LIST_COUNT)) <$> filters !! "count".
Proof.
  unfold validate_list_filters.
  set (f1 := if bool_decide _ then delete "count" filters else filters).
  set (f2 := match f1 !! "count" with
             | Some c => <["count" := py_min c (VInt MAX_LIST_COUNT)]> f1
             | None => f1
             end).
  intros Hret.
  assert (filters' = f2) as ->.
  { destruct (f2 !! "serve_path") as [sp |]; [| congruence].
    destruct (re_compile_py sp) as [rx | []]; congruence. }
  clear Hret. subst f2 f1. case_bool_decide as Hc.
  - rewrite lookup_delete_eq. split; [| by rewrite lookup_delete_eq].
    intros k Hk. by rewrite lookup_delete_ne.
  - destruct (filters !! "count") as [c |] eqn:Hcount; cbn [fmap option_fmap option_map].
    + rewrite lookup_insert_eq. split; [| done].
      intros k Hk. by rewrite lookup_insert_ne.
    + done.
Qed.

Lemma filter_condition_known (name : string) (v : value) :
  is_Some (filter_condition filter_where name v) → name ∈ VALID_FILTERS.
Proof.
  unfold filter_condition, VALID_FILTERS.
  destruct (String.eqb name "id") eqn:E1;
    [apply String.eqb_eq in E1 as ->; intros _; by apply (bool_decide_unpack _) |].
  destruct (String.eqb name "alive") eqn:E2;
    [apply String.eqb_eq in E2 as ->; intros _; by apply (bool_decide_unpack _) |].
  destruct (String.eqb name "serve_path") eqn:E3;
    [apply String.eqb_eq in E3 as ->; intros _; by apply (bool_decide_unpack _) |].
  case_bool_decide as Hin; [| by intros [? ?]]. intros _.
  repeat (apply elem_of_cons in Hin as [-> | Hin]; [by apply (bool_decide_unpack _) |]).
  by apply elem_of_nil in Hin.
Qed.

Lemma apply_filters_returns_known (l : list (string * value)) (q q' : query) :
  apply_filters filter_where l q = Return q' →
  Forall (λ kv, kv.1 ∈ VALID_FILTERS) l.
Proof.
  revert q. induction l as [| [k v] l IH]; intros q Hq; [constructor |].
  cbn [apply_filters] in Hq. unfold apply_filter in Hq.
  destruct (String.eqb k "count") eqn:Hc.
  - constructor; [| by eapply IH].
    apply String.eqb_eq in Hc. subst k. unfold VALID_FILTERS. set_solver.
  - destruct (filter_condition filter_where k v) as [p |] eqn:Hp; [| done].
    constructor; [| by eapply IH].
    apply (filter_condition_known k v). by rewrite Hp.
Qed.

(** When [get_content] returns, its filters were recognised ones. *)
Lemma get_content_returns_known (filters : gmap string value) (w w' : world) rows :
  get_content filter_where filters w = (Return rows, w') → valid_keys filters.
Proof.
  unfold get_content, mbind, M_bind, lift. intros Hget.
  destruct (apply_filters filter_where (map_to_list (default_scope filters))
              (Query [] None)) as [q | e] eqn:Hq; [| done].
  apply valid_keys_default_scope, valid_keys_Forall. apply Forall_fmap.
  by apply (apply_filters_returns_known _ _ _ Hq).
Qed.

Lemma cut_int_length (n : Z) (hits rows : list row) :
  0 ≤ n → cut (Some (VInt n)) hits = Return rows →
  (length rows ≤ Z.to_nat n)%nat.
Proof.
  intros Hn. cbn [cut adapt]. destruct (n <? 0) eqn:Hneg; [lia |].
  intros [= <-]. rewrite length_take. lia.
Qed.

(** C6: [list_files] merges the caller's filters over [{count: 100}]
    (every filter but [count] reaches the query as the caller gave it).
    With [serve_path] or [since] among them there is no [count] left and
    the result is every selected row; otherwise [count] is the smaller of
    the supplied (or default) value and 1000, and an integer count [c >= 0]
    bounds the result by [min c 1000] rows, so [count = 5000] gives at
    most 1000 rows. *)
Theorem list_files_count (kwargs : gmap string value) (w w' : world) (rows : list row) :
  list_files filter_where kwargs w = (Return rows, w') →
  ∃ filters,
    validate_list_filters (kwargs ∪ default_filters) = Return filters ∧
    w' = w ∧
    (∀ k, k ≠ "count" → filters !! k = kwargs !! k) ∧
    let hits := List.filter (selected filter_where filters) (content w) in
    if bool_decide (is_Some (kwargs !! "serve_path") ∨ is_Some (kwargs !! "since"))
    then filters !! "count" = None ∧ rows = _process_entry <$> hits
    else
      filters !! "count" =
        Some (py_min (default (VInt 100) (kwargs !! "count")) (VInt 1000)) ∧
      (kwargs !! "count" = None → (length rows ≤ 100)%nat) ∧
      (∀ c, kwargs !! "count" = Some (VInt c) → 0 ≤ c →
            (length rows ≤ Z.to_nat (Z.min c 1000))%nat ∧ (length rows ≤ 1000)%nat).
Proof.
  unfold list_files, mbind, M_bind, lift. intros Hlist.
  destruct (validate_list_filters (kwargs ∪ default_filters)) as [filters | e] eqn:Hval;
    [| done].
  destruct (get_content filter_where filters w) as [[rows0 | e] w1] eqn:Hget; [| done].
  injection Hlist as <- <-.
  pose proof (get_content_returns_known _ _ _ _ Hget) as Hv.
  rewrite (get_content_valid _ _ _ Hv) in Hget. injection Hget as Hcut <-.
  destruct (validate_list_filters_returns _ _ Hval) as [Hother Hcount].
  assert (∀ k, k ≠ "count" → (kwargs ∪ default_filters) !! k = kwargs !! k) as Hmerge.
  { intros k Hk. rewrite lookup_union. unfold default_filters.
    rewrite lookup_insert_ne, lookup_empty by done. by destruct (kwargs !! k). }
  assert ((kwargs ∪ default_filters) !! "count" =
          Some (default (VInt 100) (kwargs !! "count"))) as Hmc.
  { rewrite lookup_union. unfold default_filters. rewrite lookup_insert_eq.
    by destruct (kwargs !! "count"). }
  rewrite !Hmerge, Hmc in Hcount by done.
  exists filters. split_and!; [done | done | |].
  { intros k Hk. by rewrite Hother, Hmerge. }
  cbn zeta. case_bool_decide as Hsel.
  - split; [done |]. rewrite Hcount in Hcut. by injection Hcut as <-.
  - cbn [fmap option_fmap option_map] in Hcount. split; [done |].
    rewrite Hcount in Hcut. split.
    + intros Hnone. rewrite Hnone in Hcut. cbn in Hcut. injection Hcut as <-.
      rewrite length_fmap, length_take. lia.
    + intros c Hc Hpos. rewrite Hc in Hcut. rewrite length_fmap.
      change (default (VInt 100) (Some (VInt c))) with (VInt c) in Hcut.
      unfold py_min, py_lt, MAX_LIST_COUNT in Hcut.
      destruct (1000 <? c) eqn:Hbig; apply cut_int_length in Hcut; lia.
Qed.

(** C7 (amended): with a string [serve_path], [validate_list_filters]
    raises [ValueError] -- not the [ContentException] of the other checks,
    with the message 'Invalid regular expression for serve_path: <pattern>'
    -- when the pattern does not compile, and returns when it does. *)
Theorem serve_path_pattern_checked (filters : gmap string value) (p : string) :
  filters !! "serve_path" = Some (VStr p) →
  match re_compile p with
  | inl _ =>
      validate_list_filters filters =
        Raise (ValueError ("Invalid regular expression for serve_path: " +:+ p))
  | inr _ => ∃ filters', validate_list_filters filters = Return filters'
  end.
Proof.
  intros Hsp. unfold validate_list_filters.
  rewrite bool_decide_eq_true_2 by (left; by rewrite Hsp).
  rewrite lookup_delete_eq, lookup_delete_ne, Hsp by done.
  cbn [re_compile_py py_str]. destruct (re_compile p); [done | by eexists].
Qed.

End ListFilters.

(** C7, as worded, fails: the pattern [*] does not compile and the error
    is a [ValueError], not a [ContentException]. *)
Lemma invalid_pattern_is_not_content_exception :
  re_compile (PyRe := ReFragment.engine) "*" = inl "nothing to repeat" ∧
  validate_list_filters (engine := ReFragment.engine) (<["serve_path" := VStr "*"]> ∅) =
    Raise (ValueError "Invalid regular expression for serve_path: *") ∧
  ¬ ∃ msg, validate_list_filters (engine := ReFragment.engine)
             (<["serve_path" := VStr "*"]> ∅) = Raise (ContentException msg).
Proof.
  split; [reflexivity |]. split; [reflexivity |]. by intros [msg Hmsg].
Qed.

Lemma serve_path_pattern_checked_witness :
  (<["serve_path" := VStr "/videos/.*"]> ∅ : gmap string value) !! "serve_path" =
    Some (VStr "/videos/.*") ∧
  ∃ filters', validate_list_filters (engine := ReFragment.engine)
                (<["serve_path" := VStr "/videos/.*"]> ∅) = Return filters'.
Proof.
  split; [reflexivity |].
  apply (serve_path_pattern_checked (engine := ReFragment.engine)
           (<["serve_path" := VStr "/videos/.*"]> ∅) "/videos/.*").
  reflexivity.
Defined.

Lemma list_files_count_witness :
  Demo.list (<["count" := VInt 5000]> ∅) Demo.w1 =
    (Return (Demo.rows_of (Demo.list (<["count" := VInt 5000]> ∅)) Demo.w1), Demo.w1) ∧
  (length (Demo.rows_of (Demo.list (<["count" := VInt 5000]> ∅)) Demo.w1) ≤ 1000)%nat.
Proof.
  assert (Demo.list (<["count" := VInt 5000]> ∅) Demo.w1 =
          (Return (Demo.rows_of (Demo.list (<["count" := VInt 5000]> ∅)) Demo.w1), Demo.w1))
    as Hrun by (vm_compute; reflexivity).
  split; [exact Hrun |].
  destruct (list_files_count Demo.filter_where _ _ _ _ Hrun) as (filters & _ & _ & _ & Hcase).
  cbn zeta in Hcase. rewrite bool_decide_eq_false_2 in Hcase.
  - destruct Hcase as (_ & _ & Hbound). apply (Hbound 5000); [reflexivity | lia].
  - intros [[v Hv] | [v Hv]]; discriminate Hv.
Defined.

(** ** Existence checks *)

Section Existence.

Context {engine : PyRe}.
Variable clock : nat → Z.
Variable root_path : string.
Variable filter_where : string → value → row → bool.

(** The message of the [ContentException] that reports a missing id. *)
Definition not_found (id : Z) : exn :=
  ContentException ("File with id " +:+ pretty id +:+ " does not exist.").

(** Some row of the table has this id and is alive. *)
Definition has_alive_id (id : Z) (w : world) : Prop :=
  ∃ r, r ∈ content w ∧ column r "id" = VInt id ∧ column r "alive" = VInt 1.

(** Some row of the table has this id, alive or not. *)
Definition has_id (id : Z) (w : world) : Prop :=
  ∃ r, r ∈ content w ∧ column r "id" = VInt id.

Lemma existsb_ext {A : Type} (f g : A → bool) (l : list A) :
  (∀ x, f x = g x) → existsb f l = existsb g l.
Proof. intros Hfg. induction l as [| x l IH]; [done |]. cbn. by rewrite Hfg, IH. Qed.

Lemma sql_eq_int (v : value) (n : Z) : sql_eq v (VInt n) = true ↔ v = VInt n.
Proof.
  destruct v as [| b | m | s]; cbn; try (split; [discriminate | discriminate]).
  rewrite Z.eqb_eq. split; congruence.
Qed.

Lemma selected_id_alive (id : Z) (r : row) :
  selected filter_where (<["alive" := VBool true]> (<["id" := VInt id]> ∅)) r =
    sql_eq (column r "id") (VInt id) && is_alive r.
Proof.
  apply eq_true_iff_eq. rewrite selected_true, andb_true_iff.
  rewrite (default_scope_given _ (VBool true)) by apply lookup_insert_eq. split.
  - intros H. split.
    + apply (H "id" (VInt id)). by simplify_map_eq.
    + apply (H "alive" (VBool true)). by simplify_map_eq.
  - intros [Hid Hal] k v Hk.
    destruct (decide (k = "alive")) as [-> | Hna]; [by simplify_map_eq |].
    destruct (decide (k = "id")) as [-> | Hni]; [by simplify_map_eq |].
    by simplify_map_eq.
Qed.

Lemma exists_id (id : Z) (w : world) :
  exists_ filter_where (<["id" := VInt id]> ∅) w =
    (Return (existsb (λ r, sql_eq (column r "id") (VInt id) && is_alive r) (content w)), w).
Proof.
  rewrite exists_valid.
  - f_equal. f_equal. apply existsb_ext, selected_id_alive.
  - apply valid_keys_insert; [by apply (bool_decide_unpack _) | apply valid_keys_empty].
Qed.

Lemma existsb_id_alive (id : Z) (w : world) :
  existsb (λ r, sql_eq (column r "id") (VInt id) && is_alive r) (content w) = true ↔
  has_alive_id id w.
Proof.
  rewrite existsb_exists. unfold has_alive_id, is_alive. split.
  - intros (r & Hin & Hr). apply andb_true_iff in Hr as [Hid Hal].
    exists r. rewrite list_elem_of_In. by rewrite <- !sql_eq_int.
  - intros (r & Hin & Hid & Hal). exists r. rewrite <- list_elem_of_In.
    split; [done |]. apply andb_true_iff. by rewrite !sql_eq_int.
Qed.

Lemma update_file_no_alive (client : gmap string value) id params (w : world) :
  ¬ has_alive_id id w →
  update_file clock root_path filter_where client id params w = (Raise (not_found id), w).
Proof.
  intros Hno. unfold update_file, mbind, M_bind. rewrite exists_id.
  rewrite <- existsb_id_alive in Hno. apply not_true_is_false in Hno. by rewrite Hno.
Qed.

Lemma delete_file_no_alive (client : gmap string value) id (w : world) :
  ¬ has_alive_id id w →
  delete_file clock filter_where client id w = (Raise (not_found id), w).
Proof.
  intros Hno. unfold delete_file, mbind, M_bind. rewrite exists_id.
  rewrite <- existsb_id_alive in Hno. apply not_true_is_false in Hno. by rewrite Hno.
Qed.

(** [m] never raises the exception [bad]. *)
Definition avoids {A : Type} (bad : exn) (m : M A) : Prop :=
  ∀ w, (m w).1 ≠ Raise bad.

Lemma avoids_ret {A : Type} bad (a : A) : avoids bad (mret a).
Proof. by intros w. Qed.

Lemma avoids_raise {A : Type} bad e : e ≠ bad → avoids bad (raise (A := A) e).
Proof. intros Hne w. cbn. congruence. Qed.

Lemma avoids_bind {A B : Type} bad (m : M A) (f : A → M B) :
  avoids bad m → (∀ a, avoids bad (f a)) → avoids bad (m ≫= f).
Proof.
  intros Hm Hf w. unfold mbind, M_bind. specialize (Hm w).
  destruct (m w) as [[a | e] w']; [apply Hf |].
  cbn in *. intros [= ->]. by apply Hm.
Qed.

Lemma avoids_get_world bad : avoids bad get_world.
Proof. by intros w. Qed.

Lemma avoids_modify_world bad f : avoids bad (modify_world f).
Proof. by intros w. Qed.

Lemma avoids_time_time bad : avoids bad (time_time clock).
Proof. by intros w. Qed.

Lemma avoids_getitem bad d k : bad ≠ KeyError k → avoids bad (getitem d k).
Proof.
  intros Hne. unfold getitem. destruct (d !! k); [apply avoids_ret |].
  by apply avoids_raise.
Qed.

(** A [ContentException] whose message starts with the letter F, as the
    two messages 'File with id ...' and 'File at serve_path ...' do. *)
Definition file_error (rest : string) : exn := ContentException (String "F" rest).

Lemma avoids_getsize rest path : avoids (file_error rest) (getsize path).
Proof.
  unfold getsize. destruct path; try by apply avoids_raise.
  apply avoids_bind; [apply avoids_get_world |]. intros w.
  destruct (fs w !! s); [apply avoids_ret | by apply avoids_raise].
Qed.

Lemma avoids_validate_params rest params :
  avoids (file_error rest) (_validate_params root_path params).
Proof.
  unfold _validate_params. destruct (params !! "path") as [path |]; [| apply avoids_ret].
  unfold _validate_path, file_error.
  destruct (negb (py_bool path)); [by apply avoids_raise |].
  destruct path as [| b | n | p]; try by apply avoids_raise.
  destruct (negb (startswith root_path p)); [by apply avoids_raise |].
  apply avoids_bind.
  { unfold isfile. apply avoids_bind; [apply avoids_get_world |].
    intros w. apply avoids_ret. }
  intros there. destruct (negb there); [by apply avoids_raise | apply avoids_ret].
Qed.

Lemma avoids_update_content rest data : avoids (file_error rest) (update_content data).
Proof.
  unfold update_content, db_update_content.
  destruct (_ !! "id"); [apply avoids_modify_world | by apply avoids_raise].
Qed.

Lemma avoids_update_file_body rest id data :
  avoids (file_error rest) (_update_file clock id data).
Proof.
  unfold _update_file. apply avoids_bind.
  { destruct (_ !! "path").
    - apply avoids_bind; [apply avoids_getsize | intros; apply avoids_ret].
    - apply avoids_ret. }
  intros d1. apply avoids_bind.
  { destruct (existsb _ _).
    - apply avoids_bind; [apply avoids_time_time | intros; apply avoids_ret].
    - apply avoids_ret. }
  intros d2. apply avoids_bind; [apply avoids_update_content | intros; apply avoids_ret].
Qed.

Lemma avoids_record_action bad fid name act ap ts :
  avoids bad (record_action clock fid name act ap ts).
Proof.
  unfold record_action. apply avoids_bind.
  - destruct ts as [t |]; [destruct (t =? 0) |]; by intros w.
  - intros t w. done.
Qed.

Lemma avoids_get_file_id bad i :
  avoids bad (get_file filter_where (<["id" := VInt i]> ∅)).
Proof.
  intros w. rewrite get_file_valid; [done |].
  apply valid_keys_insert; [by apply (bool_decide_unpack _) | apply valid_keys_empty].
Qed.

Lemma update_file_alive (client : gmap string value) id params (w : world) :
  has_alive_id id w →
  (update_file clock root_path filter_where client id params w).1 ≠ Raise (not_found id).
Proof.
  intros Hyes. unfold update_file.
  unfold mbind at 1. unfold M_bind at 1. rewrite exists_id.
  apply existsb_id_alive in Hyes. rewrite Hyes. cbn [negb].
  revert w Hyes. intros w _. revert w.
  change (avoids (file_error ("ile with id " +:+ pretty id +:+ " does not exist."))
    (_validate_params root_path params;;
     params' ← _update_file clock id params;
     name ← getitem client "name";
     record_action clock id name "update" (join ", " (map_to_list params').*1) None;;
     get_file filter_where (<["id" := VInt id]> ∅))).
  apply avoids_bind; [apply avoids_validate_params | intros _].
  apply avoids_bind; [apply avoids_update_file_body | intros params'].
  apply avoids_bind; [by apply avoids_getitem | intros name].
  apply avoids_bind; [apply avoids_record_action | intros _].
  apply avoids_get_file_id.
Qed.

Lemma delete_file_alive (client : gmap string value) id (w : world) :
  has_alive_id id w →
  (delete_file clock filter_where client id w).1 ≠ Raise (not_found id).
Proof.
  intros Hyes. unfold delete_file.
  unfold mbind at 1. unfold M_bind at 1. rewrite exists_id.
  apply existsb_id_alive in Hyes. rewrite Hyes. cbn [negb].
  revert w Hyes. intros w _. revert w.
  change (avoids (file_error ("ile with id " +:+ pretty id +:+ " does not exist."))
    (_delete_file clock id;;
     name ← getitem client "name";
     record_action clock id name "delete" "" None)).
  apply avoids_bind.
  { unfold _delete_file. apply avoids_bind; [apply avoids_time_time | intros now].
    apply avoids_update_content. }
  intros _. apply avoids_bind; [by apply avoids_getitem | intros name].
  apply avoids_record_action.
Qed.

(** C2 (amended): [update_file] and [delete_file] raise the 'File with id
    ... does not exist.' error exactly when the table has no alive row
    with that id, and then leave the world as it is.  A soft-deleted row
    is still in the table, yet updating or deleting it raises the error. *)
Theorem not_found_iff_no_alive_entry
    (client : gmap string value) (id : Z) (params : gmap string value) (w : world) :
  ((update_file clock root_path filter_where client id params w).1 = Raise (not_found id)
     ↔ ¬ has_alive_id id w) ∧
  ((delete_file clock filter_where client id w).1 = Raise (not_found id)
     ↔ ¬ has_alive_id id w) ∧
  (¬ has_alive_id id w →
     update_file clock root_path filter_where client id params w = (Raise (not_found id), w) ∧
     delete_file clock filter_where client id w = (Raise (not_found id), w)).
Proof.
  split_and!.
  - split.
    + intros Hraise Hyes. by apply (update_file_alive client id params w Hyes).
    + intros Hno. by rewrite update_file_no_alive.
  - split.
    + intros Hraise Hyes. by apply (delete_file_alive client id w Hyes).
    + intros Hno. by rewrite delete_file_no_alive.
  - intros Hno. split; [by apply update_file_no_alive | by apply delete_file_no_alive].
Qed.

End Existence.

(** C2, as worded, fails: in [Demo.w2] the row with id 1 is still in the
    table (soft-deleted), and both operations report it as missing. *)
Lemma soft_deleted_entry_is_not_found :
  has_id 1 Demo.w2 ∧
  Demo.delete 1 Demo.w2 =
    (Raise (ContentException "File with id 1 does not exist."), Demo.w2) ∧
  Demo.update 1 (<["category" := VStr "news"]> ∅) Demo.w2 =
    (Raise (ContentException "File with id 1 does not exist."), Demo.w2).
Proof.
  split_and!.
  - eexists. split; [apply list_elem_of_here |]. vm_compute. reflexivity.
  - vm_compute. reflexivity.
  - vm_compute. reflexivity.
Qed.

(** ** The duplicate check of add_file *)

Section Duplicates.

Context {engine : PyRe}.
Variable clock : nat → Z.
Variable root_path : string.
Variable filter_where : string → value → row → bool.

(** The message of the [ContentException] that reports a taken serve
    path. *)
Definition duplicate (serve_path : value) : exn :=
  ContentException ("File at serve_path " +:+ py_str serve_path +:+ " already exists.").

(** The row is alive and the pattern [sp] is found in its serve path. *)
Definition blocks (sp : value) (r : row) : bool :=
  sql_regexp (adapt sp) (column r "serve_path") && is_alive r.

Lemma selected_serve_path_alive (sp : value) (r : row) :
  selected filter_where (<["alive" := VBool true]> (<["serve_path" := sp]> ∅)) r =
    blocks sp r.
Proof.
  apply eq_true_iff_eq. unfold blocks. rewrite selected_true, andb_true_iff.
  rewrite (default_scope_given _ (VBool true)) by apply lookup_insert_eq. split.
  - intros H. split.
    + apply (H "serve_path" sp). by simplify_map_eq.
    + apply (H "alive" (VBool true)). by simplify_map_eq.
  - intros [Hsp Hal] k v Hk.
    destruct (decide (k = "alive")) as [-> | Hna]; [by simplify_map_eq |].
    destruct (decide (k = "serve_path")) as [-> | Hni]; [by simplify_map_eq |].
    by simplify_map_eq.
Qed.

Lemma exists_serve_path (sp : value) (w : world) :
  exists_ filter_where (<["serve_path" := sp]> ∅) w =
    (Return (existsb (blocks sp) (content w)), w).
Proof.
  rewrite exists_valid.
  - f_equal. f_equal. apply existsb_ext, selected_serve_path_alive.
  - apply valid_keys_insert; [by apply (bool_decide_unpack _) | apply valid_keys_empty].
Qed.

Lemma avoids_add_content rest data : avoids (file_error rest) (add_content data).
Proof.
  unfold add_content, db_insert_content.
  apply avoids_bind; [apply avoids_get_world | intros w].
  assert (∀ i, avoids (file_error rest)
    (modify_world (set_content (content w ++
       [<["id" := VInt i]> (adapt <$> process_content_data data)]));; mret i)) as Hstore.
  { intros i. apply avoids_bind; [apply avoids_modify_world | intros; apply avoids_ret]. }
  destruct (_ !! "id") as [[| b | i | s] |];
    try (by apply avoids_raise); try apply Hstore.
  case_bool_decide; [by apply avoids_raise | apply Hstore].
Qed.

(** What [add_file] does in fact: it reports a duplicate exactly when the
    new serve path, read as a pattern, is found in the serve path of some
    alive row. *)
Lemma add_file_duplicate_iff
    (client : gmap string value) (path : value) (params : gmap string value)
    (sp : value) (w : world) :
  params !! "serve_path" = Some sp →
  (add_file clock root_path filter_where client path params w).1 = Raise (duplicate sp)
  ↔ ∃ r, r ∈ content w ∧ blocks sp r = true.
Proof.
  intros Hsp. unfold add_file, getitem. rewrite Hsp.
  unfold mbind at 1. unfold M_bind at 1. cbn [mret M_ret].
  unfold mbind at 1. unfold M_bind at 1. rewrite exists_serve_path.
  destruct (existsb (blocks sp) (content w)) eqn:Hex.
  - split; [| done]. intros _. apply existsb_exists in Hex as (r & Hin & Hr).
    exists r. by rewrite list_elem_of_In.
  - split.
    + intros Hraise. exfalso. revert Hraise. revert w Hex. intros w _. revert w.
      change (avoids (file_error ("ile at serve_path " +:+ py_str sp +:+ " already exists."))
        (_validate_params root_path params;;
         id ← _add_file clock path params;
         name ← getitem client "name";
         record_action clock id name "add" "" None;;
         get_file filter_where (<["id" := VInt id]> ∅))).
      apply avoids_bind; [apply avoids_validate_params | intros _].
      apply avoids_bind.
      { unfold _add_file. apply avoids_bind; [apply avoids_time_time | intros now].
        apply avoids_bind; [apply avoids_getsize | intros size].
        apply avoids_add_content. }
      intros id. apply avoids_bind; [by apply avoids_getitem | intros name].
      apply avoids_bind; [apply avoids_record_action | intros _].
      apply avoids_get_file_id.
    + intros (r & Hin & Hr). apply not_true_iff_false in Hex. destruct Hex.
      apply existsb_exists. exists r. by rewrite <- list_elem_of_In.
Qed.

End Duplicates.

(** C1: the duplicate check does not compare serve paths for equality.
    In [Demo.w1] the only entry is at /videos/ab, and adding /videos/a is
    refused as a duplicate; in [Demo.w3] an alive entry is at /videos/a+b,
    and adding /videos/a+b again goes through. *)
Theorem duplicate_check_reads_serve_path_as_pattern :
  Forall (λ r, column r "serve_path" ≠ VStr "/videos/a") (content Demo.w1) ∧
  Demo.add "/srv/content/b.mp4" "/videos/a" Demo.w1 =
    (Raise (ContentException "File at serve_path /videos/a already exists."), Demo.w1) ∧
  Exists (λ r, column r "serve_path" = VStr "/videos/a+b" ∧ column r "alive" = VInt 1)
    (content Demo.w3) ∧
  (let again := Demo.add "/srv/content/b.mp4" "/videos/a+b" in
   (again Demo.w3).1 = Return (Some (Demo.entry_of again Demo.w3)) ∧
   column (Demo.entry_of again Demo.w3) "serve_path" = VStr "/videos/a+b" ∧
   column (Demo.entry_of again Demo.w3) "id" = VInt 2).
Proof.
  split_and!.
  - apply (bool_decide_unpack _). vm_compute. reflexivity.
  - vm_compute. reflexivity.
  - apply (bool_decide_unpack _). vm_compute. reflexivity.
  - cbn zeta. split_and!; vm_compute; reflexivity.
Qed.

(** ** Effects of the operations on the two tables *)

Section Effects.

Context {engine : PyRe}.
Variable clock : nat → Z.
Variable root_path : string.
Variable filter_where : string → value → row → bool.

(** What [UPDATE content SET ... WHERE id = :id] makes of a row. *)
Definition updated (vals : gmap string value) (id : Z) (r : row) : row :=
  if sql_eq (column r "id") (VInt id) then vals ∪ r else r.

(** The values [update_content] and [add_content] bind for [data]. *)
Definition bound (data : gmap string value) : gmap string value :=
  adapt <$> process_content_data data.

Lemma bind_returns {A B : Type} (m : M A) (f : A → M B) (w w' : world) (b : B) :
  (m ≫= f) w = (Return b, w') →
  ∃ a w1, m w = (Return a, w1) ∧ f a w1 = (Return b, w').
Proof.
  unfold mbind, M_bind. destruct (m w) as [[a | e] w1]; [| done].
  intros Hf. by exists a, w1.
Qed.

Lemma bound_lookup (data : gmap string value) (k : string) :
  bound data !! k = if bool_decide (k ∈ COLS) then adapt <$> data !! k else None.
Proof.
  unfold bound, process_content_data, strip_extra. rewrite lookup_fmap.
  case_bool_decide as Hk.
  - destruct (data !! k) as [v |] eqn:Hv.
    + by rewrite (map_lookup_filter_Some_2 _ _ _ v).
    + rewrite map_lookup_filter_None_2; [done | by left].
  - rewrite map_lookup_filter_None_2; [done |]. right. intros v _. exact Hk.
Qed.

Lemma column_id_row_id (r : row) (id : Z) : column r "id" = VInt id ↔ row_id r = Some id.
Proof.
  unfold column, row_id. destruct (r !! "id") as [[| b | n | s] |]; cbn;
    split; congruence.
Qed.

Lemma validate_params_world (params : gmap string value) (w : world) :
  (_validate_params root_path params w).2 = w.
Proof.
  unfold _validate_params. destruct (params !! "path") as [path |]; [| done].
  unfold _validate_path. destruct (negb (py_bool path)); [done |].
  destruct path as [| b | n | p]; try done.
  destruct (negb (startswith root_path p)); [done |].
  unfold isfile, get_world, mbind, M_bind, mret, M_ret, raise. cbn.
  destruct (fs w !! p) as [e |]; [by destruct (st_isfile e) | done].
Qed.

(** A successful [update_content] with an integer id rewrites the rows
    that have this id, in place. *)
Lemma update_content_id (data : gmap string value) (id : Z) (w : world) :
  data !! "id" = Some (VInt id) →
  update_content data w =
    (Return (), set_content (updated (bound data) id <$> content w) w).
Proof.
  intros Hid. unfold update_content, db_update_content. fold (bound data).
  rewrite bound_lookup, Hid, bool_decide_eq_true_2 by (by apply (bool_decide_unpack _)).
  reflexivity.
Qed.

Lemma delete_file_returns (client : gmap string value) (id : Z) (w w' : world) :
  delete_file clock filter_where client id w = (Return (), w') →
  has_alive_id id w ∧
  ∃ name, client !! "name" = Some name ∧
    w' = World
      (updated (bound (<["modified" := VInt (clock (ticks w))]>
                 (<["alive" := VBool false]> (<["id" := VInt id]> ∅)))) id <$> content w)
      (history w ++ [ActionRecord id name "delete" "" (clock (S (ticks w)))])
      (S (S (ticks w))) (fs w).
Proof.
  unfold delete_file. intros Hrun.
  apply bind_returns in Hrun as (found & w1 & Hex & Hrun).
  rewrite (exists_id filter_where id w) in Hex. injection Hex as <- <-.
  destruct (existsb _ _) eqn:Hfound; [| done]. cbn [negb] in Hrun.
  split; [by apply existsb_id_alive |].
  apply bind_returns in Hrun as ([] & w1 & Hdel & Hrun).
  unfold _delete_file in Hdel.
  apply bind_returns in Hdel as (now & w2 & Htime & Hdel).
  injection Htime as <- <-.
  rewrite (update_content_id _ id) in Hdel
    by (by rewrite lookup_insert_ne, lookup_insert_ne, lookup_insert_eq).
  injection Hdel as <-.
  apply bind_returns in Hrun as (name & w3 & Hname & Hrun).
  unfold getitem in Hname. destruct (client !! "name") as [nm |] eqn:Hnm; [| done].
  injection Hname as <- <-. exists nm. split; [done |].
  unfold record_action in Hrun.
  apply bind_returns in Hrun as (ts & w4 & Hts & Hrun).
  injection Hts as <- <-. by injection Hrun as <-.
Qed.

Lemma filter_all {A : Type} (f : A → bool) (l : list A) :
  (∀ x, f x = true) → List.filter f l = l.
Proof. intros Hf. induction l as [| x l IH]; [done |]. cbn. by rewrite Hf, IH. Qed.

Lemma filter_none_fmap {A : Type} (f : A → bool) (g : A → A) (l : list A) :
  (∀ x, f (g x) = false) → List.filter f (g <$> l) = [].
Proof. intros Hf. induction l as [| x l IH]; [done |]. cbn. by rewrite Hf. Qed.

Lemma head_filter_fmap {A : Type} (f : A → bool) (g : A → A) (l : list A) :
  (∀ x, f (g x) = f x) →
  head (List.filter f (g <$> l)) = g <$> head (List.filter f l).
Proof.
  intros Hf. induction l as [| x l IH]; [done |]. cbn. rewrite Hf.
  by destruct (f x).
Qed.

Lemma head_filter_exists {A : Type} (f : A → bool) (l : list A) :
  (∃ x, x ∈ l ∧ f x = true) → ∃ y, head (List.filter f l) = Some y ∧ f y = true.
Proof.
  intros (x & Hin & Hx). induction l as [| z l IH]; [by apply elem_of_nil in Hin |].
  cbn. destruct (f z) eqn:Hz; [by exists z |].
  apply IH. apply elem_of_cons in Hin as [-> | Hin]; [congruence | done].
Qed.

(** [get_file(id=id)] names no [alive] filter: it sees the alive rows with
    the id. *)
Lemma selected_id (id : Z) (r : row) :
  selected filter_where (<["id" := VInt id]> ∅) r =
    sql_eq (column r "id") (VInt id) && is_alive r.
Proof.
  rewrite selected_default_alive by reflexivity. apply selected_id_alive.
Qed.

Lemma get_file_id (id : Z) (w : world) :
  get_file filter_where (<["id" := VInt id]> ∅) w =
    (Return (_process_entry <$>
       head (List.filter (λ r, sql_eq (column r "id") (VInt id) && is_alive r)
               (content w))), w).
Proof.
  rewrite get_file_valid.
  - by rewrite (List.filter_ext _ _ (selected_id id)).
  - apply valid_keys_insert; [by apply (bool_decide_unpack _) | apply valid_keys_empty].
Qed.

Lemma get_file_id_alive (id : Z) (w : world) :
  get_file filter_where (<["alive" := VBool true]> (<["id" := VInt id]> ∅)) w =
    (Return (_process_entry <$>
       head (List.filter (λ r, sql_eq (column r "id") (VInt id) && is_alive r)
               (content w))), w).
Proof.
  rewrite get_file_valid.
  - by rewrite (List.filter_ext _ _ (selected_id_alive filter_where id)).
  - apply valid_keys_insert; [by apply (bool_decide_unpack _) |].
    apply valid_keys_insert; [by apply (bool_decide_unpack _) | apply valid_keys_empty].
Qed.

Lemma head_filter_holds {A : Type} (f : A → bool) (l : list A) (x : A) :
  head (List.filter f l) = Some x → f x = true.
Proof.
  induction l as [| z l IH]; [discriminate |].
  cbn [List.filter]. destruct (f z) eqn:Hz; [| exact IH].
  by intros [= <-].
Qed.

(** Whatever [get_file(id=id)] returns carries the id. *)
Lemma get_file_id_entry (id : Z) (w w' : world) (entry : row) :
  get_file filter_where (<["id" := VInt id]> ∅) w = (Return (Some entry), w') →
  column entry "id" = VInt id.
Proof.
  rewrite get_file_id. intros Hget. injection Hget as Hres _.
  destruct (head _) as [r |] eqn:Hhead; [| discriminate Hres].
  injection Hres as <-. apply head_filter_holds in Hhead.
  apply andb_true_iff in Hhead as [Hid _]. apply sql_eq_int in Hid.
  unfold _process_entry, column. rewrite lookup_insert_ne by done. exact Hid.
Qed.

Lemma selected_id_retired (id : Z) (r : row) :
  selected filter_where (<["alive" := VBool false]> (<["id" := VInt id]> ∅)) r =
    sql_eq (column r "id") (VInt id) && sql_eq (column r "alive") (VInt 0).
Proof.
  apply eq_true_iff_eq. rewrite selected_true, andb_true_iff.
  rewrite (default_scope_given _ (VBool false)) by apply lookup_insert_eq. split.
  - intros H. split.
    + apply (H "id" (VInt id)). by simplify_map_eq.
    + apply (H "alive" (VBool false)). by simplify_map_eq.
  - intros [Hid Hal] k v Hk.
    destruct (decide (k = "alive")) as [-> | Hna]; [by simplify_map_eq |].
    destruct (decide (k = "id")) as [-> | Hni]; [by simplify_map_eq |].
    by simplify_map_eq.
Qed.

Lemma get_file_id_retired (id : Z) (w : world) :
  get_file filter_where (<["alive" := VBool false]> (<["id" := VInt id]> ∅)) w =
    (Return (_process_entry <$>
       head (List.filter
               (λ r, sql_eq (column r "id") (VInt id) && sql_eq (column r "alive") (VInt 0))
               (content w))), w).
Proof.
  rewrite get_file_valid.
  - by rewrite (List.filter_ext _ _ (selected_id_retired id)).
  - apply valid_keys_insert; [by apply (bool_decide_unpack _) |].
    apply valid_keys_insert; [by apply (bool_decide_unpack _) | apply valid_keys_empty].
Qed.

(** [list_files()] without filters: the first 100 alive rows of the
    table. *)
Lemma list_files_default (w : world) :
  list_files filter_where ∅ w =
    (Return (_process_entry <$> take 100 (List.filter is_alive (content w))), w).
Proof.
  unfold list_files. rewrite (left_id_L ∅ (∪)).
  assert (validate_list_filters default_filters = Return default_filters) as Hval.
  { vm_compute. reflexivity. }
  unfold mbind, M_bind, lift. rewrite Hval.
  rewrite get_content_valid.
  2:{ apply valid_keys_insert; [by apply (bool_decide_unpack _) | apply valid_keys_empty]. }
  unfold default_filters at 1. rewrite lookup_insert_eq. cbn [cut adapt].
  assert (∀ r, selected filter_where default_filters r = is_alive r) as Hsel.
  { intros r. unfold default_filters. rewrite selected_insert_count.
    apply eq_true_iff_eq. rewrite selected_true.
    rewrite default_scope_absent by reflexivity. split.
    - intros H. apply (H "alive" (VBool true)). apply lookup_insert_eq.
    - intros Hal k v Hk.
      destruct (decide (k = "alive")) as [-> | Hna].
      + rewrite lookup_insert_eq in Hk. injection Hk as <-. exact Hal.
      + rewrite lookup_insert_ne, lookup_empty in Hk by done. discriminate Hk. }
  by rewrite (List.filter_ext _ _ Hsel).
Qed.

(** The row as [delete_file] leaves it. *)
Lemma retired_row (id now : Z) (r : row) :
  let vals := bound (<["modified" := VInt now]>
                (<["alive" := VBool false]> (<["id" := VInt id]> ∅))) in
  column r "id" = VInt id →
  column (vals ∪ r) "alive" = VInt 0 ∧
  column (vals ∪ r) "modified" = VInt now ∧
  column (vals ∪ r) "id" = VInt id ∧
  ∀ k, k ≠ "alive" → k ≠ "modified" → (vals ∪ r) !! k = r !! k.
Proof.
  intros vals Hid.
  assert (vals !! "alive" = Some (VInt 0)) as Ha by (unfold vals; by rewrite bound_lookup).
  assert (vals !! "modified" = Some (VInt now)) as Hm
    by (unfold vals; by rewrite bound_lookup).
  assert (vals !! "id" = Some (VInt id)) as Hi by (unfold vals; by rewrite bound_lookup).
  assert (∀ k, k ≠ "alive" → k ≠ "modified" → k ≠ "id" → vals !! k = None) as Hnone.
  { intros k Hka Hkm Hki. unfold vals. rewrite bound_lookup.
    case_bool_decide; [| reflexivity].
    rewrite !lookup_insert_ne by congruence. by rewrite lookup_empty. }
  clearbody vals. unfold column.
  rewrite (lookup_union_Some_l _ _ _ _ Ha), (lookup_union_Some_l _ _ _ _ Hm),
    (lookup_union_Some_l _ _ _ _ Hi).
  split; [reflexivity |]. split; [reflexivity |]. split; [reflexivity |].
  intros k Hka Hkm. destruct (decide (k = "id")) as [-> | Hki].
  - rewrite (lookup_union_Some_l _ _ _ _ Hi). unfold column in Hid.
    destruct (r !! "id") as [v |]; cbn in Hid; congruence.
  - apply lookup_union_r. by apply Hnone.
Qed.

(** C5: a successful [delete_file] keeps every row; in the rows with the
    id, [alive] becomes false and [modified] the time of the call, every
    other column is as before; the other rows are untouched.  Afterwards
    [list_files] with the default filters returns entries with [alive =
    True] only, none of them with the id; [get_file(id=id)] returns
    nothing; [get_file(id=id, alive=False)], which names the [alive]
    filter, returns the entry, with [alive = False]. *)
Theorem delete_file_retires_row (client : gmap string value) (id : Z) (w w' : world) :
  delete_file clock filter_where client id w = (Return (), w') →
  let now := clock (ticks w) in
  length (content w') = length (content w) ∧
  (∀ i r, content w !! i = Some r →
     ∃ r', content w' !! i = Some r' ∧
       if bool_decide (column r "id" = VInt id)
       then column r' "alive" = VInt 0 ∧ column r' "modified" = VInt now ∧
            ∀ k, k ≠ "alive" → k ≠ "modified" → r' !! k = r !! k
       else r' = r) ∧
  (∃ rows, list_files filter_where ∅ w' = (Return rows, w') ∧
     ∀ entry, entry ∈ rows →
       entry !! "alive" = Some (VBool true) ∧ column entry "id" ≠ VInt id) ∧
  get_file filter_where (<["id" := VInt id]> ∅) w' = (Return None, w') ∧
  ∃ entry,
    get_file filter_where (<["alive" := VBool false]> (<["id" := VInt id]> ∅)) w' =
      (Return (Some entry), w') ∧
    column entry "id" = VInt id ∧ entry !! "alive" = Some (VBool false).
Proof.
  intros Hrun now. apply delete_file_returns in Hrun as (Halive & name & Hname & ->).
  cbn [content]. fold now.
  pose proof (retired_row id now) as Hret. cbn zeta in Hret.
  revert Hret.
  generalize (bound (<["modified" := VInt now]>
                 (<["alive" := VBool false]> (<["id" := VInt id]> ∅)))).
  intros vals Hret.
  assert (∀ r, column (updated vals id r) "id" = column r "id") as Hkeep.
  { intros r. unfold updated. destruct (sql_eq _ _) eqn:Hid; [| reflexivity].
    apply sql_eq_int in Hid. rewrite Hid. by apply (Hret r). }
  assert (∀ r, column r "id" = VInt id → column (updated vals id r) "alive" = VInt 0)
    as Hgone.
  { intros r Hid. unfold updated. rewrite (proj2 (sql_eq_int _ _) Hid).
    by apply (Hret r). }
  assert (∀ r, sql_eq (column (updated vals id r) "id") (VInt id)
               && is_alive (updated vals id r) = false) as Hdead.
  { intros r. rewrite Hkeep.
    destruct (sql_eq (column r "id") (VInt id)) eqn:Hid; [| reflexivity].
    cbn [andb]. unfold is_alive. apply sql_eq_int in Hid. by rewrite (Hgone r Hid). }
  split; [by rewrite length_fmap |].
  split.
  { intros i r Hr. exists (updated vals id r). split.
    - by rewrite list_lookup_fmap, Hr.
    - unfold updated. case_bool_decide as Hid.
      + apply sql_eq_int in Hid as Hid'. rewrite Hid'.
        destruct (Hret r Hid) as (Ha & Hm & _ & Hk). auto.
      + rewrite <- sql_eq_int in Hid. by apply not_true_is_false in Hid as ->. }
  split.
  { rewrite list_files_default. cbn [content]. eexists. split; [reflexivity |].
    intros entry Hin. apply list_elem_of_fmap in Hin as (r & -> & Hin).
    apply (subseteq_take 100), list_elem_of_In in Hin.
    apply filter_In in Hin as [Hin Hal]. apply list_elem_of_In in Hin.
    apply list_elem_of_fmap in Hin as (r0 & -> & _).
    unfold is_alive in Hal. apply sql_eq_int in Hal. split.
    - unfold _process_entry. by rewrite lookup_insert_eq, Hal.
    - unfold _process_entry, column. rewrite lookup_insert_ne by done.
      fold (column (updated vals id r0) "id"). rewrite Hkeep. intros Hid.
      rewrite (Hgone r0 Hid) in Hal. discriminate Hal. }
  split.
  { rewrite get_file_id. cbn [content]. by rewrite (filter_none_fmap _ _ _ Hdead). }
  rewrite get_file_id_retired. cbn [content].
  destruct Halive as (r0 & Hin & Hid & _).
  destruct (head_filter_exists
              (λ r, sql_eq (column r "id") (VInt id) && sql_eq (column r "alive") (VInt 0))
              (updated vals id <$> content w)) as (r1 & -> & Hr1).
  { exists (updated vals id r0). split; [by apply list_elem_of_fmap_2 |].
    by rewrite Hkeep, (Hgone r0 Hid), (proj2 (sql_eq_int _ _) Hid). }
  apply andb_true_iff in Hr1 as [Hid1 Hal1].
  apply sql_eq_int in Hid1. apply sql_eq_int in Hal1.
  eexists. split; [reflexivity |]. unfold _process_entry. split.
  - unfold column. rewrite lookup_insert_ne by done. exact Hid1.
  - by rewrite lookup_insert_eq, Hal1.
Qed.

End Effects.

Lemma delete_file_retires_row_witness :
  Demo.delete 1 Demo.w1 = (Return (), Demo.w2) ∧
  length (content Demo.w2) = length (content Demo.w1) ∧
  Demo.get (<["id" := VInt 1]> ∅) Demo.w2 = (Return None, Demo.w2).
Proof.
  assert (Demo.delete 1 Demo.w1 = (Return (), Demo.w2)) as Hrun
    by (vm_compute; reflexivity).
  split; [exact Hrun |].
  destruct (delete_file_retires_row (engine := ReFragment.engine)
              Demo.clock Demo.filter_where Demo.client 1 Demo.w1 Demo.w2 Hrun)
    as (Hlen & _ & _ & Hgone & _).
  split; [exact Hlen | exact Hgone].
Defined.

(** ** add_file *)

Section AddFile.

Context {engine : PyRe}.
Variable clock : nat → Z.
Variable root_path : string.
Variable filter_where : string → value → row → bool.

(** The dictionary [_add_file] hands to [add_content]: [params] with the
    four stamped entries. *)
Definition stamped (params : gmap string value) (now size : Z) : gmap string value :=
  <["size" := VInt size]> (<["modified" := VInt now]>
    (<["uploaded" := VInt now]> (<["alive" := VBool true]> params))).

Lemma max_id_ge (rows : list row) (r : row) (n : Z) :
  r ∈ rows → row_id r = Some n → n ≤ max_id rows.
Proof.
  intros Hin Hn. induction rows as [| r' rows IH]; [by apply elem_of_nil in Hin |].
  cbn [max_id foldr]. fold (max_id rows).
  apply elem_of_cons in Hin as [<- | Hin].
  - rewrite Hn. lia.
  - specialize (IH Hin). destruct (row_id r'); lia.
Qed.

(** A successful insert appends one row, with an id no row had. *)
Lemma db_insert_content_returns (data : gmap string value) (w w' : world) (i : Z) :
  db_insert_content data w = (Return i, w') →
  (∀ r, r ∈ content w → row_id r ≠ Some i) ∧
  w' = set_content (content w ++ [<["id" := VInt i]> (adapt <$> data)]) w.
Proof.
  unfold db_insert_content. unfold mbind at 1. unfold M_bind at 1. cbn [get_world].
  assert (∀ j, (modify_world (set_content (content w ++
             [<["id" := VInt j]> (adapt <$> data)]));; mret j) w = (Return i, w') →
          j = i ∧ w' = set_content (content w ++ [<["id" := VInt i]> (adapt <$> data)]) w)
    as Hstore.
  { intros j [= <- <-]. done. }
  assert (∀ r, r ∈ content w → row_id r ≠ Some (1 + max_id (content w))) as Hfresh.
  { intros r Hin Hr. pose proof (max_id_ge _ _ _ Hin Hr). lia. }
  destruct ((adapt <$> data) !! "id") as [[| b | j | s] |] eqn:Hid; try done.
  - intros Hrun. apply Hstore in Hrun as [<- ->]. done.
  - case_bool_decide as Hex; [done |].
    intros Hrun. apply Hstore in Hrun as [<- ->]. split; [| done].
    intros r Hin Hr. apply Hex. apply Exists_exists. by exists r.
  - intros Hrun. apply Hstore in Hrun as [<- ->]. done.
Qed.

(** The columns of the row [add_file] inserts. *)
Lemma inserted_row (params : gmap string value) (now size i : Z) :
  let new := <["id" := VInt i]> (bound (stamped params now size)) in
  new !! "id" = Some (VInt i) ∧
  new !! "alive" = Some (VInt 1) ∧
  new !! "uploaded" = Some (VInt now) ∧
  new !! "modified" = Some (VInt now) ∧
  new !! "size" = Some (VInt size) ∧
  ∀ k, k ∉ COLS → new !! k = None.
Proof.
  intros new. unfold new, stamped.
  assert (∀ k, k ∈ COLS → bool_decide (k ∈ COLS) = true) as Hcol
    by (intros k Hk; by apply bool_decide_eq_true_2).
  split; [apply lookup_insert_eq |].
  split.
  { rewrite lookup_insert_ne, bound_lookup, Hcol by (done || by apply (bool_decide_unpack _)).
    do 3 (rewrite lookup_insert_ne by done). by rewrite lookup_insert_eq. }
  split.
  { rewrite lookup_insert_ne, bound_lookup, Hcol by (done || by apply (bool_decide_unpack _)).
    do 2 (rewrite lookup_insert_ne by done). by rewrite lookup_insert_eq. }
  split.
  { rewrite lookup_insert_ne, bound_lookup, Hcol by (done || by apply (bool_decide_unpack _)).
    rewrite lookup_insert_ne by done. by rewrite lookup_insert_eq. }
  split.
  { rewrite lookup_insert_ne, bound_lookup, Hcol by (done || by apply (bool_decide_unpack _)).
    by rewrite lookup_insert_eq. }
  intros k Hk. rewrite lookup_insert_ne, bound_lookup.
  - by rewrite bool_decide_eq_false_2.
  - intros <-. apply Hk. by apply (bool_decide_unpack _).
Qed.

Lemma filter_fresh_id (rows : list row) (i : Z) :
  (∀ r, r ∈ rows → row_id r ≠ Some i) →
  List.filter (λ r, sql_eq (column r "id") (VInt i) && is_alive r) rows = [].
Proof.
  intros Hfresh. induction rows as [| r rows IH]; [reflexivity |].
  cbn [List.filter]. destruct (sql_eq (column r "id") (VInt i)) eqn:Hid.
  - apply sql_eq_int, column_id_row_id in Hid. destruct (Hfresh r); [by left | exact Hid].
  - apply IH. intros r' Hin. apply Hfresh. by right.
Qed.

(** A read by id, after a row that is alive has been appended under an id
    no row had, finds that row. *)
Lemma head_filter_new (rows : list row) (new : row) (i : Z) :
  (∀ r, r ∈ rows → row_id r ≠ Some i) →
  new !! "id" = Some (VInt i) → new !! "alive" = Some (VInt 1) →
  head (List.filter (λ r, sql_eq (column r "id") (VInt i) && is_alive r)
          (rows ++ [new])) = Some new.
Proof.
  intros Hfresh Hid Hal. rewrite List.filter_app, (filter_fresh_id _ _ Hfresh).
  cbn [List.filter app]. unfold is_alive, column. rewrite Hid, Hal.
  change (default VNone (Some (VInt i))) with (VInt i).
  change (default VNone (Some (VInt 1))) with (VInt 1).
  cbn [sql_eq]. by rewrite !Z.eqb_refl.
Qed.


Lemma add_file_returns
    (client : gmap string value) (path : value) (params : gmap string value)
    (w w' : world) (res : option row) :
  add_file clock root_path filter_where client path params w = (Return res, w') →
  ∃ sp p e name i,
    params !! "serve_path" = Some sp ∧
    existsb (blocks sp) (content w) = false ∧
    path = VStr p ∧ fs w !! p = Some e ∧ client !! "name" = Some name ∧
    (∀ r, r ∈ content w → row_id r ≠ Some i) ∧
    let new := <["id" := VInt i]> (bound (stamped params (clock (ticks w)) (st_size e))) in
    w' = World (content w ++ [new])
           (history w ++ [ActionRecord i name "add" "" (clock (S (ticks w)))])
           (S (S (ticks w))) (fs w) ∧
    res = Some (_process_entry new).
Proof.
  unfold add_file. intros Hrun.
  apply bind_returns in Hrun as (sp & w1 & Hsp & Hrun).
  unfold getitem in Hsp.
  destruct (params !! "serve_path") as [sp' |] eqn:Hp; [| discriminate Hsp].
  injection Hsp as -> <-.
  apply bind_returns in Hrun as (taken & w1 & Hex & Hrun).
  rewrite exists_serve_path in Hex. injection Hex as <- <-.
  destruct (existsb (blocks sp) (content w)) eqn:Htaken; [discriminate Hrun |].
  apply bind_returns in Hrun as ([] & w1 & Hval & Hrun).
  assert (w1 = w) as ->.
  { rewrite <- (validate_params_world root_path params w). by rewrite Hval. }
  clear Hval.
  apply bind_returns in Hrun as (i & w2 & Hadd & Hrun).
  unfold _add_file in Hadd.
  apply bind_returns in Hadd as (now & w3 & Htime & Hadd). injection Htime as <- <-.
  apply bind_returns in Hadd as (size & w3 & Hsize & Hadd).
  unfold getsize in Hsize. destruct path as [| b | n | p]; try discriminate Hsize.
  apply bind_returns in Hsize as (w4 & w5 & Hw & Hsize). injection Hw as <- <-.
  cbn [fs set_ticks] in Hsize.
  destruct (fs w !! p) as [e |] eqn:Hfs; [| discriminate Hsize].
  injection Hsize as <- <-.
  unfold add_content in Hadd. apply db_insert_content_returns in Hadd as [Hfresh ->].
  apply bind_returns in Hrun as (name & w3 & Hname & Hrun).
  unfold getitem in Hname.
  destruct (client !! "name") as [nm |] eqn:Hnm; [| discriminate Hname].
  injection Hname as <- <-.
  apply bind_returns in Hrun as ([] & w3 & Hrec & Hrun).
  unfold record_action in Hrec.
  apply bind_returns in Hrec as (ts & w4 & Hts & Hrec). injection Hts as <- <-.
  injection Hrec as <-.
  rewrite get_file_id in Hrun. injection Hrun as <- <-.
  exists sp, p, e, nm, i.
  split; [reflexivity |]. split; [exact Htaken |]. split; [reflexivity |].
  split; [exact Hfs |]. split; [reflexivity |]. split; [exact Hfresh |].
  cbn zeta.
  pose proof (inserted_row params (clock (ticks w)) (st_size e) i) as Hnew.
  cbn zeta in Hnew. destruct Hnew as (Hid & Hal & _).
  unfold bound, stamped in Hid, Hal |- *. revert Hid Hal.
  set (vals := adapt <$> process_content_data _). clearbody vals. intros Hid Hal.
  split; [reflexivity |]. cbn [content set_content set_history set_ticks].
  cbn [content set_ticks] in Hfresh.
  by rewrite (head_filter_new _ _ _ Hfresh Hid Hal).
Qed.

(** *** The audit history only refers to rows of the table *)

Definition id_in_use (i : Z) (w : world) : Prop :=
  ∃ r, r ∈ content w ∧ row_id r = Some i.

(** From [w] to [w'] no id disappears and every new audit record refers
    to a row. *)
Definition extends (w w' : world) : Prop :=
  (∀ i, id_in_use i w → id_in_use i w') ∧
  (∀ a, a ∈ history w' → a ∈ history w ∨ id_in_use (file_id a) w').

Lemma extends_refl (w : world) : extends w w.
Proof. split; [auto | intros a Ha; by left]. Qed.

Lemma extends_trans (w1 w2 w3 : world) :
  extends w1 w2 → extends w2 w3 → extends w1 w3.
Proof.
  intros [Hid12 Hh12] [Hid23 Hh23]. split; [auto |].
  intros a Ha. destruct (Hh23 a Ha) as [Ha2 | Hnew]; [| by right].
  destruct (Hh12 a Ha2) as [Ha1 | Hnew]; [by left | right; auto].
Qed.

Lemma extends_same_tables (w w' : world) :
  content w' = content w → history w' = history w → extends w w'.
Proof.
  intros Hc Hh. unfold extends, id_in_use. rewrite Hc, Hh.
  split; [auto | intros a Ha; by left].
Qed.

Lemma history_refs_extends (w w' : world) :
  history_refs w → extends w w' → history_refs w'.
Proof.
  intros Hrefs [Hid Hh] a Ha. destruct (Hh a Ha) as [Hold | Hnew]; [| exact Hnew].
  apply Hid. exact (Hrefs a Hold).
Qed.

Lemma bind_extends {A B : Type} (m : M A) (f : A → M B) (w : world) :
  extends w (m w).2 →
  (∀ a w1, m w = (Return a, w1) → extends w1 (f a w1).2) →
  extends w ((m ≫= f) w).2.
Proof.
  unfold mbind, M_bind. destruct (m w) as [[a | e] w1]; cbn [snd]; intros H1 H2.
  - eapply extends_trans; [exact H1 |]. by apply H2.
  - exact H1.
Qed.

Lemma getitem_world (d : gmap string value) (k : string) (w : world) :
  (getitem d k w).2 = w.
Proof. unfold getitem. by destruct (d !! k). Qed.

Lemma get_content_world (filters : gmap string value) (w : world) :
  (get_content filter_where filters w).2 = w.
Proof.
  unfold get_content, mbind, M_bind, lift, get_world.
  destruct (apply_filters filter_where _ _) as [q | e]; [| reflexivity].
  destruct (db_select q (content w)); reflexivity.
Qed.

Lemma get_file_world (kwargs : gmap string value) (w : world) :
  (get_file filter_where kwargs w).2 = w.
Proof.
  unfold get_file, mbind, M_bind, lift.
  destruct (validate_filters _) as [[] | e]; [| reflexivity].
  pose proof (get_content_world (<["count" := VInt 1]> kwargs) w) as Hw.
  destruct (get_content filter_where _ w) as [[rows | e] w1]; cbn [snd] in Hw;
    subst w1; reflexivity.
Qed.

Lemma getsize_world (path : value) (w : world) : (getsize path w).2 = w.
Proof.
  unfold getsize. destruct path; try reflexivity.
  unfold mbind, M_bind, get_world. by destruct (fs w !! s).
Qed.

Lemma time_time_extends (w : world) : extends w (time_time clock w).2.
Proof. by apply extends_same_tables. Qed.

Lemma db_insert_content_world (data : gmap string value) (w : world) :
  (db_insert_content data w).2 = w ∨
  ∃ new, (db_insert_content data w).2 = set_content (content w ++ [new]) w.
Proof.
  unfold db_insert_content, mbind, M_bind, get_world, modify_world, mret, M_ret, raise.
  cbv beta iota zeta.
  destruct ((adapt <$> data) !! "id") as [[| b | j | s] |];
    try (left; reflexivity); try (right; eexists; reflexivity).
  case_bool_decide; [left; reflexivity | right; eexists; reflexivity].
Qed.

Lemma db_insert_content_extends (data : gmap string value) (w : world) :
  extends w (db_insert_content data w).2.
Proof.
  destruct (db_insert_content_world data w) as [-> | [new ->]]; [apply extends_refl |].
  split; [| intros a Ha; by left].
  intros i (r & Hin & Hr). exists r. split; [| exact Hr].
  cbn [content set_content]. apply elem_of_app. by left.
Qed.

Lemma sql_eq_true (a b : value) : sql_eq a b = true → a = b.
Proof.
  destruct a as [| x | x | x], b as [| y | y | y]; cbn; try discriminate.
  - intros ->%Z.eqb_eq. reflexivity.
  - intros ->%String.eqb_eq. reflexivity.
Qed.

Lemma db_update_content_extends (data : gmap string value) (w : world) :
  extends w (db_update_content data w).2.
Proof.
  unfold db_update_content.
  destruct ((adapt <$> data) !! "id") as [v |] eqn:Hv; [| apply extends_refl].
  generalize dependent (adapt <$> data). intros vals Hv.
  split; [| intros a Ha; by left].
  intros i (r & Hin & Hr). cbn [modify_world snd content set_content].
  exists (if sql_eq (column r "id") v then vals ∪ r else r). split.
  - apply list_elem_of_fmap. by exists r.
  - destruct (sql_eq (column r "id") v) eqn:Hid; [| exact Hr].
    apply sql_eq_true in Hid. apply column_id_row_id in Hr.
    apply column_id_row_id. unfold column.
    rewrite (lookup_union_Some_l _ _ _ _ Hv). cbn. congruence.
Qed.

Lemma record_action_extends fid name act ap ts (w : world) :
  id_in_use fid w → extends w (record_action clock fid name act ap ts w).2.
Proof.
  intros Huse. unfold record_action, add_action, db_insert_history.
  assert (∀ t w1, content w1 = content w → history w1 = history w →
            extends w (modify_world (λ w2, set_history
              (history w2 ++ [ActionRecord fid name act ap t]) w2) w1).2) as Hadd.
  { intros t w1 Hc Hh. cbn [modify_world snd]. split.
    - intros i (r & Hin & Hr). exists r. cbn [content set_history]. by rewrite Hc.
    - intros a Ha. cbn [history set_history] in Ha. rewrite Hh in Ha.
      apply elem_of_app in Ha as [Ha | Ha]; [by left |].
      apply list_elem_of_singleton in Ha as ->. right. cbn [file_id].
      destruct Huse as (r & Hin & Hr). exists r. cbn [content set_history].
      by rewrite Hc. }
  unfold mbind, M_bind, time_time, mret, M_ret.
  destruct ts as [t |]; [destruct (t =? 0) |]; cbv beta iota.
  - apply (Hadd _ (set_ticks (S (ticks w)) w)); reflexivity.
  - apply (Hadd t w); reflexivity.
  - apply (Hadd _ (set_ticks (S (ticks w)) w)); reflexivity.
Qed.

Lemma add_file_body_extends (path : value) (data : gmap string value) (w : world) :
  extends w (_add_file clock path data w).2.
Proof.
  unfold _add_file. apply bind_extends; [apply time_time_extends |].
  intros now w1 _. apply bind_extends.
  { rewrite getsize_world. apply extends_refl. }
  intros size w2 _. apply db_insert_content_extends.
Qed.

Lemma add_file_body_returns (path : value) (data : gmap string value) (w w' : world) i :
  _add_file clock path data w = (Return i, w') → id_in_use i w'.
Proof.
  unfold _add_file. intros Hrun.
  apply bind_returns in Hrun as (now & w1 & _ & Hrun).
  apply bind_returns in Hrun as (size & w2 & _ & Hrun).
  unfold add_content in Hrun. apply db_insert_content_returns in Hrun as [_ ->].
  eexists. cbn [content set_content]. split.
  - apply elem_of_app. right. apply list_elem_of_here.
  - unfold row_id. by rewrite lookup_insert_eq.
Qed.

Lemma update_file_body_extends (id : Z) (data : gmap string value) (w : world) :
  extends w (_update_file clock id data w).2.
Proof.
  unfold _update_file. apply bind_extends.
  { destruct (_ !! "path") as [path |]; [| apply extends_refl].
    pose proof (getsize_world path w) as Hw.
    unfold mbind, M_bind. destruct (getsize path w) as [[size | e] w1];
      cbn [snd] in *; subst w1; apply extends_refl. }
  intros d1 w1 _. apply bind_extends.
  { destruct (existsb _ _); [| apply extends_refl].
    unfold mbind, M_bind. cbn. by apply extends_same_tables. }
  intros d2 w2 _. apply bind_extends; [apply db_update_content_extends |].
  intros [] w3 _. apply extends_refl.
Qed.

Lemma tail_extends (client : gmap string value) (i : Z) act ap (w : world) :
  id_in_use i w →
  extends w ((name ← getitem client "name";
              record_action clock i name act ap None;;
              get_file filter_where (<["id" := VInt i]> ∅)) w).2.
Proof.
  intros Huse. apply bind_extends.
  { rewrite getitem_world. apply extends_refl. }
  intros name w1 Hname.
  assert (w1 = w) as -> by (by rewrite <- (getitem_world client "name" w), Hname).
  apply bind_extends; [by apply record_action_extends |].
  intros [] w2 _. rewrite get_file_world. apply extends_refl.
Qed.

Lemma has_alive_id_in_use (i : Z) (w : world) : has_alive_id i w → id_in_use i w.
Proof. intros (r & Hin & Hid & _). exists r. by rewrite <- column_id_row_id. Qed.

Lemma add_file_extends (client : gmap string value) path params (w : world) :
  extends w (add_file clock root_path filter_where client path params w).2.
Proof.
  unfold add_file. apply bind_extends.
  { rewrite getitem_world. apply extends_refl. }
  intros sp w1 Hsp.
  assert (w1 = w) as -> by (by rewrite <- (getitem_world params "serve_path" w), Hsp).
  apply bind_extends.
  { rewrite exists_serve_path. apply extends_refl. }
  intros taken w1 Hex. rewrite exists_serve_path in Hex. injection Hex as _ <-.
  destruct taken; [apply extends_refl |].
  apply bind_extends.
  { rewrite validate_params_world. apply extends_refl. }
  intros [] w1 Hval.
  assert (w1 = w) as -> by (by rewrite <- (validate_params_world root_path params w), Hval).
  apply bind_extends; [apply add_file_body_extends |].
  intros i w1 Hadd. apply tail_extends. by apply add_file_body_returns in Hadd.
Qed.

Lemma update_file_extends (client : gmap string value) id params (w : world) :
  extends w (update_file clock root_path filter_where client id params w).2.
Proof.
  unfold update_file. apply bind_extends.
  { rewrite exists_id. apply extends_refl. }
  intros found w1 Hex. rewrite exists_id in Hex. injection Hex as Hfound <-.
  destruct found; [| apply extends_refl]. cbn [negb].
  apply existsb_id_alive, has_alive_id_in_use in Hfound.
  apply bind_extends.
  { rewrite validate_params_world. apply extends_refl. }
  intros [] w1 Hval.
  assert (w1 = w) as -> by (by rewrite <- (validate_params_world root_path params w), Hval).
  apply bind_extends; [apply update_file_body_extends |].
  intros params' w1 Hupd. apply tail_extends.
  pose proof (update_file_body_extends id params w) as [Hkept _].
  rewrite Hupd in Hkept. by apply Hkept.
Qed.

Lemma delete_file_extends (client : gmap string value) id (w : world) :
  extends w (delete_file clock filter_where client id w).2.
Proof.
  unfold delete_file. apply bind_extends.
  { rewrite exists_id. apply extends_refl. }
  intros found w1 Hex. rewrite exists_id in Hex. injection Hex as Hfound <-.
  destruct found; [| apply extends_refl]. cbn [negb].
  apply existsb_id_alive, has_alive_id_in_use in Hfound.
  assert (extends w (_delete_file clock id w).2) as Hdel.
  { unfold _delete_file. apply bind_extends; [apply time_time_extends |].
    intros now w1 _. apply db_update_content_extends. }
  apply bind_extends; [exact Hdel |].
  intros [] w1 Hrun. rewrite Hrun in Hdel. destruct Hdel as [Hkept _].
  apply bind_extends.
  { rewrite getitem_world. apply extends_refl. }
  intros name w2 Hname.
  assert (w2 = w1) as -> by (by rewrite <- (getitem_world client "name" w1), Hname).
  apply record_action_extends. by apply Hkept.
Qed.

(** In every world the manager can be in, the audit records refer to
    rows of the table. *)
Lemma reachable_history_refs (w : world) :
  reachable clock root_path filter_where w → history_refs w.
Proof.
  induction 1 as [n disk | w n disk _ IH | w client path params _ IH
                  | w client id params _ IH | w client id _ IH].
  - intros a Ha. by apply elem_of_nil in Ha.
  - exact IH.
  - exact (history_refs_extends _ _ IH (add_file_extends client path params w)).
  - exact (history_refs_extends _ _ IH (update_file_extends client id params w)).
  - exact (history_refs_extends _ _ IH (delete_file_extends client id w)).
Qed.

Lemma filter_file_id_fresh (h : list action_record) (i : Z) :
  (∀ a, a ∈ h → file_id a ≠ i) → List.filter (λ a, file_id a =? i) h = [].
Proof.
  intros Hfresh. induction h as [| a h IH]; [reflexivity |].
  cbn [List.filter]. destruct (file_id a =? i) eqn:Ha.
  - apply Z.eqb_eq in Ha. destruct (Hfresh a); [by left | exact Ha].
  - apply IH. intros a' Hin. apply Hfresh. by right.
Qed.

(** C3: a successful [add_file], in a world the manager can be in, returns
    the row it has appended to the table: [alive] is true, [uploaded] and
    [modified] are the time read by the call, [size] is the size of the
    file at [path]; the row has no column outside [COLS], so no key of
    [params] outside [COLS] is in it; and the audit history of the new id
    is exactly one record, with action 'add' and empty [action_params]. *)
Theorem add_file_returns_stamped_entry
    (client : gmap string value) (path : value) (params : gmap string value)
    (w w' : world) (res : option row) :
  reachable clock root_path filter_where w →
  add_file clock root_path filter_where client path params w = (Return res, w') →
  ∃ entry new p e i name,
    res = Some entry ∧ entry = _process_entry new ∧
    content w' = (content w ++ [new])%list ∧
    path = VStr p ∧ fs w !! p = Some e ∧
    entry !! "id" = Some (VInt i) ∧
    entry !! "alive" = Some (VBool true) ∧
    entry !! "uploaded" = Some (VInt (clock (ticks w))) ∧
    entry !! "modified" = Some (VInt (clock (ticks w))) ∧
    entry !! "size" = Some (VInt (st_size e)) ∧
    (∀ k, k ∉ ["id"; "path"; "size"; "uploaded"; "modified"; "category";
               "expiration"; "serve_path"; "alive"] →
          new !! k = None ∧ entry !! k = None) ∧
    client !! "name" = Some name ∧
    get_actions i w' =
      (Return [ActionRecord i name "add" "" (clock (S (ticks w)))], w').
Proof.
  intros Hreach Hrun. apply reachable_history_refs in Hreach as Hrefs.
  apply add_file_returns in Hrun
    as (sp & p & e & name & i & _ & _ & -> & Hfs & Hname & Hfresh & Hrun).
  cbn zeta in Hrun.
  pose proof (inserted_row params (clock (ticks w)) (st_size e) i) as Hnew.
  cbn zeta in Hnew. revert Hrun Hnew.
  generalize (<["id" := VInt i]> (bound (stamped params (clock (ticks w)) (st_size e)))).
  intros new [-> ->] (Hid & Halive & Hup & Hmod & Hsize & Hcols).
  exists (_process_entry new), new, p, e, i, name.
  assert (∀ k v, k ≠ "alive" → new !! k = v → _process_entry new !! k = v) as Hentry.
  { intros k v Hk <-. unfold _process_entry. by rewrite lookup_insert_ne. }
  split; [reflexivity |]. split; [reflexivity |]. split; [reflexivity |].
  split; [reflexivity |]. split; [exact Hfs |].
  split; [by apply Hentry |].
  split.
  { unfold _process_entry, column. rewrite lookup_insert_eq, Halive. reflexivity. }
  split; [by apply Hentry |]. split; [by apply Hentry |]. split; [by apply Hentry |].
  split.
  { intros k Hk. split; [by apply Hcols |]. apply Hentry; [| by apply Hcols].
    intros ->. apply Hk. by apply (bool_decide_unpack _). }
  split; [exact Hname |].
  unfold get_actions, mbind, M_bind, get_world, mret, M_ret. cbn [history].
  rewrite List.filter_app, filter_file_id_fresh.
  - cbn [List.filter file_id app]. by rewrite Z.eqb_refl.
  - intros a Ha Hfid. destruct (Hrefs a Ha) as (r & Hin & Hr).
    apply (Hfresh r Hin). by rewrite Hr, Hfid.
Qed.

End AddFile.

Lemma add_file_returns_stamped_entry_witness :
  reachable Demo.clock Demo.root_path Demo.filter_where Demo.w1 ∧
  add_file Demo.clock Demo.root_path Demo.filter_where Demo.client
    (VStr "/srv/content/b.mp4") (Demo.params "/srv/content/b.mp4" "/videos/c") Demo.w1 =
    (Return (Some (Demo.entry_of (Demo.add "/srv/content/b.mp4" "/videos/c") Demo.w1)),
     Demo.after (Demo.add "/srv/content/b.mp4" "/videos/c") Demo.w1) ∧
  ∃ entry,
    Some (Demo.entry_of (Demo.add "/srv/content/b.mp4" "/videos/c") Demo.w1) = Some entry ∧
    entry !! "alive" = Some (VBool true) ∧
    entry !! "modified" = Some (VInt (Demo.clock (ticks Demo.w1))).
Proof.
  assert (reachable Demo.clock Demo.root_path Demo.filter_where Demo.w1) as Hreach.
  { apply (reach_add (engine := ReFragment.engine)). apply reach_init. }
  assert (add_file Demo.clock Demo.root_path Demo.filter_where Demo.client
            (VStr "/srv/content/b.mp4") (Demo.params "/srv/content/b.mp4" "/videos/c")
            Demo.w1 =
          (Return (Some (Demo.entry_of (Demo.add "/srv/content/b.mp4" "/videos/c") Demo.w1)),
           Demo.after (Demo.add "/srv/content/b.mp4" "/videos/c") Demo.w1))
    as Hrun by (vm_compute; reflexivity).
  split; [exact Hreach |]. split; [exact Hrun |].
  destruct (add_file_returns_stamped_entry (engine := ReFragment.engine)
              Demo.clock Demo.root_path Demo.filter_where Demo.client
              (VStr "/srv/content/b.mp4")
              (Demo.params "/srv/content/b.mp4" "/videos/c")
              Demo.w1 _ _ Hreach Hrun)
    as (entry & new & p & e & i & name & Hres & _ & _ & _ & _ & _ & Halive & _ & Hmod & _).
  exists entry. split; [exact Hres |]. split; [exact Halive | exact Hmod].
Defined.

(** ** update_file *)

Section UpdateFile.

Context {engine : PyRe}.
Variable clock : nat → Z.
Variable root_path : string.
Variable filter_where : string → value → row → bool.

(** [for key in MODIFY_TRIGGERS: if key in data: ...] finds a key. *)
Definition has_trigger (data : gmap string value) : bool :=
  existsb (λ key, bool_decide (is_Some (data !! key))) MODIFY_TRIGGERS.

Lemma has_trigger_true (data : gmap string value) :
  has_trigger data = true ↔ ∃ k, k ∈ MODIFY_TRIGGERS ∧ is_Some (data !! k).
Proof.
  unfold has_trigger. rewrite existsb_exists. split.
  - intros (k & Hin & Hk). exists k. rewrite list_elem_of_In.
    by apply bool_decide_eq_true in Hk.
  - intros (k & Hin & Hk). exists k. rewrite <- list_elem_of_In.
    by rewrite bool_decide_eq_true.
Qed.

Lemma has_trigger_ext (d d' : gmap string value) :
  (∀ k, k ∈ MODIFY_TRIGGERS → is_Some (d !! k) ↔ is_Some (d' !! k)) →
  has_trigger d = has_trigger d'.
Proof.
  intros Hsame. apply eq_true_iff_eq. rewrite !has_trigger_true.
  split; intros (k & Hin & Hk); exists k; (split; [exact Hin |]); by apply (Hsame k Hin).
Qed.

Lemma trigger_not_id (k : string) : k ∈ MODIFY_TRIGGERS → k ≠ "id" ∧ k ≠ "modified".
Proof.
  unfold MODIFY_TRIGGERS. intros Hin.
  repeat (apply elem_of_cons in Hin as [-> | Hin]; [by split |]).
  by apply elem_of_nil in Hin.
Qed.

(** What a successful [_update_file] has made of the dictionary and of the
    table. *)
Lemma update_file_body_returns (id : Z) (data data' : gmap string value) (w w' : world) :
  _update_file clock id data w = (Return data', w') →
  (∀ k, is_Some (data !! k) → is_Some (data' !! k)) ∧
  data' !! "id" = Some (VInt id) ∧
  data' !! "modified" =
    (if has_trigger data then Some (VInt (clock (ticks w))) else data !! "modified") ∧
  content w' = updated (bound data') id <$> content w ∧
  history w' = history w ∧ fs w' = fs w ∧
  ticks w' = (if has_trigger data then S (ticks w) else ticks w).
Proof.
  unfold _update_file. intros Hrun.
  apply bind_returns in Hrun as (d1 & w1 & Hsize & Hrun).
  assert (w1 = w ∧ (∀ k, is_Some (data !! k) → is_Some (d1 !! k)) ∧
          d1 !! "id" = Some (VInt id) ∧ d1 !! "modified" = data !! "modified" ∧
          has_trigger d1 = has_trigger data) as (-> & Hkeys & Hid & Hmod & Htrig).
  { destruct (<["id" := VInt id]> data !! "path") as [path |] eqn:Hpath.
    - apply bind_returns in Hsize as (size & w2 & Hsz & Hret).
      injection Hret as <- <-.
      pose proof (getsize_world path w) as Hw. rewrite Hsz in Hw. cbn [snd] in Hw.
      rewrite lookup_insert_ne in Hpath by done.
      split; [exact Hw |]. split.
      { intros k Hk. destruct (decide (k = "size")) as [-> | Hns];
          [rewrite lookup_insert_eq; by eexists |].
        rewrite lookup_insert_ne by done.
        destruct (decide (k = "id")) as [-> | Hni];
          [rewrite lookup_insert_eq; by eexists |].
        by rewrite lookup_insert_ne. }
      split; [by rewrite lookup_insert_ne, lookup_insert_eq |].
      split; [by rewrite !lookup_insert_ne |].
      transitivity true.
      + apply has_trigger_true. exists "size". split.
        * unfold MODIFY_TRIGGERS. set_solver.
        * rewrite lookup_insert_eq. by eexists.
      + symmetry. apply has_trigger_true. exists "path". split.
        * unfold MODIFY_TRIGGERS. set_solver.
        * rewrite Hpath. by eexists.
    - injection Hsize as <- <-.
      split; [reflexivity |]. split.
      { intros k Hk. destruct (decide (k = "id")) as [-> | Hni];
          [rewrite lookup_insert_eq; by eexists |].
        by rewrite lookup_insert_ne. }
      split; [apply lookup_insert_eq |].
      split; [by rewrite lookup_insert_ne |].
      apply has_trigger_ext. intros k Hk. apply trigger_not_id in Hk as [Hk _].
      by rewrite lookup_insert_ne. }
  clear Hsize.
  apply bind_returns in Hrun as (d2 & w2 & Hstamp & Hrun).
  fold (has_trigger d1) in Hstamp. rewrite Htrig in Hstamp.
  apply bind_returns in Hrun as ([] & w3 & Hupd & Hret). injection Hret as <- <-.
  destruct (has_trigger data).
  - apply bind_returns in Hstamp as (now & w4 & Htime & Hret).
    injection Htime as <- <-. injection Hret as <- <-.
    rewrite (update_content_id _ id) in Hupd
      by (by rewrite lookup_insert_ne, Hid).
    injection Hupd as <-.
    split.
    { intros k Hk. destruct (decide (k = "modified")) as [-> | Hne];
        [rewrite lookup_insert_eq; by eexists |].
      rewrite lookup_insert_ne by done. by apply Hkeys. }
    split; [by rewrite lookup_insert_ne, Hid |].
    split; [apply lookup_insert_eq |].
    repeat split.
  - injection Hstamp as <- <-.
    rewrite (update_content_id _ id) in Hupd by exact Hid.
    injection Hupd as <-.
    split; [exact Hkeys |]. split; [exact Hid |]. split; [exact Hmod |].
    repeat split.
Qed.

(** The keys of the dictionary a successful [_update_file] leaves: the
    keys it was given with, 'id', 'size' when a path was given and
    'modified' when a trigger attribute was given. *)
Lemma update_file_body_keys (id : Z) (data data' : gmap string value) (w w' : world) :
  _update_file clock id data w = (Return data', w') →
  ∀ k, is_Some (data' !! k) ↔
       is_Some (data !! k) ∨ k = "id" ∨
       (k = "size" ∧ is_Some (data !! "path")) ∨
       (k = "modified" ∧ has_trigger data = true).
Proof.
  unfold _update_file. intros Hrun.
  apply bind_returns in Hrun as (d1 & w1 & Hsize & Hrun).
  assert (has_trigger d1 = has_trigger data ∧
          ∀ k, is_Some (d1 !! k) ↔
               is_Some (data !! k) ∨ k = "id" ∨
               (k = "size" ∧ is_Some (data !! "path"))) as [Htrig Hk1].
  { destruct (<["id" := VInt id]> data !! "path") as [path |] eqn:Hpath.
    - apply bind_returns in Hsize as (size & w2 & Hsz & Hret).
      injection Hret as <- <-. clear Hsz.
      rewrite lookup_insert_ne in Hpath by done.
      assert (is_Some (data !! "path")) as Hp by (by rewrite Hpath).
      split.
      + transitivity true.
        * apply has_trigger_true. exists "size". split.
          -- unfold MODIFY_TRIGGERS. set_solver.
          -- rewrite lookup_insert_eq. by eexists.
        * symmetry. apply has_trigger_true. exists "path". split.
          -- unfold MODIFY_TRIGGERS. set_solver.
          -- exact Hp.
      + intros k. revert Hp. generalize (is_Some (data !! "path")). intros P Hp.
        destruct (decide (k = "size")) as [-> | Hns].
        { rewrite lookup_insert_eq. split; [intros _ | by eexists]. right. right. by split. }
        rewrite lookup_insert_ne by done.
        destruct (decide (k = "id")) as [-> | Hni].
        { rewrite lookup_insert_eq. split; [intros _ | by eexists]. right. by left. }
        rewrite lookup_insert_ne by done. split; [by left |].
        intros [Hk | [Hk | [Hk _]]]; [exact Hk | by destruct Hni | by destruct Hns].
    - injection Hsize as <- <-.
      rewrite lookup_insert_ne in Hpath by done.
      split.
      + apply has_trigger_ext. intros k Hk. apply trigger_not_id in Hk as [Hk _].
        by rewrite lookup_insert_ne.
      + intros k. rewrite Hpath.
        destruct (decide (k = "id")) as [-> | Hni].
        { rewrite lookup_insert_eq. split; [intros _ | by eexists]. right. by left. }
        rewrite lookup_insert_ne by done. split; [by left |].
        intros [Hk | [Hk | [_ Hk]]]; [exact Hk | by destruct Hni |].
        by apply is_Some_None in Hk. }
  clear Hsize.
  apply bind_returns in Hrun as (d2 & w2 & Hstamp & Hrun).
  fold (has_trigger d1) in Hstamp. rewrite Htrig in Hstamp.
  apply bind_returns in Hrun as ([] & w3 & _ & Hret). injection Hret as <- _.
  intros k. destruct (has_trigger data).
  - apply bind_returns in Hstamp as (now & w4 & _ & Hret).
    injection Hret as <- _.
    destruct (decide (k = "modified")) as [-> | Hnm].
    { rewrite lookup_insert_eq. split; [intros _ | by eexists]. right. right. right. by split. }
    rewrite lookup_insert_ne, Hk1 by done. split.
    + intros [Hk | [Hk | Hk]]; [by left | right; by left | right; right; by left].
    + intros [Hk | [Hk | [Hk | [Hk _]]]];
        [by left | right; by left | right; by right | by destruct Hnm].
  - injection Hstamp as <- _. rewrite Hk1. split.
    + intros [Hk | [Hk | Hk]]; [by left | right; by left | right; right; by left].
    + intros [Hk | [Hk | [Hk | [_ Hk]]]];
        [by left | right; by left | right; by right | discriminate Hk].
Qed.

Lemma update_file_returns
    (client : gmap string value) (id : Z) (params : gmap string value)
    (w w' : world) (res : option row) :
  update_file clock root_path filter_where client id params w = (Return res, w') →
  has_alive_id id w ∧
  ∃ params' name ts,
    client !! "name" = Some name ∧
    (∀ k, is_Some (params !! k) → is_Some (params' !! k)) ∧
    params' !! "id" = Some (VInt id) ∧
    params' !! "modified" =
      (if has_trigger params then Some (VInt (clock (ticks w))) else params !! "modified") ∧
    content w' = updated (bound params') id <$> content w ∧
    history w' = (history w ++
      [ActionRecord id name "update" (join ", " (map_to_list params').*1) ts])%list ∧
    ∀ k, is_Some (params' !! k) ↔
         is_Some (params !! k) ∨ k = "id" ∨
         (k = "size" ∧ is_Some (params !! "path")) ∨
         (k = "modified" ∧ has_trigger params = true).
Proof.
  unfold update_file. intros Hrun.
  apply bind_returns in Hrun as (found & w1 & Hex & Hrun).
  rewrite exists_id in Hex. injection Hex as <- <-.
  destruct (existsb _ (content w)) eqn:Hfound; [| discriminate Hrun]. cbn [negb] in Hrun.
  split; [by apply existsb_id_alive |].
  apply bind_returns in Hrun as ([] & w1 & Hval & Hrun).
  assert (w1 = w) as ->.
  { rewrite <- (validate_params_world root_path params w). by rewrite Hval. }
  clear Hval.
  apply bind_returns in Hrun as (params' & w1 & Hupd & Hrun).
  pose proof (update_file_body_keys _ _ _ _ _ Hupd) as Hdom.
  apply update_file_body_returns in Hupd as (Hkeys & Hid & Hmod & Hc & Hh & _ & _).
  apply bind_returns in Hrun as (name & w2 & Hname & Hrun).
  unfold getitem in Hname.
  destruct (client !! "name") as [nm |] eqn:Hnm; [| discriminate Hname].
  injection Hname as <- <-.
  apply bind_returns in Hrun as ([] & w2 & Hrec & Hrun).
  pose proof (get_file_world filter_where (<["id" := VInt id]> ∅) w2) as Hw.
  rewrite Hrun in Hw. cbn [snd] in Hw. subst w'. clear Hrun.
  unfold record_action in Hrec.
  apply bind_returns in Hrec as (ts & w3 & Hts & Hrec). injection Hts as <- <-.
  injection Hrec as <-.
  exists params', nm, (clock (ticks w1)).
  split; [reflexivity |]. split; [exact Hkeys |]. split; [exact Hid |].
  split; [exact Hmod |]. cbn [content history set_history set_ticks].
  split; [exact Hc |]. split; [by rewrite Hh | exact Hdom].
Qed.

(** C4 (amended): a successful [update_file] keeps every row and changes
    only the rows with the id.  When [params] holds no trigger attribute
    and no 'modified', the [modified] column of every row is as before;
    when it holds a trigger attribute, [modified] of the rows with the id
    is the time read by the call.  In both cases one 'update' record is
    appended, whose [action_params] joins with ', ' the keys of the
    dictionary [params] as [_update_file] has left it, each key once: the
    keys [params] was given with, 'id', 'size' when a path was given and
    'modified' when a trigger attribute was given, and no other name. *)
Theorem update_file_modified_and_audit
    (client : gmap string value) (id : Z) (params : gmap string value)
    (w w' : world) (res : option row) :
  update_file clock root_path filter_where client id params w = (Return res, w') →
  let triggers := ["path"; "size"; "category"; "expiration"; "serve_path"; "alive"] in
  length (content w') = length (content w) ∧
  (∀ n r r', content w !! n = Some r → content w' !! n = Some r' →
     ((∀ k, k ∈ triggers → params !! k = None) → params !! "modified" = None →
        r' !! "modified" = r !! "modified") ∧
     ((∃ k, k ∈ triggers ∧ is_Some (params !! k)) → column r "id" = VInt id →
        r' !! "modified" = Some (VInt (clock (ticks w)))) ∧
     (column r "id" ≠ VInt id → r' = r)) ∧
  ∃ names name ts,
    client !! "name" = Some name ∧
    history w' = (history w ++ [ActionRecord id name "update" (join ", " names) ts])%list ∧
    NoDup names ∧
    ∀ k, k ∈ names ↔
         is_Some (params !! k) ∨ k = "id" ∨
         (k = "size" ∧ is_Some (params !! "path")) ∨
         (k = "modified" ∧ ∃ t, t ∈ triggers ∧ is_Some (params !! t)).
Proof.
  intros Hrun triggers. change triggers with MODIFY_TRIGGERS. clear triggers.
  apply update_file_returns in Hrun
    as (_ & params' & name & ts & Hname & Hkeys & Hid & Hmod & Hc & Hh & Hdom).
  pose proof (bound_lookup params' "modified") as Hvals.
  rewrite bool_decide_eq_true_2 in Hvals by (by apply (bool_decide_unpack _)).
  revert Hc Hvals. generalize (bound params'). intros vals Hc Hvals.
  split; [by rewrite Hc, length_fmap |].
  split.
  - intros n r r' Hr Hr'. rewrite Hc, list_lookup_fmap, Hr in Hr'.
    injection Hr' as <-. unfold updated. split; [| split].
    + intros Hnone Hnomod.
      destruct (sql_eq (column r "id") (VInt id)); [| reflexivity].
      assert (has_trigger params = false) as Hnt.
      { apply not_true_is_false. rewrite has_trigger_true.
        intros (k & Hin & [v Hk]). by rewrite (Hnone k Hin) in Hk. }
      rewrite Hnt, Hnomod in Hmod. rewrite Hmod in Hvals.
      by apply lookup_union_r.
    + intros Htrig Hrid. apply has_trigger_true in Htrig.
      rewrite Htrig in Hmod. rewrite Hmod in Hvals.
      apply sql_eq_int in Hrid. rewrite Hrid.
      by apply lookup_union_Some_l.
    + intros Hrid. rewrite <- sql_eq_int in Hrid.
      by apply not_true_is_false in Hrid as ->.
  - exists (map_to_list params').*1, name, ts.
    split; [exact Hname |]. split; [exact Hh |].
    split; [apply NoDup_fst_map_to_list |].
    intros k. rewrite <- has_trigger_true, <- Hdom. split.
    + intros Hin. apply list_elem_of_fmap in Hin as ([k' v] & -> & Hin).
      apply elem_of_map_to_list in Hin. by exists v.
    + intros [v Hv]. apply list_elem_of_fmap. exists (k, v). split; [reflexivity |].
      by apply elem_of_map_to_list.
Qed.

End UpdateFile.

(** C4, as worded, fails twice in [Demo.w1].  An update that only gives
    'modified', which is no trigger attribute, changes the [modified]
    column from 1000 to 5.  An update that only gives 'category' is
    recorded with an [action_params] that joins three names, 'category',
    'id' and 'modified' in some order, and so is not 'category'. *)
Lemma update_audit_names_more_than_given :
  Forall (λ k, (<["modified" := VInt 5]> ∅ : gmap string value) !! k = None)
    ["path"; "size"; "category"; "expiration"; "serve_path"; "alive"] ∧
  Forall (λ r, column r "id" = VInt 1 ∧ column r "modified" = VInt 1000) (content Demo.w1) ∧
  Demo.entry_of (Demo.update 1 (<["modified" := VInt 5]> ∅)) Demo.w1 !! "modified" =
    Some (VInt 5) ∧
  ∃ names,
    names ≡ₚ ["category"; "id"; "modified"] ∧
    action_params <$>
      last (history (Demo.after (Demo.update 1 (<["category" := VStr "news"]> ∅)) Demo.w1)) =
      Some (join ", " names) ∧
    join ", " names ≠ join ", " ["category"].
Proof.
  split; [apply (bool_decide_unpack _); vm_compute; reflexivity |].
  split; [apply (bool_decide_unpack _); vm_compute; reflexivity |].
  split; [vm_compute; reflexivity |].
  exists ["category"; "modified"; "id"].
  split; [apply perm_skip, perm_swap |].
  split; [vm_compute; reflexivity |].
  vm_compute. discriminate.
Qed.

Lemma update_file_modified_and_audit_witness :
  update_file Demo.clock Demo.root_path Demo.filter_where Demo.client 1
    (<["category" := VStr "news"]> ∅) Demo.w1 =
    (Return (Some (Demo.entry_of (Demo.update 1 (<["category" := VStr "news"]> ∅)) Demo.w1)),
     Demo.after (Demo.update 1 (<["category" := VStr "news"]> ∅)) Demo.w1) ∧
  length (content (Demo.after (Demo.update 1 (<["category" := VStr "news"]> ∅)) Demo.w1)) =
    length (content Demo.w1).
Proof.
  assert (update_file Demo.clock Demo.root_path Demo.filter_where Demo.client 1
            (<["category" := VStr "news"]> ∅) Demo.w1 =
          (Return (Some (Demo.entry_of
                     (Demo.update 1 (<["category" := VStr "news"]> ∅)) Demo.w1)),
           Demo.after (Demo.update 1 (<["category" := VStr "news"]> ∅)) Demo.w1))
    as Hrun by (vm_compute; reflexivity).
  split; [exact Hrun |].
  destruct (update_file_modified_and_audit (engine := ReFragment.engine)
              Demo.clock Demo.root_path Demo.filter_where Demo.client 1
              (<["category" := VStr "news"]> ∅) Demo.w1 _ _ Hrun) as (Hlen & _).
  exact Hlen.
Defined.

(** * Further properties of the manager *)

(** ** Reads do not write *)

Section Reads.

Context {engine : PyRe}.
Variable filter_where : string → value → row → bool.

Lemma exists_world (kwargs : gmap string value) (w : world) :
  (exists_ filter_where kwargs w).2 = w.
Proof.
  unfold exists_, mbind, M_bind.
  pose proof (get_file_world filter_where (<["alive" := VBool true]> kwargs) w) as Hw.
  destruct (get_file filter_where _ w) as [[entry | e] w1]; cbn [snd] in Hw;
    subst w1; reflexivity.
Qed.

Lemma list_files_world (kwargs : gmap string value) (w : world) :
  (list_files filter_where kwargs w).2 = w.
Proof.
  unfold list_files, mbind, M_bind, lift.
  destruct (validate_list_filters _) as [filters | e]; [| reflexivity].
  pose proof (get_content_world filter_where filters w) as Hw.
  destruct (get_content filter_where filters w) as [[rows | e] w1]; cbn [snd] in Hw;
    subst w1; reflexivity.
Qed.

(** X1: [get_file], [exists], [list_files] and [get_actions] leave both
    tables, the clock and the file system as they are, for every filter
    dictionary and whether they return or raise. *)
Theorem reads_leave_world (kwargs : gmap string value) (fid : Z) (w : world) :
  (get_file filter_where kwargs w).2 = w ∧
  (exists_ filter_where kwargs w).2 = w ∧
  (list_files filter_where kwargs w).2 = w ∧
  (get_actions fid w).2 = w.
Proof.
  split; [apply get_file_world |]. split; [apply exists_world |].
  split; [apply list_files_world | reflexivity].
Qed.

(** X2: Every entry [get_file] or [list_files] returns has a Python boolean
    in [alive], whatever the table stores there. *)
Theorem returned_entries_have_boolean_alive (kwargs : gmap string value) (w w' : world) :
  (∀ entry, get_file filter_where kwargs w = (Return (Some entry), w') →
     ∃ b, entry !! "alive" = Some (VBool b)) ∧
  (∀ rows, list_files filter_where kwargs w = (Return rows, w') →
     Forall (λ entry, ∃ b, entry !! "alive" = Some (VBool b)) rows).
Proof.
  split.
  - intros entry Hget. unfold get_file in Hget.
    apply bind_returns in Hget as ([] & w1 & _ & Hget).
    apply bind_returns in Hget as (files & w2 & _ & Hret).
    destruct files as [| f files]; [discriminate Hret |].
    injection Hret as <- _. eexists. unfold _process_entry. apply lookup_insert_eq.
  - intros rows Hlist. unfold list_files in Hlist.
    apply bind_returns in Hlist as (filters & w1 & _ & Hlist).
    apply bind_returns in Hlist as (found & w2 & _ & Hret).
    injection Hret as <- _. apply Forall_fmap, Forall_forall. intros r _.
    eexists. unfold _process_entry. cbn. apply lookup_insert_eq.
Qed.

End Reads.

(** ** What every operation preserves *)

Section Steps.

Context {engine : PyRe}.
Variable clock : nat → Z.
Variable root_path : string.
Variable filter_where : string → value → row → bool.

(** [m] takes every world to one related to it by [R], whatever its
    outcome. *)
Definition steps (R : relation world) {A : Type} (m : M A) : Prop :=
  ∀ w, R w (m w).2.

Variable R : relation world.
Context `{!PreOrder R}.

Lemma steps_same {A : Type} (m : M A) : (∀ w, (m w).2 = w) → steps R m.
Proof. intros Hm w. by rewrite Hm. Qed.

Lemma steps_bind {A B : Type} (m : M A) (f : A → M B) :
  steps R m → (∀ a, steps R (f a)) → steps R (m ≫= f).
Proof.
  intros Hm Hf w. unfold mbind, M_bind. specialize (Hm w).
  destruct (m w) as [[a | e] w1]; cbn [snd] in *; [| exact Hm].
  transitivity w1; [exact Hm | apply Hf].
Qed.

Hypothesis R_time : ∀ w, R w (set_ticks (S (ticks w)) w).
Hypothesis R_insert : ∀ data, steps R (db_insert_content data).
Hypothesis R_update : ∀ data, steps R (db_update_content data).
Hypothesis R_history : ∀ a, steps R (db_insert_history a).

Lemma steps_time_time : steps R (time_time clock).
Proof. intros w. apply R_time. Qed.

Lemma steps_record_action fid name act ap ts :
  steps R (record_action clock fid name act ap ts).
Proof.
  unfold record_action. apply steps_bind.
  - destruct ts as [t |]; [destruct (t =? 0) |];
      first [apply steps_time_time | by apply steps_same].
  - intros t. apply R_history.
Qed.

Lemma steps_add_file_body path data : steps R (_add_file clock path data).
Proof.
  unfold _add_file. apply steps_bind; [apply steps_time_time | intros now].
  apply steps_bind; [apply steps_same, getsize_world | intros size].
  apply R_insert.
Qed.

Lemma steps_update_file_body id data : steps R (_update_file clock id data).
Proof.
  unfold _update_file. apply steps_bind.
  { destruct (_ !! "path") as [path |]; [| by apply steps_same].
    apply steps_bind; [apply steps_same, getsize_world | intros size].
    by apply steps_same. }
  intros d1. apply steps_bind.
  { destruct (existsb _ _); [| by apply steps_same].
    apply steps_bind; [apply steps_time_time | intros now]. by apply steps_same. }
  intros d2. apply steps_bind; [apply R_update | intros []]. by apply steps_same.
Qed.

Lemma steps_delete_file_body id : steps R (_delete_file clock id).
Proof.
  unfold _delete_file. apply steps_bind; [apply steps_time_time | intros now].
  apply R_update.
Qed.

Lemma steps_add_file client path params :
  steps R (add_file clock root_path filter_where client path params).
Proof.
  unfold add_file. apply steps_bind; [apply steps_same, getitem_world | intros sp].
  apply steps_bind; [apply steps_same, exists_world | intros taken].
  destruct taken; [by apply steps_same |].
  apply steps_bind; [apply steps_same, validate_params_world | intros []].
  apply steps_bind; [apply steps_add_file_body | intros i].
  apply steps_bind; [apply steps_same, getitem_world | intros name].
  apply steps_bind; [apply steps_record_action | intros []].
  apply steps_same, get_file_world.
Qed.

Lemma steps_update_file client id params :
  steps R (update_file clock root_path filter_where client id params).
Proof.
  unfold update_file. apply steps_bind; [apply steps_same, exists_world | intros found].
  destruct found; [| by apply steps_same]. cbn [negb].
  apply steps_bind; [apply steps_same, validate_params_world | intros []].
  apply steps_bind; [apply steps_update_file_body | intros params'].
  apply steps_bind; [apply steps_same, getitem_world | intros name].
  apply steps_bind; [apply steps_record_action | intros []].
  apply steps_same, get_file_world.
Qed.

Lemma steps_delete_file client id :
  steps R (delete_file clock filter_where client id).
Proof.
  unfold delete_file. apply steps_bind; [apply steps_same, exists_world | intros found].
  destruct found; [| by apply steps_same]. cbn [negb].
  apply steps_bind; [apply steps_delete_file_body | intros []].
  apply steps_bind; [apply steps_same, getitem_world | intros name].
  apply steps_record_action.
Qed.

End Steps.

(** ** Nothing is ever removed *)

Section AppendOnly.

Context {engine : PyRe}.
Variable clock : nat → Z.
Variable root_path : string.
Variable filter_where : string → value → row → bool.

(** From [w] to [w']: the audit history has only grown at its end, the
    table has not lost a row, the file system is the same and the clock
    has not gone back. *)
Definition advances (w w' : world) : Prop :=
  history w `prefix_of` history w' ∧
  (length (content w) ≤ length (content w'))%nat ∧
  fs w' = fs w ∧
  (ticks w ≤ ticks w')%nat.

#[local] Instance advances_preorder : PreOrder advances.
Proof.
  split.
  - intros w. unfold advances. split; [reflexivity |]. split; [lia |]. split; [reflexivity | lia].
  - intros w1 w2 w3 (Hh12 & Hc12 & Hf12 & Ht12) (Hh23 & Hc23 & Hf23 & Ht23).
    split; [by transitivity (history w2) |]. split; [lia |].
    split; [congruence | lia].
Qed.

Lemma advances_time (w : world) : advances w (set_ticks (S (ticks w)) w).
Proof.
  unfold advances. cbn [history content fs ticks set_ticks].
  split; [reflexivity |]. split; [lia |]. split; [reflexivity | lia].
Qed.

Lemma advances_insert (data : gmap string value) : steps advances (db_insert_content data).
Proof.
  intros w. destruct (db_insert_content_world data w) as [-> | [new ->]]; [reflexivity |].
  unfold advances. cbn [history content fs ticks set_content].
  split; [reflexivity |]. split; [rewrite length_app; lia |]. split; [reflexivity | lia].
Qed.

Lemma advances_update (data : gmap string value) : steps advances (db_update_content data).
Proof.
  intros w. unfold db_update_content.
  destruct ((adapt <$> data) !! "id") as [v |]; [| reflexivity].
  unfold advances. cbn [modify_world snd history content fs ticks set_content].
  split; [reflexivity |]. split; [rewrite length_fmap; lia |]. split; [reflexivity | lia].
Qed.

Lemma advances_history (a : action_record) : steps advances (db_insert_history a).
Proof.
  intros w. unfold advances, db_insert_history.
  cbn [modify_world snd history content fs ticks set_history].
  split; [by apply prefix_app_r |]. split; [lia |]. split; [reflexivity | lia].
Qed.

(** X3: The three mutating operations, whatever their arguments and whether
    they return or raise, only append to the audit history, never remove a
    row from the table (its length does not decrease and every id in use
    stays in use), and leave the file system alone. *)
Theorem operations_only_append
    (client : gmap string value) (path : value) (id : Z) (params : gmap string value)
    (w : world) :
  let added := (add_file clock root_path filter_where client path params w).2 in
  let updated := (update_file clock root_path filter_where client id params w).2 in
  let deleted := (delete_file clock filter_where client id w).2 in
  (advances w added ∧ ∀ i, id_in_use i w → id_in_use i added) ∧
  (advances w updated ∧ ∀ i, id_in_use i w → id_in_use i updated) ∧
  (advances w deleted ∧ ∀ i, id_in_use i w → id_in_use i deleted).
Proof.
  cbn zeta. split; [| split]; split.
  - apply (steps_add_file clock root_path filter_where advances advances_time
             advances_insert advances_history).
  - apply add_file_extends.
  - apply (steps_update_file clock root_path filter_where advances advances_time
             advances_update advances_history).
  - apply update_file_extends.
  - apply (steps_delete_file clock filter_where advances advances_time
             advances_update advances_history).
  - apply delete_file_extends.
Qed.

(** *** Ids are unique *)

(** Every row has an integer id and no two rows share one. *)
Definition ids_ok (w : world) : Prop :=
  NoDup (row_id <$> content w) ∧ Forall (λ r, is_Some (row_id r)) (content w).

Definition keeps_ids (w w' : world) : Prop := ids_ok w → ids_ok w'.

#[local] Instance keeps_ids_preorder : PreOrder keeps_ids.
Proof. split; unfold keeps_ids; [intros w; auto | intros w1 w2 w3; auto]. Qed.

Lemma db_insert_content_cases (data : gmap string value) (w : world) :
  (db_insert_content data w).2 = w ∨
  ∃ i, (∀ r, r ∈ content w → row_id r ≠ Some i) ∧
       (db_insert_content data w).2 =
         set_content (content w ++ [<["id" := VInt i]> (adapt <$> data)]) w.
Proof.
  destruct (db_insert_content data w) as [[i | e] w'] eqn:Hrun.
  - apply db_insert_content_returns in Hrun as [Hfresh ->]. right. by exists i.
  - left. revert Hrun.
    unfold db_insert_content, mbind, M_bind, get_world, modify_world, mret, M_ret, raise.
    cbv beta iota zeta.
    destruct ((adapt <$> data) !! "id") as [[| b | j | s] |]; try discriminate;
      try (by intros [= _ <-]).
    case_bool_decide; [by intros [= _ <-] | discriminate].
Qed.

Lemma keeps_ids_insert (data : gmap string value) : steps keeps_ids (db_insert_content data).
Proof.
  intros w. destruct (db_insert_content_cases data w) as [-> | (i & Hfresh & ->)];
    [reflexivity |].
  intros [Hnd Hall]. unfold ids_ok. cbn [content set_content].
  assert (row_id (<["id" := VInt i]> (adapt <$> data)) = Some i) as Hnew
    by (unfold row_id; by rewrite lookup_insert_eq).
  split.
  - rewrite fmap_app. cbn [fmap list_fmap]. rewrite Hnew.
    apply NoDup_app. split; [exact Hnd |]. split; [| apply NoDup_singleton].
    intros o Ho Hin. apply list_elem_of_singleton in Hin as ->.
    apply list_elem_of_fmap in Ho as (r & Hr & Hin). by apply (Hfresh r Hin).
  - apply Forall_app. split; [exact Hall |]. apply Forall_singleton. by rewrite Hnew.
Qed.

Lemma keeps_ids_update (data : gmap string value) : steps keeps_ids (db_update_content data).
Proof.
  intros w. unfold db_update_content.
  destruct ((adapt <$> data) !! "id") as [v |] eqn:Hv; [| reflexivity].
  generalize dependent (adapt <$> data). intros vals Hv.
  assert (∀ r, row_id (if sql_eq (column r "id") v then vals ∪ r else r) = row_id r)
    as Hsame.
  { intros r. destruct (sql_eq (column r "id") v) eqn:Hid; [| reflexivity].
    apply sql_eq_true in Hid. unfold row_id. unfold column in Hid.
    rewrite (lookup_union_Some_l _ _ _ _ Hv).
    destruct (r !! "id") as [u |]; cbn in Hid; by subst. }
  intros [Hnd Hall]. unfold ids_ok. cbn [modify_world snd content set_content].
  split.
  - rewrite <- list_fmap_compose.
    assert (row_id ∘ (λ r, if sql_eq (column r "id") v then vals ∪ r else r) <$> content w =
            row_id <$> content w) as ->; [| exact Hnd].
    apply list_fmap_ext. intros n r _. apply Hsame.
  - apply Forall_fmap. eapply Forall_impl; [exact Hall |].
    intros r Hr. cbn. by rewrite Hsame.
Qed.

(** X4: In every world the manager can be in, each row of the table has an
    integer id and the ids are pairwise different. *)
Theorem reachable_ids_unique (w : world) :
  reachable clock root_path filter_where w → ids_ok w.
Proof.
  assert (∀ w, keeps_ids w (set_ticks (S (ticks w)) w)) as Htime by (intros w0 H0; exact H0).
  assert (∀ a, steps keeps_ids (db_insert_history a)) as Hhist by (intros a w0 H0; exact H0).
  induction 1 as [n disk | w n disk _ IH | w client path params _ IH
                  | w client id params _ IH | w client id _ IH].
  - split; [apply NoDup_nil_2 | apply Forall_nil_2].
  - exact IH.
  - exact (steps_add_file clock root_path filter_where keeps_ids Htime
             keeps_ids_insert Hhist client path params w IH).
  - exact (steps_update_file clock root_path filter_where keeps_ids Htime
             keeps_ids_update Hhist client id params w IH).
  - exact (steps_delete_file clock filter_where keeps_ids Htime
             keeps_ids_update Hhist client id w IH).
Qed.

End AppendOnly.

(** ** Splitting and stripping dictionaries *)

Section Dictionaries.

Lemma validate_filters_returns_iff (filters : gmap string value) :
  validate_filters filters = Return () ↔ valid_keys filters.
Proof.
  split; [| apply validate_filters_ok].
  intros Hok. apply valid_keys_Forall.
  destruct (decide (Forall (λ k, k ∈ VALID_FILTERS) (map_to_list filters).*1))
    as [Hall | Hnall]; [exact Hall |].
  apply validate_keys_bad in Hnall as (k & _ & _ & Hraise).
  unfold validate_filters in Hok. congruence.
Qed.

(** X6: [split_valid_filters] cuts the dictionary in two parts that do not
    overlap and give it back when merged; the first part holds exactly the
    entries with a recognised name and always passes [validate_filters];
    the second part is empty exactly when the whole dictionary passes. *)
Theorem split_valid_filters_partition (filters : gmap string value) :
  let valid := (split_valid_filters filters).1 in
  let invalid := (split_valid_filters filters).2 in
  valid ##ₘ invalid ∧
  valid ∪ invalid = filters ∧
  (∀ k v, valid !! k = Some v ↔ filters !! k = Some v ∧ k ∈ VALID_FILTERS) ∧
  validate_filters valid = Return () ∧
  (invalid = ∅ ↔ validate_filters filters = Return ()).
Proof.
  cbn zeta. unfold split_valid_filters. cbn [fst snd].
  assert (∀ k v, filter (λ kv : string * value, kv.1 ∈ VALID_FILTERS) filters !! k = Some v
                 ↔ filters !! k = Some v ∧ k ∈ VALID_FILTERS) as Hvalid.
  { intros k v. by rewrite map_lookup_filter_Some. }
  assert (∀ k v, filter (λ kv : string * value, kv.1 ∉ VALID_FILTERS) filters !! k = Some v
                 ↔ filters !! k = Some v ∧ k ∉ VALID_FILTERS) as Hinvalid.
  { intros k v. by rewrite map_lookup_filter_Some. }
  split.
  { apply map_disjoint_spec. intros k x y Hx Hy.
    apply Hvalid in Hx as [_ Hx]. apply Hinvalid in Hy as [_ Hy]. by apply Hy. }
  split.
  { apply map_eq. intros k. apply option_eq. intros v.
    rewrite lookup_union_Some_raw, Hvalid, Hinvalid.
    destruct (decide (k ∈ VALID_FILTERS)) as [Hk | Hk].
    - split; [intros [[? _] | [_ [_ ?]]]; done | intros ?; by left].
    - split; [intros [[_ ?] | [_ [? _]]]; done |].
      intros Hv. right. split; [| done].
      destruct (filter _ filters !! k) as [u |] eqn:Hu; [| done].
      apply Hvalid in Hu as [_ Hu]. done. }
  split; [exact Hvalid |].
  split.
  { apply validate_filters_ok. intros k [v Hv]. by apply Hvalid in Hv as [_ Hk]. }
  rewrite validate_filters_returns_iff, map_empty. unfold valid_keys. split.
  - intros Hnone k [v Hv]. destruct (decide (k ∈ VALID_FILTERS)) as [Hk | Hk]; [exact Hk |].
    specialize (Hnone k). assert (filter (λ kv : string * value, kv.1 ∉ VALID_FILTERS)
      filters !! k = Some v) as Hcontra by (by apply Hinvalid). congruence.
  - intros Hall k. apply eq_None_not_Some. intros [v Hv].
    apply Hinvalid in Hv as [Hv Hk]. apply Hk, Hall. by exists v.
Qed.

(** X7: [strip_extra] keeps an entry exactly when its key is among
    [valid_keys], with its value; stripping twice is stripping once; for
    [process_content_data] the keys kept are those of [COLS]. *)
Theorem strip_extra_keeps_valid_keys (data : gmap string value) (valid_keys : list string) :
  (∀ k, strip_extra data valid_keys !! k =
        if bool_decide (k ∈ valid_keys) then data !! k else None) ∧
  strip_extra data valid_keys ⊆ data ∧
  strip_extra (strip_extra data valid_keys) valid_keys = strip_extra data valid_keys ∧
  (∀ k, is_Some (process_content_data data !! k) → k ∈ COLS).
Proof.
  assert (∀ d k, strip_extra d valid_keys !! k =
                 if bool_decide (k ∈ valid_keys) then d !! k else None) as Hlook.
  { intros d k. unfold strip_extra. case_bool_decide as Hk.
    - destruct (d !! k) as [v |] eqn:Hv.
      + by apply map_lookup_filter_Some_2.
      + apply map_lookup_filter_None_2. by left.
    - apply map_lookup_filter_None_2. right. intros v _. exact Hk. }
  split; [apply Hlook |].
  split; [apply map_filter_subseteq |].
  split.
  { apply map_eq. intros k. rewrite !Hlook. by case_bool_decide. }
  intros k [v Hv]. unfold process_content_data, strip_extra in Hv.
  by apply map_lookup_filter_Some in Hv as [_ Hk].
Qed.

End Dictionaries.

(** ** Path validation *)

Section Paths.

Context {engine : PyRe}.
Variable clock : nat → Z.
Variable root_path : string.
Variable filter_where : string → value → row → bool.

Lemma startswith_prefix (p s : string) :
  startswith p s = true ↔ ∃ rest, s = p +:+ rest.
Proof.
  revert s. induction p as [| a p IH]; intros s.
  - cbn. split; [intros _; by exists s | by intros _].
  - destruct s as [| b s]; cbn.
    + split; [discriminate | intros [rest Hrest]; discriminate Hrest].
    + destruct (Ascii.eqb a b) eqn:Hab.
      * apply Ascii.eqb_eq in Hab as ->. rewrite IH. split.
        -- intros [rest ->]. by exists rest.
        -- intros [rest [= ->]]. by exists rest.
      * apply Ascii.eqb_neq in Hab. split; [discriminate |].
        intros [rest [= ? _]]. congruence.
Qed.

(** X8: [_validate_path] of a string returns exactly when the string is not
    empty, begins with the characters of [root_path] (a plain prefix
    test, not a test on path components) and names a regular file; in
    every other case it raises a [ContentException]; the world is never
    changed. *)
Theorem validate_path_accepts (p : string) (w : world) :
  let good := p ≠ "" ∧ (∃ rest, p = root_path +:+ rest) ∧
              ∃ e, fs w !! p = Some e ∧ st_isfile e = true in
  (_validate_path root_path (VStr p) w = (Return (), w) ↔ good) ∧
  (¬ good → ∃ msg, _validate_path root_path (VStr p) w = (Raise (ContentException msg), w)).
Proof.
  cbn zeta. unfold _validate_path. cbn [py_bool negb].
  destruct (String.eqb p "") eqn:Hempty.
  { apply String.eqb_eq in Hempty as ->. cbn [negb]. split.
    - split; [discriminate | by intros [? _]].
    - intros _. by eexists. }
  apply String.eqb_neq in Hempty. cbn [negb].
  destruct (startswith root_path p) eqn:Hroot; cbn [negb].
  2:{ split.
      - split; [discriminate |]. intros (_ & Hpre & _).
        apply startswith_prefix in Hpre. congruence.
      - intros _. by eexists. }
  apply startswith_prefix in Hroot.
  unfold isfile, mbind, M_bind, get_world, mret, M_ret, raise. cbv beta iota.
  destruct (fs w !! p) as [e |] eqn:Hfs.
  - destruct (st_isfile e) eqn:Hfile; cbn [negb].
    + split; [| intros Hbad; destruct Hbad; eauto 6].
      split; [intros _; eauto 6 | done].
    + split.
      * split; [discriminate |]. intros (_ & _ & e' & [= <-] & Hfile'). congruence.
      * intros _. by eexists.
  - cbn [negb]. split.
    + split; [discriminate |]. intros (_ & _ & e' & Hnone & _). discriminate Hnone.
    + intros _. by eexists.
Qed.

(** X9: When the path in [params] is refused, [add_file] (after its
    duplicate check) and [update_file] (on an alive id) raise that
    exception and leave both tables, the clock and the file system as
    they were: nothing is inserted, updated or recorded. *)
Theorem refused_path_changes_nothing
    (client : gmap string value) (path : value) (id : Z) (params : gmap string value)
    (e : exn) (w : world) :
  (_validate_params root_path params w).1 = Raise e →
  (∀ sp, params !! "serve_path" = Some sp → existsb (blocks sp) (content w) = false →
     add_file clock root_path filter_where client path params w = (Raise e, w)) ∧
  (has_alive_id id w →
     update_file clock root_path filter_where client id params w = (Raise e, w)).
Proof.
  intros Hval.
  assert (_validate_params root_path params w = (Raise e, w)) as Hval'.
  { pose proof (validate_params_world root_path params w) as Hw.
    destruct (_validate_params root_path params w) as [r w1].
    cbn [fst snd] in *. by subst. }
  clear Hval. split.
  - intros sp Hsp Hfree. unfold add_file, getitem. rewrite Hsp.
    unfold mbind at 1. unfold M_bind at 1. cbn [mret M_ret].
    unfold mbind at 1. unfold M_bind at 1. rewrite exists_serve_path, Hfree.
    unfold mbind at 1. unfold M_bind at 1. by rewrite Hval'.
  - intros Halive. unfold update_file.
    unfold mbind at 1. unfold M_bind at 1. rewrite exists_id.
    apply existsb_id_alive in Halive. rewrite Halive. cbn [negb].
    unfold mbind at 1. unfold M_bind at 1. by rewrite Hval'.
Qed.

End Paths.

(** ** Life cycle of an entry *)

Section Lifecycle.

Context {engine : PyRe}.
Variable clock : nat → Z.
Variable root_path : string.
Variable filter_where : string → value → row → bool.

(** X10: Once [delete_file] has returned for an id, no alive row has that id:
    [exists(id=id)] is false, and a second [delete_file] or an
    [update_file] on the id raises the 'does not exist' error and changes
    nothing, for every client and every [params]. *)
Theorem delete_file_then_not_found (client : gmap string value) (id : Z) (w w' : world) :
  delete_file clock filter_where client id w = (Return (), w') →
  ¬ has_alive_id id w' ∧
  exists_ filter_where (<["id" := VInt id]> ∅) w' = (Return false, w') ∧
  ∀ (client' params : gmap string value),
    delete_file clock filter_where client' id w' = (Raise (not_found id), w') ∧
    update_file clock root_path filter_where client' id params w' =
      (Raise (not_found id), w').
Proof.
  intros Hrun. apply delete_file_returns in Hrun as (_ & name & _ & ->).
  pose proof (retired_row id (clock (ticks w))) as Hret. cbn zeta in Hret.
  revert Hret.
  generalize (bound (<["modified" := VInt (clock (ticks w))]>
                 (<["alive" := VBool false]> (<["id" := VInt id]> ∅)))).
  intros vals Hret.
  set (w' := World _ _ _ _).
  assert (¬ has_alive_id id w') as Hgone.
  { intros (r' & Hin & Hid & Halive). unfold w' in Hin. cbn [content] in Hin.
    apply list_elem_of_fmap in Hin as (r & -> & Hin). unfold updated in Hid, Halive.
    destruct (sql_eq (column r "id") (VInt id)) eqn:Hmatch.
    - apply sql_eq_int in Hmatch. destruct (Hret r Hmatch) as (Hdead & _).
      rewrite Hdead in Halive. discriminate Halive.
    - apply sql_eq_int in Hid. congruence. }
  split; [exact Hgone |]. split.
  - rewrite exists_id. apply (f_equal (λ b, (Return b, w'))).
    apply not_true_is_false. by rewrite existsb_id_alive.
  - intros client' params. split.
    + by apply delete_file_no_alive.
    + by apply update_file_no_alive.
Qed.

Lemma update_file_returns_body
    (client : gmap string value) (id : Z) (params : gmap string value)
    (w w' : world) (res : option row) :
  update_file clock root_path filter_where client id params w = (Return res, w') →
  ∃ params' w1,
    _update_file clock id params w = (Return params', w1) ∧
    content w' = content w1 ∧
    get_file filter_where (<["id" := VInt id]> ∅) w' = (Return res, w').
Proof.
  unfold update_file. intros Hrun.
  apply bind_returns in Hrun as (found & w1 & Hex & Hrun).
  rewrite exists_id in Hex. injection Hex as <- <-.
  destruct (existsb _ (content w)) eqn:Hfound; [| discriminate Hrun]. cbn [negb] in Hrun.
  apply bind_returns in Hrun as ([] & w1 & Hval & Hrun).
  assert (w1 = w) as ->.
  { rewrite <- (validate_params_world root_path params w). by rewrite Hval. }
  clear Hval.
  apply bind_returns in Hrun as (params' & w1 & Hupd & Hrun).
  exists params', w1. split; [exact Hupd |]. clear Hupd.
  apply bind_returns in Hrun as (name & w2 & Hname & Hrun).
  pose proof (getitem_world client "name" w1) as Hw2. rewrite Hname in Hw2.
  cbn [snd] in Hw2. subst w2. clear Hname.
  apply bind_returns in Hrun as ([] & w2 & Hrec & Hrun).
  pose proof (get_file_world filter_where (<["id" := VInt id]> ∅) w2) as Hw.
  rewrite Hrun in Hw. cbn [snd] in Hw. subst w'.
  split; [| exact Hrun].
  unfold record_action in Hrec.
  apply bind_returns in Hrec as (ts & w3 & Hts & Hrec). injection Hts as <- <-.
  by injection Hrec as <-.
Qed.

(** X12: [update_file] never changes the id of a row, also when [params]
    carries an 'id' of its own, and every entry it returns is one with the
    id it was called for. *)
Theorem update_file_keeps_ids
    (client : gmap string value) (id : Z) (params : gmap string value)
    (w w' : world) (res : option row) :
  update_file clock root_path filter_where client id params w = (Return res, w') →
  (∀ n r r', content w !! n = Some r → content w' !! n = Some r' →
     column r' "id" = column r "id") ∧
  ∀ entry, res = Some entry → column entry "id" = VInt id.
Proof.
  intros Hrun. apply update_file_returns_body in Hrun as Hbody.
  destruct Hbody as (params0 & w1 & _ & _ & Hget).
  apply update_file_returns in Hrun
    as (Halive & params' & name & ts & _ & _ & Hid & _ & Hc & _).
  pose proof (bound_lookup params' "id") as Hvals.
  rewrite bool_decide_eq_true_2, Hid in Hvals by (by apply (bool_decide_unpack _)).
  cbn [fmap option_fmap option_map adapt] in Hvals.
  revert Hc Hvals. generalize (bound params'). intros vals Hc Hvals.
  assert (∀ r, column (updated vals id r) "id" = column r "id") as Hkeep.
  { intros r. unfold updated. destruct (sql_eq _ _) eqn:Hmatch; [| reflexivity].
    apply sql_eq_int in Hmatch. rewrite Hmatch. unfold column.
    by rewrite (lookup_union_Some_l _ _ _ _ Hvals). }
  split.
  - intros n r r' Hr Hr'. rewrite Hc, list_lookup_fmap, Hr in Hr'.
    injection Hr' as <-. apply Hkeep.
  - intros entry ->. exact (get_file_id_entry filter_where id w' w' entry Hget).
Qed.

Lemma update_file_body_path (id : Z) (data data' : gmap string value) (w w' : world) path :
  _update_file clock id data w = (Return data', w') →
  data !! "path" = Some path →
  ∃ p e, path = VStr p ∧ fs w !! p = Some e ∧
         data' !! "size" = Some (VInt (st_size e)) ∧ data' !! "path" = Some path.
Proof.
  unfold _update_file. intros Hrun Hpath.
  apply bind_returns in Hrun as (d1 & w1 & Hsize & Hrun).
  rewrite lookup_insert_ne, Hpath in Hsize by done.
  apply bind_returns in Hsize as (size & w2 & Hsz & Hret). injection Hret as <- <-.
  unfold getsize in Hsz. destruct path as [| b | n | p]; try discriminate Hsz.
  apply bind_returns in Hsz as (w3 & w4 & Hw & Hsz). injection Hw as <- <-.
  destruct (fs w !! p) as [e |] eqn:Hfs; [| discriminate Hsz]. injection Hsz as <- <-.
  exists p, e. split; [reflexivity |]. split; [exact Hfs |].
  apply bind_returns in Hrun as (d2 & w2 & Hstamp & Hrun).
  apply bind_returns in Hrun as ([] & w3 & _ & Hret). injection Hret as <- _.
  destruct (existsb _ _).
  - apply bind_returns in Hstamp as (now & w4 & _ & Hret). injection Hret as <- _.
    split.
    + by rewrite lookup_insert_ne, lookup_insert_eq.
    + by rewrite !lookup_insert_ne.
  - injection Hstamp as <- _. split.
    + by rewrite lookup_insert_eq.
    + by rewrite !lookup_insert_ne.
Qed.

(** X13: When [params] carries a path, a successful [update_file] stores that
    path and the size of the file found there in the rows with the id,
    whatever 'size' [params] carries. *)
Theorem update_file_recomputes_size
    (client : gmap string value) (id : Z) (params : gmap string value)
    (w w' : world) (res : option row) (path : value) :
  update_file clock root_path filter_where client id params w = (Return res, w') →
  params !! "path" = Some path →
  ∃ p e, path = VStr p ∧ fs w !! p = Some e ∧
    ∀ n r r', content w !! n = Some r → content w' !! n = Some r' →
      column r "id" = VInt id →
      r' !! "size" = Some (VInt (st_size e)) ∧ r' !! "path" = Some (VStr p).
Proof.
  intros Hrun Hpath. apply update_file_returns_body in Hrun as (params' & w1 & Hbody & Hc & _).
  destruct (update_file_body_path _ _ _ _ _ _ Hbody Hpath) as (p & e & -> & Hfs & Hsz & Hp).
  apply (update_file_body_returns clock root_path filter_where) in Hbody
    as (_ & _ & _ & Hc1 & _).
  rewrite Hc1 in Hc. clear Hc1.
  pose proof (bound_lookup params' "size") as Hvsize.
  rewrite bool_decide_eq_true_2, Hsz in Hvsize by (by apply (bool_decide_unpack _)).
  pose proof (bound_lookup params' "path") as Hvpath.
  rewrite bool_decide_eq_true_2, Hp in Hvpath by (by apply (bool_decide_unpack _)).
  cbn [fmap option_fmap option_map adapt] in Hvsize, Hvpath.
  revert Hc Hvsize Hvpath. generalize (bound params'). intros vals Hc Hvsize Hvpath.
  exists p, e. split; [reflexivity |]. split; [exact Hfs |].
  intros n r r' Hr Hr' Hid. rewrite Hc, list_lookup_fmap, Hr in Hr'.
  injection Hr' as <-. unfold updated. apply sql_eq_int in Hid. rewrite Hid.
  split; by apply lookup_union_Some_l.
Qed.

End Lifecycle.

(** ** Listing *)

Section Listing.

Context {engine : PyRe}.
Variable filter_where : string → value → row → bool.

(** The dictionary [validate_list_filters] builds before it checks the
    pattern. *)
Definition clamped (filters : gmap string value) : gmap string value :=
  let filters :=
    if bool_decide (is_Some (filters !! "serve_path") ∨ is_Some (filters !! "since"))
    then delete "count" filters else filters in
  match filters !! "count" with
  | Some c => <["count" := py_min c (VInt MAX_LIST_COUNT)]> filters
  | None => filters
  end.

Lemma validate_list_filters_clamped (filters : gmap string value) :
  validate_list_filters filters =
    match clamped filters !! "serve_path" with
    | Some sp =>
        match re_compile_py sp with
        | Return _ => Return (clamped filters)
        | Raise (ReError _) =>
            Raise (ValueError
              ("Invalid regular expression for serve_path: " +:+ py_str sp))
        | Raise e => Raise e
        end
    | None => Return (clamped filters)
    end.
Proof. reflexivity. Qed.

Lemma clamped_lookup (filters : gmap string value) :
  (∀ k, k ≠ "count" → clamped filters !! k = filters !! k) ∧
  clamped filters !! "count" =
    if bool_decide (is_Some (filters !! "serve_path") ∨ is_Some (filters !! "since"))
    then None
    else (λ c, py_min c (VInt MAX_LIST_COUNT)) <$> filters !! "count".
Proof.
  unfold clamped. case_bool_decide as Hc.
  - rewrite lookup_delete_eq. split; [| by rewrite lookup_delete_eq].
    intros k Hk. by rewrite lookup_delete_ne.
  - destruct (filters !! "count") as [c |] eqn:Hcount; cbn [fmap option_fmap option_map].
    + rewrite lookup_insert_eq. split; [| reflexivity].
      intros k Hk. by rewrite lookup_insert_ne.
    + split; [reflexivity | exact Hcount].
Qed.

Lemma py_min_idempotent (c m : value) : py_min (py_min c m) m = py_min c m.
Proof.
  unfold py_min. destruct (py_lt m c) eqn:Hlt; [| by rewrite Hlt].
  assert (py_lt m m = false) as ->; [| reflexivity].
  destruct m as [| b | n | s]; cbn; try reflexivity.
  - apply Z.ltb_irrefl.
  - apply Z.ltb_irrefl.
  - apply bool_decide_eq_false_2. intros Hcmp.
    pose proof (String.compare_antisym s s) as Hanti. rewrite Hcmp in Hanti.
    discriminate Hanti.
Qed.

Lemma clamped_idempotent (filters : gmap string value) :
  clamped (clamped filters) = clamped filters.
Proof.
  destruct (clamped_lookup filters) as [Hother Hcount].
  destruct (clamped_lookup (clamped filters)) as [Hother' Hcount'].
  rewrite !Hother in Hcount' by done.
  apply map_eq. intros k. destruct (decide (k = "count")) as [-> | Hk];
    [| by rewrite Hother'].
  rewrite Hcount'. clear Hcount' Hother'.
  destruct (bool_decide (is_Some (filters !! "serve_path") ∨ is_Some (filters !! "since")));
    [by rewrite Hcount |].
  rewrite Hcount.
  destruct (filters !! "count") as [c |]; cbn [fmap option_fmap option_map];
    [| reflexivity].
  by rewrite py_min_idempotent.
Qed.

(** X14: [validate_list_filters] is idempotent: the dictionary it returns
    passes again and comes back as it is. *)
Theorem validate_list_filters_idempotent (filters filters' : gmap string value) :
  validate_list_filters filters = Return filters' →
  validate_list_filters filters' = Return filters'.
Proof.
  rewrite validate_list_filters_clamped. intros Hret.
  assert (filters' = clamped filters) as ->.
  { destruct (clamped filters !! "serve_path") as [sp |]; [| congruence].
    destruct (re_compile_py sp) as [rx | []]; congruence. }
  rewrite validate_list_filters_clamped, clamped_idempotent. exact Hret.
Qed.

Lemma clamped_valid_keys (filters : gmap string value) :
  valid_keys filters → valid_keys (clamped filters).
Proof.
  intros Hv k Hk. destruct (clamped_lookup filters) as [Hother Hcount].
  destruct (decide (k = "count")) as [-> | Hne]; [by apply (bool_decide_unpack _) |].
  apply Hv. by rewrite <- Hother.
Qed.

(** X15: [list_files] returns, and leaves the world as it is, whenever every
    filter name is a recognised one, [serve_path] (if given) is a string
    that compiles as a pattern, and [count] (if it is not dropped because
    of [serve_path] or [since]) is not [None]. *)
Theorem list_files_returns (kwargs : gmap string value) (w : world) :
  valid_keys kwargs →
  (∀ sp, kwargs !! "serve_path" = Some sp →
         ∃ p rx, sp = VStr p ∧ re_compile p = inr rx) →
  (is_Some (kwargs !! "serve_path") ∨ is_Some (kwargs !! "since") ∨
   kwargs !! "count" ≠ Some VNone) →
  ∃ rows, list_files filter_where kwargs w = (Return rows, w).
Proof.
  intros Hv Hsp Hcount. unfold list_files.
  set (merged := kwargs ∪ default_filters).
  assert (∀ k, k ≠ "count" → merged !! k = kwargs !! k) as Hmerge.
  { intros k Hk. unfold merged, default_filters. rewrite lookup_union.
    rewrite lookup_insert_ne, lookup_empty by done. by destruct (kwargs !! k). }
  assert (merged !! "count" = Some (default (VInt DEFAULT_LIST_COUNT) (kwargs !! "count")))
    as Hmc.
  { unfold merged, default_filters. rewrite lookup_union, lookup_insert_eq.
    by destruct (kwargs !! "count"). }
  assert (valid_keys merged) as Hvm.
  { intros k Hk. destruct (decide (k = "count")) as [-> | Hne];
      [by apply (bool_decide_unpack _) |].
    apply Hv. by rewrite <- Hmerge. }
  destruct (clamped_lookup merged) as [Hother Hclamp].
  rewrite !Hmerge, Hmc in Hclamp by done.
  assert (validate_list_filters merged = Return (clamped merged)) as Hval.
  { rewrite validate_list_filters_clamped, Hother, Hmerge by done.
    destruct (kwargs !! "serve_path") as [sp |] eqn:Hk; [| reflexivity].
    destruct (Hsp sp eq_refl) as (p & rx & -> & Hrx).
    cbn [re_compile_py]. by rewrite Hrx. }
  unfold mbind, M_bind, lift. rewrite Hval.
  rewrite (get_content_valid _ _ _ (clamped_valid_keys _ Hvm)), Hclamp.
  generalize (List.filter (selected filter_where (clamped merged)) (content w)).
  intros hits. clear Hval Hother Hvm Hmerge Hmc Hclamp merged.
  case_bool_decide as Hsel; [by eexists |].
  cbn [fmap option_fmap option_map cut].
  assert (kwargs !! "count" ≠ Some VNone) as Hnn.
  { destruct Hcount as [? | [? | ?]]; [destruct Hsel; by left | destruct Hsel; by right | done]. }
  destruct (kwargs !! "count") as [[| b | n | s] |]; cbn.
  - by destruct Hnn.
  - destruct b; eexists; reflexivity.
  - unfold py_min, py_lt, MAX_LIST_COUNT. destruct (1000 <? n); eexists; reflexivity.
  - eexists; reflexivity.
  - eexists; reflexivity.
Qed.

End Listing.

(** ** The pattern match of the backend *)

Section Patterns.

Context {engine : PyRe}.

(** X18: When the pattern or the text is not a string (a NULL column, a
    number), [regexp_operator] returns [None] and logs: such a row is
    never selected by a [serve_path] filter, and a [serve_path] that is
    not a string selects no row. *)
Theorem regexp_operator_on_other_values (expr item : value) :
  (∀ s, expr ≠ VStr s) ∨ (∀ s, item ≠ VStr s) →
  (regexp_operator expr item).1 = Return VNone ∧
  length (regexp_operator expr item).2 = 1%nat ∧
  sql_regexp expr item = false.
Proof.
  intros Hnot. unfold sql_regexp, regexp_operator, re_compile_py, rx_search_py.
  destruct expr as [| b | n | p]; try (by split_and!).
  destruct (re_compile p) as [msg | rx]; [by split_and! |].
  destruct item as [| b | n | s]; try (by split_and!).
  destruct Hnot as [Hnot | Hnot]; [by destruct (Hnot p) | by destruct (Hnot s)].
Qed.

End Patterns.

(** ** The audit log *)

(** [ActionRecords.clear_actions]: [DELETE FROM history WHERE file_id = ?] *)
Definition clear_actions (fid : Z) : M () :=
  modify_world (λ w,
    set_history (List.filter (λ a, negb (file_id a =? fid)) (history w)) w).

Section AuditLog.

(** X19: What [add_action] records for a file is what [get_actions] gives
    back last for that file, after the records it had; the records of
    every other file read as before. *)
Theorem add_action_then_get_actions
    (fid : Z) (name : value) (act ap : string) (ts other : Z) (w : world) :
  let w' := (add_action fid name act ap ts w).2 in
  (get_actions fid w').1 =
    Return ((List.filter (λ a, file_id a =? fid) (history w) ++
             [ActionRecord fid name act ap ts])%list) ∧
  (other ≠ fid → (get_actions other w').1 = (get_actions other w).1) ∧
  content w' = content w.
Proof.
  cbn zeta. unfold add_action, db_insert_history, get_actions, mbind, M_bind,
    get_world, modify_world, mret, M_ret.
  cbn [fst snd history content set_history].
  rewrite !List.filter_app. cbn [List.filter file_id]. rewrite Z.eqb_refl.
  split; [reflexivity |]. split; [| reflexivity].
  intros Hne. apply Z.eqb_neq in Hne. rewrite Z.eqb_sym in Hne. rewrite Hne.
  by rewrite app_nil_r.
Qed.

(** X20: [clear_actions] removes the records of one file and nothing else:
    afterwards [get_actions] of that file is empty, [get_actions] of any
    other file is as before, and table [content] is untouched. *)
Theorem clear_actions_scope (fid other : Z) (w : world) :
  let w' := (clear_actions fid w).2 in
  (get_actions fid w').1 = Return [] ∧
  (other ≠ fid → (get_actions other w').1 = (get_actions other w).1) ∧
  content w' = content w.
Proof.
  cbn zeta. unfold clear_actions, get_actions, mbind, M_bind, get_world, modify_world,
    mret, M_ret.
  cbn [fst snd history content set_history].
  split; [| split; [| reflexivity]].
  - f_equal. induction (history w) as [| a h IH]; [reflexivity |].
    cbn [List.filter]. destruct (file_id a =? fid) eqn:Ha; cbn [negb List.filter].
    + exact IH.
    + rewrite Ha. exact IH.
  - intros Hne. f_equal. induction (history w) as [| a h IH]; [reflexivity |].
    cbn [List.filter]. destruct (file_id a =? fid) eqn:Ha; cbn [negb List.filter].
    + apply Z.eqb_eq in Ha.
      assert ((file_id a =? other) = false) as -> by (apply Z.eqb_neq; congruence).
      exact IH.
    + destruct (file_id a =? other); [by rewrite IH | exact IH].
Qed.

End AuditLog.

(** ** Which exceptions the operations raise *)

Section Exceptions.

Context {engine : PyRe}.
Variable clock : nat → Z.
Variable root_path : string.
Variable filter_where : string → value → row → bool.

(** The exceptions the manager raises after it has read
    [params['serve_path']]: no [ValueError], no [re.error], and no
    [KeyError] but the one for [client['name']]. *)
Definition ordinary (e : exn) : Prop :=
  match e with
  | ValueError _ | ReError _ => False
  | KeyError k => k = "name"
  | _ => True
  end.

Definition raises_only {A : Type} (P : exn → Prop) (m : M A) : Prop :=
  ∀ w e, (m w).1 = Raise e → P e.

Lemma raises_only_never {A : Type} P (m : M A) :
  (∀ w, ∃ a, (m w).1 = Return a) → raises_only P m.
Proof. intros Hm w e He. destruct (Hm w) as [a Ha]. congruence. Qed.

Lemma raises_only_raise {A : Type} (P : exn → Prop) e : P e → raises_only P (raise (A := A) e).
Proof. intros HP w e' [= <-]. exact HP. Qed.

Lemma raises_only_bind {A B : Type} P (m : M A) (f : A → M B) :
  raises_only P m → (∀ a, raises_only P (f a)) → raises_only P (m ≫= f).
Proof.
  intros Hm Hf w e. unfold mbind, M_bind. specialize (Hm w).
  destruct (m w) as [[a | e'] w1]; cbn [fst] in *.
  - apply Hf.
  - intros [= <-]. by apply Hm.
Qed.

Lemma ordinary_getsize path : raises_only ordinary (getsize path).
Proof.
  unfold getsize. destruct path as [| b | n | p]; try by apply raises_only_raise.
  apply raises_only_bind; [by apply raises_only_never; eexists |]. intros w.
  destruct (fs w !! p); [by apply raises_only_never; eexists | by apply raises_only_raise].
Qed.

Lemma ordinary_validate_params params :
  raises_only ordinary (_validate_params root_path params).
Proof.
  unfold _validate_params.
  destruct (params !! "path") as [path |]; [| by apply raises_only_never; eexists].
  unfold _validate_path.
  destruct (negb (py_bool path)); [by apply raises_only_raise |].
  destruct path as [| b | n | p]; try by apply raises_only_raise.
  destruct (negb (startswith root_path p)); [by apply raises_only_raise |].
  apply raises_only_bind; [by apply raises_only_never; eexists |].
  intros there. destruct (negb there);
    [by apply raises_only_raise | by apply raises_only_never; eexists].
Qed.

Lemma ordinary_time_time : raises_only ordinary (time_time clock).
Proof. by apply raises_only_never; eexists. Qed.

Lemma ordinary_add_content data : raises_only ordinary (add_content data).
Proof.
  intros w e. unfold add_content, db_insert_content, mbind, M_bind, get_world,
    modify_world, mret, M_ret, raise.
  cbv beta iota zeta.
  destruct (_ !! "id") as [[| b | i | s] |]; cbn [fst]; try discriminate;
    try (by intros [= <-]).
  case_bool_decide; [by intros [= <-] | discriminate].
Qed.

Lemma ordinary_update_content data : raises_only ordinary (update_content data).
Proof.
  intros w e. unfold update_content, db_update_content.
  destruct (_ !! "id"); [discriminate | by intros [= <-]].
Qed.

Lemma ordinary_record_action fid name act ap ts :
  raises_only ordinary (record_action clock fid name act ap ts).
Proof.
  apply raises_only_never. intros w. unfold record_action, mbind, M_bind.
  destruct ts as [t |]; [destruct (t =? 0) |]; by eexists.
Qed.

Lemma ordinary_client_name (client : gmap string value) :
  raises_only ordinary (getitem client "name").
Proof.
  unfold getitem. destruct (client !! "name");
    [by apply raises_only_never; eexists | by apply raises_only_raise].
Qed.

Lemma ordinary_get_file_id i :
  raises_only ordinary (get_file filter_where (<["id" := VInt i]> ∅)).
Proof. apply raises_only_never. intros w. rewrite get_file_id. by eexists. Qed.

Lemma ordinary_tail (client : gmap string value) i act ap :
  raises_only ordinary
    (name ← getitem client "name";
     record_action clock i name act ap None;;
     get_file filter_where (<["id" := VInt i]> ∅)).
Proof.
  apply raises_only_bind; [apply ordinary_client_name | intros name].
  apply raises_only_bind; [apply ordinary_record_action | intros []].
  apply ordinary_get_file_id.
Qed.

Lemma manager_raises_ordinary
    (client : gmap string value) (path : value) (id : Z) (params : gmap string value)
    (w : world) (e : exn) :
  ((add_file clock root_path filter_where client path params w).1 = Raise e →
     (params !! "serve_path" = None ∧ e = KeyError "serve_path") ∨
     (is_Some (params !! "serve_path") ∧ ordinary e)) ∧
  ((update_file clock root_path filter_where client id params w).1 = Raise e → ordinary e) ∧
  ((delete_file clock filter_where client id w).1 = Raise e → ordinary e).
Proof.
  split; [| split].
  - unfold add_file, getitem.
    destruct (params !! "serve_path") as [sp |] eqn:Hsp.
    2:{ intros [= <-]. by left. }
    intros He. right. split; [by eexists |]. revert He.
    unfold mbind at 1. unfold M_bind at 1. cbn [mret M_ret].
    unfold mbind at 1. unfold M_bind at 1. rewrite exists_serve_path.
    destruct (existsb (blocks sp) (content w)); [by intros [= <-] |].
    revert w e.
    change (raises_only ordinary
      (_validate_params root_path params;;
       i ← _add_file clock path params;
       name ← getitem client "name";
       record_action clock i name "add" "" None;;
       get_file filter_where (<["id" := VInt i]> ∅))).
    apply raises_only_bind; [apply ordinary_validate_params | intros []].
    apply raises_only_bind; [| intros i; apply ordinary_tail].
    unfold _add_file. apply raises_only_bind; [apply ordinary_time_time | intros now].
    apply raises_only_bind; [apply ordinary_getsize | intros size].
    apply ordinary_add_content.
  - unfold update_file. unfold mbind at 1. unfold M_bind at 1. rewrite exists_id.
    destruct (existsb _ (content w)); [| by intros [= <-]]. cbn [negb].
    revert w e.
    change (raises_only ordinary
      (_validate_params root_path params;;
       params' ← _update_file clock id params;
       name ← getitem client "name";
       record_action clock id name "update" (join ", " (map_to_list params').*1) None;;
       get_file filter_where (<["id" := VInt id]> ∅))).
    apply raises_only_bind; [apply ordinary_validate_params | intros []].
    apply raises_only_bind; [| intros params'; apply ordinary_tail].
    unfold _update_file. apply raises_only_bind.
    { destruct (_ !! "path") as [p |]; [| by apply raises_only_never; eexists].
      apply raises_only_bind; [apply ordinary_getsize | intros size].
      by apply raises_only_never; eexists. }
    intros d1. apply raises_only_bind.
    { destruct (existsb _ _); by apply raises_only_never; eexists. }
    intros d2. apply raises_only_bind; [apply ordinary_update_content | intros []].
    by apply raises_only_never; eexists.
  - unfold delete_file. unfold mbind at 1. unfold M_bind at 1. rewrite exists_id.
    destruct (existsb _ (content w)); [| by intros [= <-]]. cbn [negb].
    revert w e.
    change (raises_only ordinary
      (_delete_file clock id;;
       name ← getitem client "name";
       record_action clock id name "delete" "" None)).
    apply raises_only_bind.
    { unfold _delete_file. apply raises_only_bind; [apply ordinary_time_time | intros now].
      apply ordinary_update_content. }
    intros []. apply raises_only_bind; [apply ordinary_client_name | intros name].
    apply ordinary_record_action.
Qed.

(** X21: [add_file] raises [KeyError('serve_path')] exactly when [params] has
    no such key; every other exception of [add_file], and every exception
    of [update_file] and [delete_file], is [ordinary]: never a
    [ValueError] or [re.error] (also when the serve path is no valid
    pattern), and no [KeyError] but the one for a client without a name. *)
Theorem manager_exceptions
    (client : gmap string value) (path : value) (id : Z) (params : gmap string value)
    (w : world) (e : exn) :
  ((add_file clock root_path filter_where client path params w).1 = Raise e →
     (params !! "serve_path" = None ∧ e = KeyError "serve_path") ∨
     (is_Some (params !! "serve_path") ∧ ordinary e)) ∧
  ((update_file clock root_path filter_where client id params w).1 = Raise e → ordinary e) ∧
  ((delete_file clock filter_where client id w).1 = Raise e → ordinary e).
Proof. apply manager_raises_ordinary. Qed.

End Exceptions.

(** ** content/api.py

    The request handlers, without the [check_auth] wrapper: the form or
    query parameters arrive as a decoded dictionary and the client is the
    one of the verified session.  A handler ends with a JSON body or with
    [abort(status, text)]. *)

Module Api.

Inductive body : Type :=
  | Listing (results : list row) (count : nat)  (* success, results, count *)
  | Results (results : list (option row))       (* success, results *)
  | Success                                     (* success *)
  | Failure (error : string).                   (* success = False, error *)

Inductive outcome : Type :=
  | Json (b : body)
  | Abort (status : Z) (text : string).

Definition ADD_FILE_REQ_PARAMS : list string := ["path"; "serve_path"].

(** [check_params]: [None] when it returns, the arguments of [abort]
    otherwise. *)
Fixpoint check_params (params : gmap string value) (required_params : list string)
  : option (Z * string) :=
  match required_params with
  | [] => None
  | p :: rest =>
      if negb (py_bool (default VNone (params !! p)))
      then Some (400, "`" +:+ p +:+ "` must be specified")
      else check_params params rest
  end.

Section Handlers.

Context {engine : PyRe}.
Variable clock : nat → Z.
Variable root_path : string.
Variable filter_where : string → value → row → bool.

Definition list_files (params : gmap string value) (w : world) : outcome * world :=
  let valid_params := (split_valid_filters params).1 in
  match list_files filter_where valid_params w with
  | (Return files, w') => (Json (Listing files (length files)), w')
  | (Raise (ContentException msg), w') => (Json (Failure msg), w')
  | (Raise (ValueError msg), w') => (Json (Failure msg), w')
  | (Raise _, w') => (Json (Failure "Unknown Error"), w')
  end.

Definition add_file (client params : gmap string value) (w : world) : outcome * world :=
  match check_params params ADD_FILE_REQ_PARAMS with
  | Some (status, text) => (Abort status text, w)
  | None =>
      let path := default VNone (params !! "path") in
      match add_file clock root_path filter_where client path params w with
      | (Return result, w') => (Json (Results [result]), w')
      | (Raise (ContentException msg), w') => (Json (Failure msg), w')
      | (Raise _, w') => (Json (Failure "Unknown Error"), w')
      end
  end.

Definition update_file (client : gmap string value) (id : Z) (params : gmap string value)
    (w : world) : outcome * world :=
  match update_file clock root_path filter_where client id params w with
  | (Return result, w') => (Json (Results [result]), w')
  | (Raise (ContentException msg), w') => (Json (Failure msg), w')
  | (Raise _, w') => (Json (Failure "Unknown Error"), w')
  end.

Definition delete_file (client : gmap string value) (id : Z) (w : world)
  : outcome * world :=
  match delete_file clock filter_where client id w with
  | (Return _, w') => (Json Success, w')
  | (Raise (ContentException msg), w') => (Json (Failure msg), w')
  | (Raise _, w') => (Json (Failure "Unknown Error"), w')
  end.

End Handlers.

End Api.

Section ApiFacts.

Context {engine : PyRe}.
Variable clock : nat → Z.
Variable root_path : string.
Variable filter_where : string → value → row → bool.

(** A parameter is given: present and not empty, zero, false or None. *)
Definition given (params : gmap string value) (p : string) : Prop :=
  py_bool (default VNone (params !! p)) = true.

Lemma given_is_Some (params : gmap string value) (p : string) :
  given params p → is_Some (params !! p).
Proof. unfold given. destruct (params !! p); [by eexists | discriminate]. Qed.

(** X22: The add handler answers 400, without calling the manager or changing
    anything, exactly when 'path' or 'serve_path' is not given.
    Otherwise it calls [add_file] on [params['path']], the manager never
    raises the [KeyError] for a missing 'serve_path', and a
    [ContentException] of the manager is answered with its message and any
    other exception with 'Unknown Error'. *)
Theorem api_add_file_checks_params (client params : gmap string value) (w : world) :
  ((∃ text, Api.add_file clock root_path filter_where client params w = (Api.Abort 400 text, w))
     ↔ ¬ (given params "path" ∧ given params "serve_path")) ∧
  (given params "path" ∧ given params "serve_path" →
     let run := add_file clock root_path filter_where client
                  (default VNone (params !! "path")) params w in
     run.1 ≠ Raise (KeyError "serve_path") ∧
     (Api.add_file clock root_path filter_where client params w).2 = run.2 ∧
     (∀ result, run.1 = Return result →
        (Api.add_file clock root_path filter_where client params w).1 =
          Api.Json (Api.Results [result])) ∧
     (∀ msg, run.1 = Raise (ContentException msg) →
        (Api.add_file clock root_path filter_where client params w).1 =
          Api.Json (Api.Failure msg))).
Proof.
  unfold Api.add_file, Api.ADD_FILE_REQ_PARAMS, given. cbn [Api.check_params].
  destruct (py_bool (default VNone (params !! "path"))) eqn:Hpath; cbn [negb].
  2:{ split; [split; [by intros _ [? _] | by eexists] | by intros [? _]]. }
  destruct (py_bool (default VNone (params !! "serve_path"))) eqn:Hsp; cbn [negb].
  2:{ split; [split; [by intros _ [_ ?] | by eexists] | by intros [_ ?]]. }
  split.
  - split; [| by intros []].
    intros [text Habort].
    by destruct (add_file clock root_path filter_where client _ params w) as [[r | []] w'].
  - intros _. cbn zeta.
    assert ((add_file clock root_path filter_where client
               (default VNone (params !! "path")) params w).1 ≠ Raise (KeyError "serve_path"))
      as Hkey.
    { intros Hraise.
      destruct (manager_raises_ordinary clock root_path filter_where client
                  (default VNone (params !! "path")) 0 params w (KeyError "serve_path"))
        as [Hadd _].
      destruct (Hadd Hraise) as [[Hnone _] | [_ Hord]]; [| discriminate Hord].
      rewrite Hnone in Hsp. discriminate Hsp. }
    split; [exact Hkey |].
    destruct (add_file clock root_path filter_where client _ params w) as [[r | e] w'];
      cbn [fst snd] in *.
    + split; [reflexivity |]. split; [by intros ? [= <-] | discriminate].
    + split; [by destruct e |]. split; [discriminate |].
      intros msg [= ->]. reflexivity.
Qed.

(** With recognised filter names [list_files] raises nothing but the
    [ValueError] for a bad pattern, a [TypeError] for a serve path that is
    no string, or an error of the database for a [count] it cannot use. *)
Lemma list_files_valid_raises (kwargs : gmap string value) (w : world) (e : exn) :
  valid_keys kwargs →
  (list_files filter_where kwargs w).1 = Raise e →
  (∃ p, e = ValueError ("Invalid regular expression for serve_path: " +:+ p)) ∨
  (∃ m, e = TypeError m) ∨ (∃ m, e = DatabaseError m).
Proof.
  intros Hv. unfold list_files.
  set (merged := kwargs ∪ default_filters).
  assert (valid_keys merged) as Hvm.
  { intros k [v Hk]. unfold merged in Hk. apply lookup_union_Some_raw in Hk
      as [Hk | [_ Hk]]; [apply Hv; by eexists |].
    unfold default_filters in Hk. apply lookup_insert_Some in Hk as [[<- _] | [_ Hk]];
      [by apply (bool_decide_unpack _) | by rewrite lookup_empty in Hk]. }
  assert (∀ filters, valid_keys filters →
            ∀ r, (r = Return filters ∨ ∃ e', r = Raise e' ∧
                    ((∃ p, e' = ValueError ("Invalid regular expression for serve_path: " +:+ p))
                     ∨ ∃ m, e' = TypeError m)) →
            ((filters ← lift r; rows ← get_content filter_where filters;
              mret (_process_entry <$> rows)) w).1 = Raise e →
            (∃ p, e = ValueError ("Invalid regular expression for serve_path: " +:+ p)) ∨
            (∃ m, e = TypeError m) ∨ (∃ m, e = DatabaseError m)) as Hrest.
  { intros filters Hvf r [-> | (e' & -> & He')]; unfold mbind, M_bind, lift.
    - rewrite (get_content_valid _ _ _ Hvf).
      generalize (List.filter (selected filter_where filters) (content w)). intros hits.
      unfold cut. destruct (filters !! "count") as [c |]; [| discriminate].
      destruct (adapt c); try discriminate; intros [= <-]; right; right; by eexists.
    - intros [= <-]. destruct He' as [Hv' | Ht]; [by left | right; by left]. }
  apply (Hrest (clamped merged) (clamped_valid_keys _ Hvm)).
  rewrite validate_list_filters_clamped.
  destruct (clamped merged !! "serve_path") as [sp |]; [| by left].
  unfold re_compile_py. destruct sp as [| b | n | p];
    try (right; eexists; split; [reflexivity | right; by eexists]).
  destruct (re_compile p) as [msg | rx]; [| by left].
  right. eexists. split; [reflexivity |]. left. by exists p.
Qed.

(** X23: The list handler drops the query parameters that are no filters:
    they never make it fail, and the answer is the one for the recognised
    parameters alone.  It changes nothing.  A serve path that is no valid
    pattern is answered as a failure carrying the message of the
    [ValueError]. *)
Theorem api_list_files_ignores_unknown (params : gmap string value) (w : world) :
  Api.list_files filter_where params w =
    Api.list_files filter_where (split_valid_filters params).1 w ∧
  (Api.list_files filter_where params w).2 = w ∧
  (∀ key, (Api.list_files filter_where params w).1 ≠
            Api.Json (Api.Failure ("Invalid filter: " +:+ key))) ∧
  (∀ p msg, params !! "serve_path" = Some (VStr p) → re_compile p = inl msg →
     Api.list_files filter_where params w =
       (Api.Json (Api.Failure ("Invalid regular expression for serve_path: " +:+ p)), w)).
Proof.
  set (valid := (split_valid_filters params).1).
  assert (∀ k v, valid !! k = Some v ↔ params !! k = Some v ∧ k ∈ VALID_FILTERS) as Hlook.
  { intros k v. unfold valid, split_valid_filters. cbn [fst].
    by rewrite map_lookup_filter_Some. }
  assert (valid_keys valid) as Hv.
  { intros k [v Hk]. by apply Hlook in Hk as [_ Hk]. }
  assert ((split_valid_filters valid).1 = valid) as Hagain.
  { unfold split_valid_filters. cbn [fst]. apply map_filter_id.
    intros k v Hk. apply Hv. by eexists. }
  pose proof (list_files_world filter_where valid w) as Hw.
  pose proof (list_files_valid_raises valid w) as Hraises.
  split.
  { unfold Api.list_files. fold valid. by rewrite Hagain. }
  split.
  { unfold Api.list_files. fold valid.
    destruct (list_files filter_where valid w) as [[rows | []] w']; cbn [snd] in *;
      exact Hw. }
  split.
  - intros key. unfold Api.list_files. fold valid.
    destruct (list_files filter_where valid w) as [[rows | e] w']; cbn [fst snd] in *;
      [discriminate |].
    destruct (Hraises e Hv eq_refl) as [[p ->] | [[m ->] | [m ->]]]; cbn; discriminate.
  - intros p msg Hsp Hbad. unfold Api.list_files. fold valid. unfold list_files.
    set (merged := valid ∪ default_filters).
    assert (clamped merged !! "serve_path" = Some (VStr p)) as Hc.
    { destruct (clamped_lookup merged) as [Hother _]. rewrite Hother by done.
      unfold merged. apply lookup_union_Some_l. apply Hlook. split; [exact Hsp |].
      by apply (bool_decide_unpack _). }
    unfold mbind, M_bind, lift. rewrite validate_list_filters_clamped, Hc.
    cbn [re_compile_py]. rewrite Hbad. reflexivity.
Qed.

End ApiFacts.

Lemma refused_path_changes_nothing_witness :
  (_validate_params Demo.root_path (<["path" := VStr "/etc/passwd"]> ∅) Demo.w1).1 =
    Raise (ContentException " /etc/passwd does not fall under /srv/content hierarchy.") ∧
  has_alive_id 1 Demo.w1 ∧
  update_file Demo.clock Demo.root_path Demo.filter_where Demo.client 1
    (<["path" := VStr "/etc/passwd"]> ∅) Demo.w1 =
    (Raise (ContentException " /etc/passwd does not fall under /srv/content hierarchy."),
     Demo.w1).
Proof.
  assert ((_validate_params Demo.root_path (<["path" := VStr "/etc/passwd"]> ∅) Demo.w1).1 =
          Raise (ContentException " /etc/passwd does not fall under /srv/content hierarchy."))
    as Hval by (vm_compute; reflexivity).
  assert (has_alive_id 1 Demo.w1) as Halive.
  { apply existsb_id_alive. vm_compute. reflexivity. }
  split; [exact Hval |]. split; [exact Halive |].
  exact (proj2 (refused_path_changes_nothing (engine := ReFragment.engine)
                  Demo.clock Demo.root_path Demo.filter_where Demo.client
                  VNone 1 _ _ Demo.w1 Hval) Halive).
Defined.

Lemma reachable_ids_unique_witness :
  reachable Demo.clock Demo.root_path Demo.filter_where Demo.w1 ∧ ids_ok Demo.w1.
Proof.
  assert (reachable Demo.clock Demo.root_path Demo.filter_where Demo.w1) as Hreach.
  { apply (reach_add (engine := ReFragment.engine)). apply reach_init. }
  split; [exact Hreach |].
  exact (reachable_ids_unique (engine := ReFragment.engine)
           Demo.clock Demo.root_path Demo.filter_where Demo.w1 Hreach).
Defined.

Lemma delete_file_then_not_found_witness :
  delete_file Demo.clock Demo.filter_where Demo.client 1 Demo.w1 = (Return (), Demo.w2) ∧
  ¬ has_alive_id 1 Demo.w2.
Proof.
  assert (delete_file Demo.clock Demo.filter_where Demo.client 1 Demo.w1 =
          (Return (), Demo.w2)) as Hrun by (vm_compute; reflexivity).
  split; [exact Hrun |].
  exact (proj1 (delete_file_then_not_found (engine := ReFragment.engine)
                  Demo.clock Demo.root_path Demo.filter_where Demo.client 1
                  Demo.w1 Demo.w2 Hrun)).
Defined.

Lemma update_file_keeps_ids_witness :
  update_file Demo.clock Demo.root_path Demo.filter_where Demo.client 1
    (<["id" := VInt 7]> ∅) Demo.w1 =
    (Return (Some (Demo.entry_of (Demo.update 1 (<["id" := VInt 7]> ∅)) Demo.w1)),
     Demo.after (Demo.update 1 (<["id" := VInt 7]> ∅)) Demo.w1) ∧
  column (Demo.entry_of (Demo.update 1 (<["id" := VInt 7]> ∅)) Demo.w1) "id" = VInt 1.
Proof.
  assert (update_file Demo.clock Demo.root_path Demo.filter_where Demo.client 1
            (<["id" := VInt 7]> ∅) Demo.w1 =
          (Return (Some (Demo.entry_of (Demo.update 1 (<["id" := VInt 7]> ∅)) Demo.w1)),
           Demo.after (Demo.update 1 (<["id" := VInt 7]> ∅)) Demo.w1))
    as Hrun by (vm_compute; reflexivity).
  split; [exact Hrun |].
  exact (proj2 (update_file_keeps_ids (engine := ReFragment.engine)
                  Demo.clock Demo.root_path Demo.filter_where Demo.client 1
                  (<["id" := VInt 7]> ∅) Demo.w1 _ _ Hrun) _ eq_refl).
Defined.

Lemma update_file_recomputes_size_witness :
  update_file Demo.clock Demo.root_path Demo.filter_where Demo.client 1
    (<["size" := VInt 1]> (<["path" := VStr "/srv/content/b.mp4"]> ∅)) Demo.w1 =
    (Return (Some (Demo.entry_of
               (Demo.update 1 (<["size" := VInt 1]>
                  (<["path" := VStr "/srv/content/b.mp4"]> ∅))) Demo.w1)),
     Demo.after (Demo.update 1 (<["size" := VInt 1]>
                  (<["path" := VStr "/srv/content/b.mp4"]> ∅))) Demo.w1) ∧
  (<["size" := VInt 1]> (<["path" := VStr "/srv/content/b.mp4"]> ∅) : gmap string value)
    !! "path" = Some (VStr "/srv/content/b.mp4") ∧
  ∃ p e, VStr "/srv/content/b.mp4" = VStr p ∧ fs Demo.w1 !! p = Some e.
Proof.
  assert (update_file Demo.clock Demo.root_path Demo.filter_where Demo.client 1
            (<["size" := VInt 1]> (<["path" := VStr "/srv/content/b.mp4"]> ∅)) Demo.w1 =
          (Return (Some (Demo.entry_of
                     (Demo.update 1 (<["size" := VInt 1]>
                        (<["path" := VStr "/srv/content/b.mp4"]> ∅))) Demo.w1)),
           Demo.after (Demo.update 1 (<["size" := VInt 1]>
                        (<["path" := VStr "/srv/content/b.mp4"]> ∅))) Demo.w1))
    as Hrun by (vm_compute; reflexivity).
  assert ((<["size" := VInt 1]> (<["path" := VStr "/srv/content/b.mp4"]> ∅)
             : gmap string value) !! "path" = Some (VStr "/srv/content/b.mp4"))
    as Hpath by reflexivity.
  split; [exact Hrun |]. split; [exact Hpath |].
  destruct (update_file_recomputes_size (engine := ReFragment.engine)
              Demo.clock Demo.root_path Demo.filter_where Demo.client 1 _ Demo.w1 _ _ _
              Hrun Hpath) as (p & e & Hp & Hfs & _).
  exists p, e. split; [exact Hp | exact Hfs].
Defined.

Lemma validate_list_filters_idempotent_witness :
  validate_list_filters (engine := ReFragment.engine) (<["count" := VInt 5000]> ∅) =
    Return (<["count" := VInt 1000]> ∅) ∧
  validate_list_filters (engine := ReFragment.engine) (<["count" := VInt 1000]> ∅) =
    Return (<["count" := VInt 1000]> ∅).
Proof.
  assert (validate_list_filters (engine := ReFragment.engine) (<["count" := VInt 5000]> ∅) =
          Return (<["count" := VInt 1000]> ∅)) as Hret by (vm_compute; reflexivity).
  split; [exact Hret |].
  exact (validate_list_filters_idempotent (engine := ReFragment.engine) _ _ Hret).
Defined.

Lemma list_files_returns_witness :
  valid_keys (<["serve_path" := VStr "/videos/.*"]> ∅) ∧
  ∃ rows, list_files (engine := ReFragment.engine) Demo.filter_where
            (<["serve_path" := VStr "/videos/.*"]> ∅) Demo.w1 = (Return rows, Demo.w1).
Proof.
  assert (valid_keys (<["serve_path" := VStr "/videos/.*"]> ∅)) as Hv.
  { apply valid_keys_insert; [by apply (bool_decide_unpack _) | apply valid_keys_empty]. }
  split; [exact Hv |].
  apply (list_files_returns (engine := ReFragment.engine) Demo.filter_where _ Demo.w1 Hv).
  - intros sp Hsp. rewrite lookup_insert_eq in Hsp. injection Hsp as <-.
    eexists _, _. split; [reflexivity |]. vm_compute. reflexivity.
  - left. rewrite lookup_insert_eq. by eexists.
Defined.

Lemma regexp_operator_on_other_values_witness :
  sql_regexp (engine := ReFragment.engine) (VStr "/videos/a") VNone = false.
Proof.
  apply (regexp_operator_on_other_values (engine := ReFragment.engine)).
  right. intros s. discriminate.
Defined.

(** ** Round trips *)

Section RoundTrips.

Context {engine : PyRe}.
Variable clock : nat → Z.
Variable root_path : string.
Variable filter_where : string → value → row → bool.

(** X17: The entry [add_file] returns can be read back: it carries an integer
    id, and [get_file(id=...)] on the world [add_file] leaves returns that
    same entry. *)
Theorem add_file_then_get_file
    (client : gmap string value) (path : value) (params : gmap string value)
    (w w' : world) (res : option row) :
  add_file clock root_path filter_where client path params w = (Return res, w') →
  ∃ entry i, res = Some entry ∧ column entry "id" = VInt i ∧
    get_file filter_where (<["id" := VInt i]> ∅) w' = (Return (Some entry), w').
Proof.
  intros Hrun. apply add_file_returns in Hrun
    as (sp & p & e & name & i & _ & _ & _ & _ & _ & Hfresh & Hrun).
  cbn zeta in Hrun.
  pose proof (inserted_row params (clock (ticks w)) (st_size e) i) as Hnew.
  cbn zeta in Hnew. destruct Hnew as (Hid & Hal & _). revert Hrun Hid Hal.
  generalize (<["id" := VInt i]> (bound (stamped params (clock (ticks w)) (st_size e)))).
  intros new [-> ->] Hid Hal.
  exists (_process_entry new), i.
  split; [reflexivity |]. split.
  { unfold _process_entry, column. rewrite lookup_insert_ne by done.
    by rewrite Hid. }
  rewrite get_file_id. cbn [content].
  by rewrite (head_filter_new _ _ _ Hfresh Hid Hal).
Qed.

(** X5: In every world the manager can be in, each audit record carries the
    id of a row of table [content]. *)
Theorem audit_records_refer_to_rows (w : world) :
  reachable clock root_path filter_where w →
  ∀ a, a ∈ history w → ∃ r, r ∈ content w ∧ column r "id" = VInt (file_id a).
Proof.
  intros Hreach a Ha.
  destruct (reachable_history_refs clock root_path filter_where w Hreach a Ha)
    as (r & Hin & Hr).
  exists r. split; [exact Hin |]. by apply column_id_row_id.
Qed.

(** X11: A successful [delete_file] appends exactly one audit record: for the
    id, with the name of the client, action 'delete', empty
    [action_params] and the second clock reading of the call. *)
Theorem delete_file_records_action (client : gmap string value) (id : Z) (w w' : world) :
  delete_file clock filter_where client id w = (Return (), w') →
  ∃ name, client !! "name" = Some name ∧
    history w' =
      (history w ++ [ActionRecord id name "delete" "" (clock (S (ticks w)))])%list ∧
    ticks w' = S (S (ticks w)).
Proof.
  intros Hrun. apply delete_file_returns in Hrun as (_ & name & Hname & ->).
  exists name. split; [exact Hname |]. split; reflexivity.
Qed.

(** X24: Through the handlers, an id without alive entry is answered with the
    failure 'File with id ... does not exist.' by update and by delete,
    and nothing is changed. *)
Theorem api_reports_not_found
    (client : gmap string value) (id : Z) (params : gmap string value) (w : world) :
  ¬ has_alive_id id w →
  Api.update_file clock root_path filter_where client id params w =
    (Api.Json (Api.Failure ("File with id " +:+ pretty id +:+ " does not exist.")), w) ∧
  Api.delete_file clock filter_where client id w =
    (Api.Json (Api.Failure ("File with id " +:+ pretty id +:+ " does not exist.")), w).
Proof.
  intros Hno. unfold Api.update_file, Api.delete_file.
  rewrite (update_file_no_alive clock root_path filter_where client id params w Hno).
  rewrite (delete_file_no_alive clock filter_where client id w Hno).
  split; reflexivity.
Qed.

End RoundTrips.

Lemma add_file_then_get_file_witness :
  add_file Demo.clock Demo.root_path Demo.filter_where Demo.client
    (VStr "/srv/content/b.mp4") (Demo.params "/srv/content/b.mp4" "/videos/c") Demo.w1 =
    (Return (Some (Demo.entry_of (Demo.add "/srv/content/b.mp4" "/videos/c") Demo.w1)),
     Demo.after (Demo.add "/srv/content/b.mp4" "/videos/c") Demo.w1) ∧
  ∃ entry i,
    Some (Demo.entry_of (Demo.add "/srv/content/b.mp4" "/videos/c") Demo.w1) = Some entry ∧
    column entry "id" = VInt i.
Proof.
  assert (add_file Demo.clock Demo.root_path Demo.filter_where Demo.client
            (VStr "/srv/content/b.mp4") (Demo.params "/srv/content/b.mp4" "/videos/c")
            Demo.w1 =
          (Return (Some (Demo.entry_of (Demo.add "/srv/content/b.mp4" "/videos/c") Demo.w1)),
           Demo.after (Demo.add "/srv/content/b.mp4" "/videos/c") Demo.w1))
    as Hrun by (vm_compute; reflexivity).
  split; [exact Hrun |].
  destruct (add_file_then_get_file (engine := ReFragment.engine)
              Demo.clock Demo.root_path Demo.filter_where Demo.client _ _ Demo.w1 _ _ Hrun)
    as (entry & i & Hres & Hid & _).
  exists entry, i. split; [exact Hres | exact Hid].
Defined.

Lemma audit_records_refer_to_rows_witness :
  reachable Demo.clock Demo.root_path Demo.filter_where Demo.w1 ∧
  ∀ a, a ∈ history Demo.w1 → ∃ r, r ∈ content Demo.w1 ∧ column r "id" = VInt (file_id a).
Proof.
  assert (reachable Demo.clock Demo.root_path Demo.filter_where Demo.w1) as Hreach.
  { apply (reach_add (engine := ReFragment.engine)). apply reach_init. }
  split; [exact Hreach |].
  exact (audit_records_refer_to_rows (engine := ReFragment.engine)
           Demo.clock Demo.root_path Demo.filter_where Demo.w1 Hreach).
Defined.

Lemma delete_file_records_action_witness :
  delete_file Demo.clock Demo.filter_where Demo.client 1 Demo.w1 = (Return (), Demo.w2) ∧
  ∃ name, Demo.client !! "name" = Some name ∧
    history Demo.w2 =
      (history Demo.w1 ++
       [ActionRecord 1 name "delete" "" (Demo.clock (S (ticks Demo.w1)))])%list ∧
    ticks Demo.w2 = S (S (ticks Demo.w1)).
Proof.
  assert (delete_file Demo.clock Demo.filter_where Demo.client 1 Demo.w1 =
          (Return (), Demo.w2)) as Hrun by (vm_compute; reflexivity).
  split; [exact Hrun |].
  exact (delete_file_records_action (engine := ReFragment.engine)
           Demo.clock Demo.filter_where Demo.client 1 Demo.w1 Demo.w2 Hrun).
Defined.

Lemma api_reports_not_found_witness :
  ¬ has_alive_id 1 Demo.w2 ∧
  Api.delete_file (engine := ReFragment.engine) Demo.clock Demo.filter_where Demo.client 1
    Demo.w2 =
    (Api.Json (Api.Failure ("File with id " +:+ pretty 1 +:+ " does not exist.")), Demo.w2).
Proof.
  assert (¬ has_alive_id 1 Demo.w2) as Hno.
  { rewrite <- existsb_id_alive. vm_compute. discriminate. }
  split; [exact Hno |].
  exact (proj2 (api_reports_not_found (engine := ReFragment.engine)
                  Demo.clock Demo.root_path Demo.filter_where Demo.client 1 ∅ Demo.w2 Hno)).
Defined.
